(** * Isotope analysis store: derived metrics, constraints and views

    A shallow embedding of the two SQL schemas of the repository and of
    the statistics of the dashboard:

    - [Schema]     : [src/schema.md], the per-session store (sessions,
                     plots, detections, mass estimates, summaries), its row
                     triggers and its views;
    - [Facade]     : the read views [latest_analyses] and
                     [detection_results] of [src/schema.md];
    - [Platform]   : [src/unnamed/part_002], the single-table store
                     [isotope_analyses] and its two statistics views;
    - [Operations] : the functions [get_analysis_stats] and
                     [cleanup_old_realtime_data] of [src/unnamed/part_002],
                     and its tables [realtime_status] and [system_logs];
    - [Dashboard]  : [calculateStats] of [src/app/page.tsx].

    Conventions of the embedding.
    - A table is the list of its rows, a view is a function of the tables.
    - [REAL] and [numeric] values are exact rationals ([Q]); the rounding of
      4-byte floats, infinities and NaN are outside the model.  [TEXT] is
      [string], compared byte-wise; [UUID] is [N]; [TIMESTAMPTZ] is a number
      of microseconds ([Z]); a nullable column has an [option] type where
      [None] is SQL's NULL.  A NOT NULL column has a plain type: a row with
      a NULL there is rejected by the constraint and is never stored.
    - Column defaults are applied by the caller: a row handed to an insert
      is complete.
    - A statement is an INSERT of one row, an UPDATE ... WHERE or a
      DELETE ... WHERE on one table.  It either succeeds with a new store
      or raises an error and leaves the store as it was. *)

From Stdlib Require Import List String Ascii ZArith NArith QArith Qround Bool Lia.
From Stdlib Require Import Permutation Sorted.
Import ListNotations.

Open Scope Q_scope.

(** ** SQL values and errors *)

Definition uuid := N.
Definition text := string.
Definition real := Q.
Definition timestamptz := Z.
Bind Scope N_scope with uuid.
Bind Scope string_scope with text.
Bind Scope Q_scope with real.
Bind Scope Z_scope with timestamptz.

Inductive sql_error :=
| check_violation
| unique_violation
| foreign_key_violation
| division_by_zero.

Inductive result (A : Type) :=
| Ok (a : A)
| Err (e : sql_error).
Arguments Ok {A} a.
Arguments Err {A} e.

Definition bind {A B} (r : result A) (k : A -> result B) : result B :=
  match r with
  | Ok a => k a
  | Err e => Err e
  end.

Notation "x <- r ;; k" := (bind r (fun x => k))
  (at level 61, r at next level, right associativity).

Definition guard (b : bool) (e : sql_error) : result unit :=
  if b then Ok tt else Err e.

(** [x > y] and [x >= y] on REAL values. *)
Definition Qgtb (x y : Q) : bool := negb (Qle_bool x y).
Definition Qgeb (x y : Q) : bool := Qle_bool y x.

(** A CHECK constraint passes when its condition is true or NULL. *)
Definition check_nullable (p : Q -> bool) (v : option Q) : bool :=
  match v with
  | Some x => p x
  | None => true
  end.

(** ** Sorting, as ORDER BY does it

    ORDER BY is modelled by an insertion sort on a boolean "comes no later
    than" relation.  The theorems below only use that the result is a sorted
    permutation of the input, which every implementation of ORDER BY
    guarantees. *)

Section Sort.
Context {A : Type}.
Variable leb : A -> A -> bool.

Fixpoint insert_sorted (x : A) (l : list A) : list A :=
  match l with
  | [] => [x]
  | y :: l' => if leb x y then x :: l else y :: insert_sorted x l'
  end.

Fixpoint order_by (l : list A) : list A :=
  match l with
  | [] => []
  | x :: l' => insert_sorted x (order_by l')
  end.

End Sort.

(** ** Sort keys

    An ORDER BY list is a lexicographic comparison of its keys; [desc]
    reverses a key, and NULLs come last in ascending and first in
    descending order unless the query says otherwise. *)

Definition lex (c1 c2 : comparison) : comparison :=
  match c1 with
  | Eq => c2
  | _ => c1
  end.

Definition desc {A} (cmp : A -> A -> comparison) (a b : A) : comparison :=
  cmp b a.

Definition nulls_last {A} (cmp : A -> A -> comparison) (a b : option A)
  : comparison :=
  match a, b with
  | Some x, Some y => cmp x y
  | Some _, None => Lt
  | None, Some _ => Gt
  | None, None => Eq
  end.

Definition nulls_first {A} (cmp : A -> A -> comparison) (a b : option A)
  : comparison :=
  match a, b with
  | Some x, Some y => cmp x y
  | Some _, None => Gt
  | None, Some _ => Lt
  | None, None => Eq
  end.

Definition no_later (c : comparison) : bool :=
  match c with
  | Gt => false
  | _ => true
  end.

(** What ORDER BY needs of a sort key: a three-way comparison that is a
    total preorder. *)
Class Comparator {A : Type} (cmp : A -> A -> comparison) : Prop := {
  cmp_antisym : forall a b, cmp b a = CompOpp (cmp a b);
  cmp_lt_trans : forall a b c, cmp a b = Lt -> cmp b c = Lt -> cmp a c = Lt;
  cmp_eq_compat : forall a b c, cmp a b = Eq -> cmp a c = cmp b c
}.

(** ** Joins, grouping and the RANK() window function *)

(** [l JOIN r ON on] as a nested loop. *)
Definition join {A B} (on : A -> B -> bool) (l : list A) (r : list B)
  : list (A * B) :=
  flat_map (fun a => map (pair a) (filter (on a) r)) l.

(** [l LEFT JOIN r ON on]: a left row without a match is kept once, with
    NULL for the right side. *)
Definition left_join {A B} (on : A -> B -> bool) (l : list A) (r : list B)
  : list (A * option B) :=
  flat_map (fun a =>
              match filter (on a) r with
              | [] => [(a, None)]
              | ms => map (fun b => (a, Some b)) ms
              end) l.

Section GroupBy.
Context {A K : Type}.
Variable key : A -> K.
Variable eqb : K -> K -> bool.

(** The distinct values of a column, in order of first appearance. *)
Fixpoint distinct (l : list K) : list K :=
  match l with
  | [] => []
  | k :: l' => k :: filter (fun k' => negb (eqb k k')) (distinct l')
  end.

(** GROUP BY [key]: each distinct key with the rows that carry it. *)
Definition group_by (l : list A) : list (K * list A) :=
  map (fun k => (k, filter (fun a => eqb (key a) k) l)) (distinct (map key l)).
End GroupBy.

Section Window.
Context {A : Type}.
(** PARTITION BY a text column, ORDER BY a REAL column DESC. *)
Variable partition_key : A -> text.
Variable order_key : A -> real.

Definition same_partition (a b : A) : bool :=
  String.eqb (partition_key a) (partition_key b).

Definition peers (a b : A) : bool :=
  Qeq_bool (order_key a) (order_key b).

Definition window_order (a b : A) : comparison :=
  lex (String.compare (partition_key a) (partition_key b))
      (desc Qcompare (order_key a) (order_key b)).

(** RANK() over rows that arrive sorted by [window_order]: the row number,
    within its partition, of the first peer of the current row.  [prev] is
    the previous row, [rownum] its row number and [rank] its rank. *)
Fixpoint rank_rows (prev : option A) (rownum rank : nat) (l : list A)
  : list (A * nat) :=
  match l with
  | [] => []
  | r :: l' =>
      let '(rownum', rank') :=
        match prev with
        | Some p =>
            if same_partition p r then
              (S rownum, if peers p r then rank else S rownum)
            else (1%nat, 1%nat)
        | None => (1%nat, 1%nat)
        end in
      (r, rank') :: rank_rows (Some r) rownum' rank' l'
  end.

Definition RANK (l : list A) : list (A * nat) :=
  rank_rows None 0 0 (order_by (fun a b => no_later (window_order a b)) l).

(** The rows of [l] in the partition of [r], and those of them with a
    strictly greater order key. *)
Definition partition_of (r : A) (l : list A) : list A :=
  filter (fun b => same_partition b r) l.

Definition ahead_of (r : A) (l : list A) : list A :=
  filter (fun b => same_partition b r && Qgtb (order_key b) (order_key r)) l.

(** What the walk of [rank_rows] knows about the row [p] it has just
    ranked, [pre] being the rows before it: its row number counts the rows
    of its partition so far, and its rank is one more than the number of
    those that sort strictly before it. *)
Definition walk_state (pre : list A) (p : A) (rownum rank : nat) : Prop :=
  rownum = List.length (partition_of p (pre ++ [p]))
  /\ rank = S (List.length (ahead_of p pre)).
End Window.

(** ** Writing rows to a table *)

Section Table.
Context {row : Type}.
(** The BEFORE INSERT OR UPDATE row trigger of the table. *)
Variable trigger : row -> row.
(** The conjunction of the table's CHECK constraints. *)
Variable check : row -> bool.
(** Two rows collide on the primary key or on a UNIQUE constraint. *)
Variable conflicts : row -> row -> bool.
(** The row's foreign key has a target. *)
Variable references : row -> bool.

(** One row on its way into the table: the trigger rewrites it, then the
    CHECKs, the unique indexes and the foreign key are tried, in this
    order, against the [others] already there. *)
Definition write_row (NEW : row) (others : list row) : result row :=
  let NEW := trigger NEW in
  _ <- guard (check NEW) check_violation ;;
  _ <- guard (negb (existsb (conflicts NEW) others)) unique_violation ;;
  _ <- guard (references NEW) foreign_key_violation ;;
  Ok NEW.

(** INSERT INTO t VALUES (NEW) *)
Definition insert_row (t : list row) (NEW : row) : result (list row) :=
  r <- write_row NEW t ;;
  Ok (t ++ [r]).

(** UPDATE t SET ... WHERE p: the rows are visited in table order;
    [done] holds the rows already visited, in their new version. *)
Fixpoint update_rows (p : row -> bool) (set : row -> row)
  (done todo : list row) : result (list row) :=
  match todo with
  | [] => Ok done
  | OLD :: rest =>
      if p OLD then
        r <- write_row (set OLD) (done ++ rest) ;;
        update_rows p set (done ++ [r]) rest
      else update_rows p set (done ++ [OLD]) rest
  end.

Definition update_where (p : row -> bool) (set : row -> row) (t : list row)
  : result (list row) :=
  update_rows p set [] t.

(** What a row of the table becomes under a successful UPDATE ... WHERE p. *)
Definition updated (p : row -> bool) (set : row -> row) (OLD : row) : row :=
  if p OLD then trigger (set OLD) else OLD.

(** DELETE FROM t WHERE p *)
Definition delete_where (p : row -> bool) (t : list row) : list row :=
  filter (fun r => negb (p r)) t.
End Table.

(** No two rows of the table collide on a key. *)
Definition unique_rows {row : Type} (conflicts : row -> row -> bool)
  (t : list row) : Prop :=
  ForallOrdPairs (fun a b => conflicts a b = false) t.

(** ** Rows of [src/schema.md]

    One module per table, named after the TypeScript interface that
    mirrors it; the fields keep the column names.  [created_at] and
    [updated_at] play no part in any constraint, trigger or view below and
    are left out. *)

Module AnalysisSession.
Record row := {
  id : uuid;
  sample_filename : text;
  background_filename : text;
  confidence_threshold : real;
  analysis_timestamp : option timestamptz;
  metadata : option text
}.
(** CHECK (confidence_threshold > 0 AND confidence_threshold <= 1) *)
Definition check (r : row) : bool :=
  Qgtb (confidence_threshold r) 0 && Qle_bool (confidence_threshold r) 1.
Definition conflicts (a b : row) : bool := N.eqb (id a) (id b).
End AnalysisSession.

(** The four values the CHECK on [plot_type] admits. *)
Inductive plot_type_t :=
| spectrum_overview
| mass_distribution
| uncertainty_analysis
| roi_plot.

Definition plot_type_text (t : plot_type_t) : text :=
  match t with
  | spectrum_overview => "spectrum_overview"
  | mass_distribution => "mass_distribution"
  | uncertainty_analysis => "uncertainty_analysis"
  | roi_plot => "roi_plot"
  end%string.

Definition plot_type_eqb (a b : plot_type_t) : bool :=
  String.eqb (plot_type_text a) (plot_type_text b).

(** The keys of [plot_metadata] that the views read ([PlotMetadata] in the
    dashboard); a key that is absent reads as NULL. *)
Record PlotMetadata := {
  pm_parent_isotope : option text;
  pm_gamma_energy_kev : option real
}.

Module AnalysisPlot.
Record row := {
  id : uuid;
  analysis_id : uuid;
  plot_type : plot_type_t;
  plot_title : text;
  plot_data_base64 : text;
  plot_metadata : option PlotMetadata
}.
Definition check (_ : row) : bool := true.
Definition conflicts (a b : row) : bool := N.eqb (id a) (id b).
End AnalysisPlot.

Module IsotopeDetection.
Record row := {
  id : uuid;
  analysis_id : uuid;
  parent_isotope : text;
  daughter_isotope : text;
  gamma_energy_kev : real;
  detected_counts : real;
  count_uncertainty : real;
  relative_uncertainty : option real
}.
Definition with_relative_uncertainty (v : option real) (r : row) : row :=
  {| id := id r; analysis_id := analysis_id r;
     parent_isotope := parent_isotope r;
     daughter_isotope := daughter_isotope r;
     gamma_energy_kev := gamma_energy_kev r;
     detected_counts := detected_counts r;
     count_uncertainty := count_uncertainty r;
     relative_uncertainty := v |}.
(** The four column CHECKs. *)
Definition check (r : row) : bool :=
  Qgtb (gamma_energy_kev r) 0
  && Qgeb (detected_counts r) 0
  && Qgeb (count_uncertainty r) 0
  && check_nullable (fun x => Qgeb x 0) (relative_uncertainty r).
(** PRIMARY KEY (id) and
    UNIQUE(analysis_id, parent_isotope, daughter_isotope, gamma_energy_kev) *)
Definition conflicts (a b : row) : bool :=
  N.eqb (id a) (id b)
  || (N.eqb (analysis_id a) (analysis_id b)
      && String.eqb (parent_isotope a) (parent_isotope b)
      && String.eqb (daughter_isotope a) (daughter_isotope b)
      && Qeq_bool (gamma_energy_kev a) (gamma_energy_kev b)).
End IsotopeDetection.

Module MassEstimate.
Record row := {
  id : uuid;
  analysis_id : uuid;
  parent_isotope : text;
  estimated_mass_g : real;
  mass_uncertainty_g : real;
  relative_mass_uncertainty : option real
}.
Definition with_relative_mass_uncertainty (v : option real) (r : row) : row :=
  {| id := id r; analysis_id := analysis_id r;
     parent_isotope := parent_isotope r;
     estimated_mass_g := estimated_mass_g r;
     mass_uncertainty_g := mass_uncertainty_g r;
     relative_mass_uncertainty := v |}.
Definition check (r : row) : bool :=
  Qgeb (estimated_mass_g r) 0
  && Qgeb (mass_uncertainty_g r) 0
  && check_nullable (fun x => Qgeb x 0) (relative_mass_uncertainty r).
(** PRIMARY KEY (id) and UNIQUE(analysis_id, parent_isotope) *)
Definition same_estimate (a b : row) : bool :=
  N.eqb (analysis_id a) (analysis_id b)
  && String.eqb (parent_isotope a) (parent_isotope b).
Definition conflicts (a b : row) : bool :=
  N.eqb (id a) (id b) || same_estimate a b.
End MassEstimate.

Module AnalysisSummary.
Record row := {
  id : uuid;
  analysis_id : uuid;
  total_estimated_mass_g : real;
  total_detections : Z;
  unique_parent_isotopes : Z;
  dominant_isotope : option text;
  mass_distribution : option text
}.
Definition check (r : row) : bool :=
  Qgeb (total_estimated_mass_g r) 0
  && (0 <=? total_detections r)%Z
  && (0 <=? unique_parent_isotopes r)%Z.
(** PRIMARY KEY (id) and UNIQUE(analysis_id) *)
Definition conflicts (a b : row) : bool :=
  N.eqb (id a) (id b) || N.eqb (analysis_id a) (analysis_id b).
End AnalysisSummary.

(** Rows of the views and of [get_analysis_plots]. *)

Module MassComparison.
Record row := {
  sample_filename : text;
  analysis_timestamp : option timestamptz;
  parent_isotope : text;
  estimated_mass_g : real;
  relative_mass_uncertainty : option real;
  mass_rank : nat
}.
End MassComparison.

Module PlotCatalog.
Record row := {
  sample_filename : text;
  analysis_timestamp : option timestamptz;
  plot_type : plot_type_t;
  plot_title : text;
  plot_metadata : option PlotMetadata;
  parent_isotope : option text;
  gamma_energy_kev : option real;
  image_size_bytes : nat
}.
End PlotCatalog.

Module PlotData.
Record row := {
  plot_type : plot_type_t;
  plot_title : text;
  plot_data_base64 : text;
  plot_metadata : option PlotMetadata
}.
End PlotData.

Module Schema.

(** ** Row triggers *)

(** [validate_isotope_detection]: BEFORE INSERT OR UPDATE, FOR EACH ROW. *)
Definition validate_isotope_detection (NEW : IsotopeDetection.row)
  : IsotopeDetection.row :=
  if Qgtb (IsotopeDetection.detected_counts NEW) 0 then
    IsotopeDetection.with_relative_uncertainty
      (Some (IsotopeDetection.count_uncertainty NEW
             / IsotopeDetection.detected_counts NEW)) NEW
  else
    IsotopeDetection.with_relative_uncertainty None NEW.

(** [validate_mass_estimate]: BEFORE INSERT OR UPDATE, FOR EACH ROW. *)
Definition validate_mass_estimate (NEW : MassEstimate.row)
  : MassEstimate.row :=
  if Qgtb (MassEstimate.estimated_mass_g NEW) 0 then
    MassEstimate.with_relative_mass_uncertainty
      (Some (MassEstimate.mass_uncertainty_g NEW
             / MassEstimate.estimated_mass_g NEW)) NEW
  else
    MassEstimate.with_relative_mass_uncertainty None NEW.

(** [analysis_plots] and [analysis_summary] have no row trigger; the one of
    [analysis_sessions] only stamps [updated_at]. *)
Definition no_trigger {row : Type} (NEW : row) : row := NEW.

(** ** The store *)

Record db := {
  analysis_sessions : list AnalysisSession.row;
  analysis_plots : list AnalysisPlot.row;
  isotope_detections : list IsotopeDetection.row;
  mass_estimates : list MassEstimate.row;
  analysis_summary : list AnalysisSummary.row
}.

Definition empty : db :=
  {| analysis_sessions := []; analysis_plots := []; isotope_detections := [];
     mass_estimates := []; analysis_summary := [] |}.

Definition session_ids (ss : list AnalysisSession.row) : list uuid :=
  map AnalysisSession.id ss.

(** REFERENCES analysis_sessions(id) *)
Definition has_session (ss : list AnalysisSession.row) (aid : uuid) : bool :=
  existsb (N.eqb aid) (session_ids ss).

(** No child row is left without its session. *)
Definition children_have_session (ss : list AnalysisSession.row) (d : db)
  : bool :=
  forallb (fun r => has_session ss (AnalysisPlot.analysis_id r))
          (analysis_plots d)
  && forallb (fun r => has_session ss (IsotopeDetection.analysis_id r))
             (isotope_detections d)
  && forallb (fun r => has_session ss (MassEstimate.analysis_id r))
             (mass_estimates d)
  && forallb (fun r => has_session ss (AnalysisSummary.analysis_id r))
             (analysis_summary d).

Definition with_sessions (ss : list AnalysisSession.row) (d : db) : db :=
  {| analysis_sessions := ss; analysis_plots := analysis_plots d;
     isotope_detections := isotope_detections d;
     mass_estimates := mass_estimates d;
     analysis_summary := analysis_summary d |}.

Definition with_plots (t : list AnalysisPlot.row) (d : db) : db :=
  {| analysis_sessions := analysis_sessions d; analysis_plots := t;
     isotope_detections := isotope_detections d;
     mass_estimates := mass_estimates d;
     analysis_summary := analysis_summary d |}.

Definition with_detections (t : list IsotopeDetection.row) (d : db) : db :=
  {| analysis_sessions := analysis_sessions d;
     analysis_plots := analysis_plots d; isotope_detections := t;
     mass_estimates := mass_estimates d;
     analysis_summary := analysis_summary d |}.

Definition with_mass_estimates (t : list MassEstimate.row) (d : db) : db :=
  {| analysis_sessions := analysis_sessions d;
     analysis_plots := analysis_plots d;
     isotope_detections := isotope_detections d; mass_estimates := t;
     analysis_summary := analysis_summary d |}.

Definition with_summary (t : list AnalysisSummary.row) (d : db) : db :=
  {| analysis_sessions := analysis_sessions d;
     analysis_plots := analysis_plots d;
     isotope_detections := isotope_detections d;
     mass_estimates := mass_estimates d; analysis_summary := t |}.

(** ** Statements

    INSERT of one row, UPDATE ... WHERE and DELETE ... WHERE on each of the
    five tables.  An UPDATE is given by the predicate of its WHERE clause
    and the function its SET clause applies to a row. *)

Inductive statement :=
| insert_analysis_sessions (r : AnalysisSession.row)
| update_analysis_sessions (p : AnalysisSession.row -> bool)
    (set : AnalysisSession.row -> AnalysisSession.row)
| delete_analysis_sessions (p : AnalysisSession.row -> bool)
| insert_analysis_plots (r : AnalysisPlot.row)
| update_analysis_plots (p : AnalysisPlot.row -> bool)
    (set : AnalysisPlot.row -> AnalysisPlot.row)
| delete_analysis_plots (p : AnalysisPlot.row -> bool)
| insert_isotope_detections (r : IsotopeDetection.row)
| update_isotope_detections (p : IsotopeDetection.row -> bool)
    (set : IsotopeDetection.row -> IsotopeDetection.row)
| delete_isotope_detections (p : IsotopeDetection.row -> bool)
| insert_mass_estimates (r : MassEstimate.row)
| update_mass_estimates (p : MassEstimate.row -> bool)
    (set : MassEstimate.row -> MassEstimate.row)
| delete_mass_estimates (p : MassEstimate.row -> bool)
| insert_analysis_summary (r : AnalysisSummary.row)
| update_analysis_summary (p : AnalysisSummary.row -> bool)
    (set : AnalysisSummary.row -> AnalysisSummary.row)
| delete_analysis_summary (p : AnalysisSummary.row -> bool).

(** The write path of each table: its trigger, CHECKs, unique indexes and
    foreign key. *)
Definition sessions_insert :=
  insert_row no_trigger AnalysisSession.check AnalysisSession.conflicts
             (fun _ => true).
Definition sessions_update :=
  update_where no_trigger AnalysisSession.check AnalysisSession.conflicts
               (fun _ => true).

Definition plots_insert (d : db) :=
  insert_row no_trigger AnalysisPlot.check AnalysisPlot.conflicts
    (fun r => has_session (analysis_sessions d) (AnalysisPlot.analysis_id r)).
Definition plots_update (d : db) :=
  update_where no_trigger AnalysisPlot.check AnalysisPlot.conflicts
    (fun r => has_session (analysis_sessions d) (AnalysisPlot.analysis_id r)).

Definition detections_insert (d : db) :=
  insert_row validate_isotope_detection IsotopeDetection.check
    IsotopeDetection.conflicts
    (fun r => has_session (analysis_sessions d)
                          (IsotopeDetection.analysis_id r)).
Definition detections_update (d : db) :=
  update_where validate_isotope_detection IsotopeDetection.check
    IsotopeDetection.conflicts
    (fun r => has_session (analysis_sessions d)
                          (IsotopeDetection.analysis_id r)).

Definition mass_estimates_insert (d : db) :=
  insert_row validate_mass_estimate MassEstimate.check MassEstimate.conflicts
    (fun r => has_session (analysis_sessions d) (MassEstimate.analysis_id r)).
Definition mass_estimates_update (d : db) :=
  update_where validate_mass_estimate MassEstimate.check
    MassEstimate.conflicts
    (fun r => has_session (analysis_sessions d) (MassEstimate.analysis_id r)).

Definition summary_insert (d : db) :=
  insert_row no_trigger AnalysisSummary.check AnalysisSummary.conflicts
    (fun r => has_session (analysis_sessions d)
                          (AnalysisSummary.analysis_id r)).
Definition summary_update (d : db) :=
  update_where no_trigger AnalysisSummary.check AnalysisSummary.conflicts
    (fun r => has_session (analysis_sessions d)
                          (AnalysisSummary.analysis_id r)).

(** DELETE FROM analysis_sessions WHERE p, with ON DELETE CASCADE on the
    four child tables. *)
Definition cascade_delete (p : AnalysisSession.row -> bool) (d : db) : db :=
  let gone := session_ids (filter p (analysis_sessions d)) in
  let owned (aid : uuid) := existsb (N.eqb aid) gone in
  {| analysis_sessions := delete_where p (analysis_sessions d);
     analysis_plots :=
       delete_where (fun r => owned (AnalysisPlot.analysis_id r))
                    (analysis_plots d);
     isotope_detections :=
       delete_where (fun r => owned (IsotopeDetection.analysis_id r))
                    (isotope_detections d);
     mass_estimates :=
       delete_where (fun r => owned (MassEstimate.analysis_id r))
                    (mass_estimates d);
     analysis_summary :=
       delete_where (fun r => owned (AnalysisSummary.analysis_id r))
                    (analysis_summary d) |}.

Definition exec (d : db) (st : statement) : result db :=
  match st with
  | insert_analysis_sessions r =>
      t <- sessions_insert (analysis_sessions d) r ;;
      Ok (with_sessions t d)
  | update_analysis_sessions p set =>
      t <- sessions_update p set (analysis_sessions d) ;;
      (* the foreign keys are ON UPDATE NO ACTION *)
      _ <- guard (children_have_session t d) foreign_key_violation ;;
      Ok (with_sessions t d)
  | delete_analysis_sessions p => Ok (cascade_delete p d)
  | insert_analysis_plots r =>
      t <- plots_insert d (analysis_plots d) r ;; Ok (with_plots t d)
  | update_analysis_plots p set =>
      t <- plots_update d p set (analysis_plots d) ;; Ok (with_plots t d)
  | delete_analysis_plots p =>
      Ok (with_plots (delete_where p (analysis_plots d)) d)
  | insert_isotope_detections r =>
      t <- detections_insert d (isotope_detections d) r ;;
      Ok (with_detections t d)
  | update_isotope_detections p set =>
      t <- detections_update d p set (isotope_detections d) ;;
      Ok (with_detections t d)
  | delete_isotope_detections p =>
      Ok (with_detections (delete_where p (isotope_detections d)) d)
  | insert_mass_estimates r =>
      t <- mass_estimates_insert d (mass_estimates d) r ;;
      Ok (with_mass_estimates t d)
  | update_mass_estimates p set =>
      t <- mass_estimates_update d p set (mass_estimates d) ;;
      Ok (with_mass_estimates t d)
  | delete_mass_estimates p =>
      Ok (with_mass_estimates (delete_where p (mass_estimates d)) d)
  | insert_analysis_summary r =>
      t <- summary_insert d (analysis_summary d) r ;; Ok (with_summary t d)
  | update_analysis_summary p set =>
      t <- summary_update d p set (analysis_summary d) ;;
      Ok (with_summary t d)
  | delete_analysis_summary p =>
      Ok (with_summary (delete_where p (analysis_summary d)) d)
  end.

(** A statement that raises an error leaves the store as it was. *)
Definition run (d : db) (st : statement) : db * option sql_error :=
  match exec d st with
  | Ok d' => (d', None)
  | Err e => (d, Some e)
  end.

Definition run_all (d : db) (sts : list statement) : db :=
  fold_left (fun d st => fst (run d st)) sts d.

(** The states of the store that statements can produce. *)
Inductive reachable : db -> Prop :=
| reachable_empty : reachable empty
| reachable_run d st : reachable d -> reachable (fst (run d st)).

(** ** Views *)

Definition owns_mass_estimate (s : AnalysisSession.row) (m : MassEstimate.row)
  : bool :=
  N.eqb (AnalysisSession.id s) (MassEstimate.analysis_id m).

Definition owns_plot (s : AnalysisSession.row) (p : AnalysisPlot.row) : bool :=
  N.eqb (AnalysisSession.id s) (AnalysisPlot.analysis_id p).

(** FROM analysis_sessions s JOIN mass_estimates m ON s.id = m.analysis_id *)
Definition sessions_join_mass_estimates (d : db)
  : list (AnalysisSession.row * MassEstimate.row) :=
  join owns_mass_estimate (analysis_sessions d) (mass_estimates d).

Definition mass_comparison_row
  (x : AnalysisSession.row * MassEstimate.row * nat) : MassComparison.row :=
  let '(s, m, rank) := x in
  {| MassComparison.sample_filename := AnalysisSession.sample_filename s;
     MassComparison.analysis_timestamp := AnalysisSession.analysis_timestamp s;
     MassComparison.parent_isotope := MassEstimate.parent_isotope m;
     MassComparison.estimated_mass_g := MassEstimate.estimated_mass_g m;
     MassComparison.relative_mass_uncertainty :=
       MassEstimate.relative_mass_uncertainty m;
     MassComparison.mass_rank := rank |}.

(** ORDER BY m.parent_isotope, m.estimated_mass_g DESC *)
Definition mass_comparison_order (a b : MassComparison.row) : comparison :=
  lex (String.compare (MassComparison.parent_isotope a)
                      (MassComparison.parent_isotope b))
      (desc Qcompare (MassComparison.estimated_mass_g a)
                     (MassComparison.estimated_mass_g b)).

(** View [mass_comparison], with
    RANK() OVER (PARTITION BY m.parent_isotope
                 ORDER BY m.estimated_mass_g DESC). *)
Definition mass_comparison (d : db) : list MassComparison.row :=
  order_by (fun a b => no_later (mass_comparison_order a b))
    (map mass_comparison_row
       (RANK (fun x => MassEstimate.parent_isotope (snd x))
             (fun x => MassEstimate.estimated_mass_g (snd x))
             (sessions_join_mass_estimates d))).

(** SELECT * FROM mass_comparison WHERE parent_isotope = isotope *)
Definition mass_ranking (d : db) (isotope : text) : list MassComparison.row :=
  filter (fun r => String.eqb (MassComparison.parent_isotope r) isotope)
         (mass_comparison d).

(** FROM analysis_sessions s JOIN analysis_plots p ON s.id = p.analysis_id *)
Definition sessions_join_plots (d : db)
  : list (AnalysisSession.row * AnalysisPlot.row) :=
  join owns_plot (analysis_sessions d) (analysis_plots d).


Definition metadata_gamma_energy_kev (m : option PlotMetadata) : option real :=
  match m with
  | Some m => pm_gamma_energy_kev m
  | None => None
  end.




(** The CASE of [get_analysis_plots]'s ORDER BY. *)
Definition plot_type_rank (t : plot_type_t) : Z :=
  match t with
  | spectrum_overview => 1
  | mass_distribution => 2
  | uncertainty_analysis => 3
  | roi_plot => 4
  end.

Definition get_analysis_plots_order (a b : AnalysisPlot.row) : comparison :=
  lex (Z.compare (plot_type_rank (AnalysisPlot.plot_type a))
                 (plot_type_rank (AnalysisPlot.plot_type b)))
      (nulls_last Qcompare
         (metadata_gamma_energy_kev (AnalysisPlot.plot_metadata a))
         (metadata_gamma_energy_kev (AnalysisPlot.plot_metadata b))).

Definition plot_data_row (p : AnalysisPlot.row) : PlotData.row :=
  {| PlotData.plot_type := AnalysisPlot.plot_type p;
     PlotData.plot_title := AnalysisPlot.plot_title p;
     PlotData.plot_data_base64 := AnalysisPlot.plot_data_base64 p;
     PlotData.plot_metadata := AnalysisPlot.plot_metadata p |}.

(** Function [get_analysis_plots(analysis_session_id)]. *)
Definition get_analysis_plots (d : db) (analysis_session_id : uuid)
  : list PlotData.row :=
  map plot_data_row
    (order_by (fun a b => no_later (get_analysis_plots_order a b))
       (filter (fun p => N.eqb (AnalysisPlot.analysis_id p)
                               analysis_session_id)
               (analysis_plots d))).

(** ** Quantities the properties speak of *)

Definition Qsum (l : list Q) : Q := fold_right Qplus 0 l.

(** The mass estimates and the summary rows a session owns. *)
Definition session_mass_estimates (d : db) (s : uuid) : list MassEstimate.row :=
  filter (fun m => N.eqb (MassEstimate.analysis_id m) s) (mass_estimates d).

Definition session_summary (d : db) (s : uuid) : list AnalysisSummary.row :=
  filter (fun r => N.eqb (AnalysisSummary.analysis_id r) s)
         (analysis_summary d).

(** The sum of the estimated masses of a session's mass estimates. *)
Definition session_mass_sum (d : db) (s : uuid) : Q :=
  Qsum (map MassEstimate.estimated_mass_g (session_mass_estimates d s)).

(** The relative uncertainty that belongs to an uncertainty [U] and a
    magnitude [M]. *)
Definition derived (U M : real) : option real :=
  if Qgtb M 0 then Some (U / M) else None.

Definition detection_derived (r : IsotopeDetection.row) : Prop :=
  IsotopeDetection.relative_uncertainty r
  = derived (IsotopeDetection.count_uncertainty r)
            (IsotopeDetection.detected_counts r).

Definition mass_estimate_derived (r : MassEstimate.row) : Prop :=
  MassEstimate.relative_mass_uncertainty r
  = derived (MassEstimate.mass_uncertainty_g r)
            (MassEstimate.estimated_mass_g r).

(** Two rows agree on every column but the relative uncertainty. *)
Definition same_detection_source (a b : IsotopeDetection.row) : Prop :=
  IsotopeDetection.id a = IsotopeDetection.id b
  /\ IsotopeDetection.analysis_id a = IsotopeDetection.analysis_id b
  /\ IsotopeDetection.parent_isotope a = IsotopeDetection.parent_isotope b
  /\ IsotopeDetection.daughter_isotope a = IsotopeDetection.daughter_isotope b
  /\ IsotopeDetection.gamma_energy_kev a = IsotopeDetection.gamma_energy_kev b
  /\ IsotopeDetection.detected_counts a = IsotopeDetection.detected_counts b
  /\ IsotopeDetection.count_uncertainty a = IsotopeDetection.count_uncertainty b.

Definition same_mass_source (a b : MassEstimate.row) : Prop :=
  MassEstimate.id a = MassEstimate.id b
  /\ MassEstimate.analysis_id a = MassEstimate.analysis_id b
  /\ MassEstimate.parent_isotope a = MassEstimate.parent_isotope b
  /\ MassEstimate.estimated_mass_g a = MassEstimate.estimated_mass_g b
  /\ MassEstimate.mass_uncertainty_g a = MassEstimate.mass_uncertainty_g b.

(** The relative uncertainty [rel] is the one the contract asks for:
    [U / M] for a positive magnitude, NULL (and so never 0) for a zero
    magnitude. *)
Definition relative_as_specified (U M : real) (rel : option real) : Prop :=
  (0 < M -> rel = Some (U / M))
  /\ (M == 0 -> rel = None /\ rel <> Some 0).

Definition detection_as_specified (r : IsotopeDetection.row) : Prop :=
  relative_as_specified (IsotopeDetection.count_uncertainty r)
                        (IsotopeDetection.detected_counts r)
                        (IsotopeDetection.relative_uncertainty r).

Definition mass_estimate_as_specified (r : MassEstimate.row) : Prop :=
  relative_as_specified (MassEstimate.mass_uncertainty_g r)
                        (MassEstimate.estimated_mass_g r)
                        (MassEstimate.relative_mass_uncertainty r).

(** Every summary row carries the sum of the estimated masses of its
    session's mass estimates (0 when the session has none). *)
Definition summary_totals_agree (d : db) : Prop :=
  forall r, In r (analysis_summary d) ->
    AnalysisSummary.total_estimated_mass_g r
    == session_mass_sum d (AnalysisSummary.analysis_id r).


(** What the schema promises of a store: keys are unique, CHECKs hold,
    every child row has its session, and the relative uncertainties are
    the derived ones. *)
Record well_formed (d : db) : Prop := {
  sessions_unique : unique_rows AnalysisSession.conflicts (analysis_sessions d);
  plots_unique : unique_rows AnalysisPlot.conflicts (analysis_plots d);
  detections_unique :
    unique_rows IsotopeDetection.conflicts (isotope_detections d);
  mass_estimates_unique :
    unique_rows MassEstimate.conflicts (mass_estimates d);
  summary_unique : unique_rows AnalysisSummary.conflicts (analysis_summary d);
  sessions_checked :
    Forall (fun r => AnalysisSession.check r = true) (analysis_sessions d);
  detections_checked :
    Forall (fun r => IsotopeDetection.check r = true) (isotope_detections d);
  mass_estimates_checked :
    Forall (fun r => MassEstimate.check r = true) (mass_estimates d);
  summary_checked :
    Forall (fun r => AnalysisSummary.check r = true) (analysis_summary d);
  plots_owned :
    Forall (fun r => has_session (analysis_sessions d)
                                 (AnalysisPlot.analysis_id r) = true)
           (analysis_plots d);
  detections_owned :
    Forall (fun r => has_session (analysis_sessions d)
                                 (IsotopeDetection.analysis_id r) = true)
           (isotope_detections d);
  mass_estimates_owned :
    Forall (fun r => has_session (analysis_sessions d)
                                 (MassEstimate.analysis_id r) = true)
           (mass_estimates d);
  summary_owned :
    Forall (fun r => has_session (analysis_sessions d)
                                 (AnalysisSummary.analysis_id r) = true)
           (analysis_summary d);
  detections_derived : Forall detection_derived (isotope_detections d);
  mass_estimates_derived : Forall mass_estimate_derived (mass_estimates d)
}.

End Schema.

(** ** The single-table store of [src/unnamed/part_002] *)

Module Analysis.
(** A row of [isotope_analyses] ([Analysis] in the dashboard).  The JSONB
    columns, [plot_image], [created_at] and [updated_at] play no part in
    the views and are left out. *)
Record row := {
  id : Z;
  analysis_id : uuid;
  timestamp : timestamptz;
  sample_name : text;
  total_peaks_found : Z;
  background_peaks : Z;
  isotope_families_detected : list text;
  status : text
}.
End Analysis.

Module DailySummary.
Record row := {
  analysis_date : option timestamptz;
  total_analyses : Z;
  avg_peaks : Q;
  avg_background_peaks : Q;
  unique_samples : Z;
  all_isotopes_detected : list (option text)
}.
End DailySummary.

Module IsotopeFrequency.
Record row := {
  isotope : text;
  detection_count : Z;
  unique_samples : Z;
  detection_percentage : Q
}.
End IsotopeFrequency.

Module Platform.

Definition isotope_analyses := list Analysis.row.

(** WHERE status = 'completed' *)
Definition completed (a : Analysis.row) : bool :=
  String.eqb (Analysis.status a) "completed".

Definition usec_per_day : Z := 86400000000.

(** DATE_TRUNC('day', timestamp), in UTC. *)
Definition date_trunc_day (ts : timestamptz) : timestamptz :=
  (ts / usec_per_day * usec_per_day)%Z.

Definition COUNT {A} (l : list A) : Z := Z.of_nat (List.length l).

Definition Zsum (l : list Z) : Z := fold_right Z.add 0%Z l.

(** AVG over an integer column. *)
Definition AVG (l : list Z) : Q := inject_Z (Zsum l) / inject_Z (COUNT l).

Definition option_eqb {A} (eqb : A -> A -> bool) (a b : option A) : bool :=
  match a, b with
  | Some x, Some y => eqb x y
  | None, None => true
  | _, _ => false
  end.

(** COUNT(DISTINCT c) over a text column. *)
Definition COUNT_DISTINCT (l : list text) : Z := COUNT (distinct String.eqb l).

(** ARRAY_AGG(DISTINCT c) over a nullable text column. *)
Definition ARRAY_AGG_DISTINCT (l : list (option text)) : list (option text) :=
  order_by (fun a b => no_later (nulls_last String.compare a b))
           (distinct (option_eqb String.eqb) l).

(** LEFT JOIN LATERAL unnest(ia.isotope_families_detected) AS iso(isotope)
    ON true: one row per array element, and one row with a NULL isotope
    for an empty array. *)
Definition left_join_unnest (ia : list Analysis.row)
  : list (Analysis.row * option text) :=
  flat_map (fun a =>
              match Analysis.isotope_families_detected a with
              | [] => [(a, None)]
              | isos => map (fun i => (a, Some i)) isos
              end) ia.

(** SELECT DATE_TRUNC('day', timestamp) AS analysis_date, id
    FROM isotope_analyses *)
Definition ia_day (t : isotope_analyses) : list (timestamptz * Z) :=
  map (fun a => (date_trunc_day (Analysis.timestamp a), Analysis.id a)) t.

(** The rows of [analysis_summary] before grouping. *)
Definition analysis_summary_rows (t : isotope_analyses)
  : list (Analysis.row * option text * option (timestamptz * Z)) :=
  left_join (fun x day => Z.eqb (snd day) (Analysis.id (fst x)))
            (left_join_unnest (filter completed t)) (ia_day t).

Definition row_analysis_date
  (x : Analysis.row * option text * option (timestamptz * Z))
  : option timestamptz :=
  option_map fst (snd x).

Definition daily_summary_row
  (g : option timestamptz
       * list (Analysis.row * option text * option (timestamptz * Z)))
  : DailySummary.row :=
  let ia := map (fun x => fst (fst x)) (snd g) in
  {| DailySummary.analysis_date := fst g;
     DailySummary.total_analyses := COUNT (snd g);
     DailySummary.avg_peaks := AVG (map Analysis.total_peaks_found ia);
     DailySummary.avg_background_peaks :=
       AVG (map Analysis.background_peaks ia);
     DailySummary.unique_samples :=
       COUNT_DISTINCT (map Analysis.sample_name ia);
     DailySummary.all_isotopes_detected :=
       ARRAY_AGG_DISTINCT (map (fun x => snd (fst x)) (snd g)) |}.

(** View [analysis_summary]:
    GROUP BY ia_day.analysis_date ORDER BY ia_day.analysis_date DESC. *)
Definition analysis_summary (t : isotope_analyses) : list DailySummary.row :=
  order_by
    (fun a b => no_later (nulls_first (desc Z.compare)
                            (DailySummary.analysis_date a)
                            (DailySummary.analysis_date b)))
    (map daily_summary_row
       (group_by row_analysis_date (option_eqb Z.eqb)
                 (analysis_summary_rows t))).

(** Division of numerics raises an error on a zero divisor.  The quotient
    is exact here; PostgreSQL keeps at least 16 significant digits of it. *)
Definition numeric_div (x y : Q) : result Q :=
  if Qeq_bool y 0 then Err division_by_zero else Ok (x / y).

(** ROUND(x, 2): to two decimals, ties away from zero. *)
Definition ROUND2 (x : Q) : Q :=
  let m := x * 100 in
  let n := if Qle_bool 0 m then Qfloor (m + (1 # 2))
           else (- Qfloor (- m + (1 # 2)))%Z in
  inject_Z n / 100.

Fixpoint map_result {A B} (f : A -> result B) (l : list A) : result (list B) :=
  match l with
  | [] => Ok []
  | a :: l' =>
      b <- f a ;;
      bs <- map_result f l' ;;
      Ok (b :: bs)
  end.

(** FROM isotope_analyses, LATERAL unnest(isotope_families_detected)
    WHERE status = 'completed' *)
Definition isotope_frequency_rows (t : isotope_analyses)
  : list (Analysis.row * text) :=
  filter (fun x => completed (fst x))
         (flat_map (fun a => map (pair a) (Analysis.isotope_families_detected a))
                   t).

(** SELECT COUNT( * ) FROM isotope_analyses WHERE status = 'completed' *)
Definition completed_count (t : isotope_analyses) : Z :=
  COUNT (filter completed t).

Definition isotope_frequency_row (t : isotope_analyses)
  (g : text * list (Analysis.row * text)) : result IsotopeFrequency.row :=
  ratio <- numeric_div (inject_Z (COUNT (snd g)))
                       (inject_Z (completed_count t)) ;;
  Ok {| IsotopeFrequency.isotope := fst g;
        IsotopeFrequency.detection_count := COUNT (snd g);
        IsotopeFrequency.unique_samples :=
          COUNT_DISTINCT (map (fun x => Analysis.sample_name (fst x)) (snd g));
        IsotopeFrequency.detection_percentage := ROUND2 (ratio * 100) |}.

(** View [isotope_frequency]:
    GROUP BY isotope ORDER BY detection_count DESC. *)
Definition isotope_frequency (t : isotope_analyses)
  : result (list IsotopeFrequency.row) :=
  rows <- map_result (isotope_frequency_row t)
            (group_by snd String.eqb (isotope_frequency_rows t)) ;;
  Ok (order_by
        (fun a b => no_later (desc Z.compare
                                (IsotopeFrequency.detection_count a)
                                (IsotopeFrequency.detection_count b)))
        rows).

(** The completed analyses whose array lists [iso]. *)
Definition completed_with (t : isotope_analyses) (iso : text)
  : list Analysis.row :=
  filter (fun a => existsb (String.eqb iso)
                           (Analysis.isotope_families_detected a))
         (filter completed t).

(** How often the arrays of the completed analyses list [iso]. *)
Definition occurrences (t : isotope_analyses) (iso : text) : Z :=
  Zsum (map (fun a => COUNT (filter (String.eqb iso)
                                    (Analysis.isotope_families_detected a)))
            (filter completed t)).

(** Every row of the frequency view counts the completed analyses in which
    its isotope was detected. *)
Definition frequency_counts_sessions (t : isotope_analyses) : Prop :=
  forall rows r,
    isotope_frequency t = Ok rows -> In r rows ->
    IsotopeFrequency.detection_count r
    = COUNT (completed_with t (IsotopeFrequency.isotope r)).

End Platform.

(** ** Sample data *)

Module Examples.
Import Schema.
Local Open Scope string_scope.

Definition session (i : uuid) (ts : timestamptz) : AnalysisSession.row :=
  {| AnalysisSession.id := i;
     AnalysisSession.sample_filename := "sample.spe";
     AnalysisSession.background_filename := "background.spe";
     AnalysisSession.confidence_threshold := 95 # 100;
     AnalysisSession.analysis_timestamp := Some ts;
     AnalysisSession.metadata := None |}.

Definition detection (i a : uuid) (counts uncertainty : real)
  (relative : option real) : IsotopeDetection.row :=
  {| IsotopeDetection.id := i; IsotopeDetection.analysis_id := a;
     IsotopeDetection.parent_isotope := "Cs-137";
     IsotopeDetection.daughter_isotope := "Ba-137m";
     IsotopeDetection.gamma_energy_kev := 6617 # 10;
     IsotopeDetection.detected_counts := counts;
     IsotopeDetection.count_uncertainty := uncertainty;
     IsotopeDetection.relative_uncertainty := relative |}.

Definition estimate (i a : uuid) (isotope : text) (mass uncertainty : real)
  (relative : option real) : MassEstimate.row :=
  {| MassEstimate.id := i; MassEstimate.analysis_id := a;
     MassEstimate.parent_isotope := isotope;
     MassEstimate.estimated_mass_g := mass;
     MassEstimate.mass_uncertainty_g := uncertainty;
     MassEstimate.relative_mass_uncertainty := relative |}.

Definition summary (i a : uuid) (total : real) : AnalysisSummary.row :=
  {| AnalysisSummary.id := i; AnalysisSummary.analysis_id := a;
     AnalysisSummary.total_estimated_mass_g := total;
     AnalysisSummary.total_detections := 0;
     AnalysisSummary.unique_parent_isotopes := 0;
     AnalysisSummary.dominant_isotope := None;
     AnalysisSummary.mass_distribution := None |}.

Definition plot (i a : uuid) (ty : plot_type_t) (m : option PlotMetadata)
  : AnalysisPlot.row :=
  {| AnalysisPlot.id := i; AnalysisPlot.analysis_id := a;
     AnalysisPlot.plot_type := ty; AnalysisPlot.plot_title := "plot";
     AnalysisPlot.plot_data_base64 := "iVBORw0KGgo=";
     AnalysisPlot.plot_metadata := m |}.

(** A store with one session and nothing else. *)
Definition one_session : db :=
  run_all empty [insert_analysis_sessions (session 1 0)].

(** A detection without counts, written with a relative uncertainty of 7. *)
Definition no_counts : IsotopeDetection.row := detection 1 1 0 3 (Some 7).

(** The store after that detection is inserted. *)
Definition one_detection : db :=
  run_all one_session [insert_isotope_detections no_counts].

(** Three sessions with Cs-137 masses 5, 5 and 3, and one Co-60 mass. *)
Definition three_estimates : db :=
  run_all empty
    [insert_analysis_sessions (session 1 10);
     insert_analysis_sessions (session 2 20);
     insert_analysis_sessions (session 3 30);
     insert_mass_estimates (estimate 1 1 "Cs-137" 5 (1 # 4) None);
     insert_mass_estimates (estimate 2 2 "Cs-137" 3 (1 # 4) None);
     insert_mass_estimates (estimate 3 3 "Cs-137" 5 (1 # 2) None);
     insert_mass_estimates (estimate 4 3 "Co-60" 9 1 None)].

(** A session whose summary claims 5 g while it has no mass estimate. *)
Definition unfounded_summary : db :=
  run_all one_session [insert_analysis_summary (summary 1 1 5)].


Definition analysis (i : Z) (ts : timestamptz) (name : text) (peaks : Z)
  (isotopes : list text) (st : text) : Analysis.row :=
  {| Analysis.id := i; Analysis.analysis_id := Z.to_N i;
     Analysis.timestamp := ts; Analysis.sample_name := name;
     Analysis.total_peaks_found := peaks; Analysis.background_peaks := 2;
     Analysis.isotope_families_detected := isotopes;
     Analysis.status := st |}.

(** Two analyses completed on the same day: one finds three isotopes and
    10 peaks, the other one isotope and 20 peaks. *)
Definition same_day : Platform.isotope_analyses :=
  [analysis 1 3600000000 "soil" 10 ["Cs-137"; "Co-60"; "K-40"] "completed";
   analysis 2 7200000000 "water" 20 ["Cs-137"] "completed"].

(** One completed analysis whose array lists U-238 twice. *)
Definition listed_twice : Platform.isotope_analyses :=
  [analysis 1 3600000000 "ore" 10 ["U-238"; "U-238"] "completed"].

(** No completed analysis at all. *)
Definition none_completed : Platform.isotope_analyses :=
  [analysis 1 3600000000 "ore" 10 ["U-238"] "pending"].

End Examples.

(** ** The read views of [src/schema.md] *)

Module LatestAnalysis.
(** A row of the view [latest_analyses] ([LatestAnalysis] in the
    dashboard).  The columns taken from the summary are NULL for a session
    without one. *)
Record row := {
  id : uuid;
  sample_filename : text;
  analysis_timestamp : option timestamptz;
  confidence_threshold : real;
  total_estimated_mass_g : option real;
  total_detections : option Z;
  unique_parent_isotopes : option Z;
  dominant_isotope : option text;
  total_plots : Z;
  roi_plots_count : Z
}.
End LatestAnalysis.

Module DetectionResult.
(** A row of the view [detection_results]. *)
Record row := {
  sample_filename : text;
  analysis_timestamp : option timestamptz;
  parent_isotope : text;
  daughter_isotope : text;
  gamma_energy_kev : real;
  detected_counts : real;
  count_uncertainty : real;
  relative_uncertainty : option real;
  estimated_mass_g : option real;
  mass_uncertainty_g : option real;
  relative_mass_uncertainty : option real
}.
End DetectionResult.

Module Facade.
Import Schema.

Definition has_summary (s : AnalysisSession.row) (r : AnalysisSummary.row)
  : bool :=
  N.eqb (AnalysisSession.id s) (AnalysisSummary.analysis_id r).

(** FROM analysis_sessions s
    LEFT JOIN analysis_summary sum ON s.id = sum.analysis_id
    LEFT JOIN analysis_plots p ON s.id = p.analysis_id *)
Definition latest_analyses_rows (d : db)
  : list (AnalysisSession.row * option AnalysisSummary.row
          * option AnalysisPlot.row) :=
  left_join (fun x p => owns_plot (fst x) p)
    (left_join has_summary (analysis_sessions d) (Schema.analysis_summary d))
    (analysis_plots d).

(** The columns of the GROUP BY of [latest_analyses]. *)
Definition latest_analyses_key : Type :=
  uuid * text * option timestamptz * real
  * option real * option Z * option Z * option text.

Definition summary_column {A} (f : AnalysisSummary.row -> A)
  (sum : option AnalysisSummary.row) : option A :=
  option_map f sum.

Definition group_key
  (x : AnalysisSession.row * option AnalysisSummary.row
       * option AnalysisPlot.row) : latest_analyses_key :=
  let '(s, sum, _) := x in
  (AnalysisSession.id s, AnalysisSession.sample_filename s,
   AnalysisSession.analysis_timestamp s,
   AnalysisSession.confidence_threshold s,
   summary_column AnalysisSummary.total_estimated_mass_g sum,
   summary_column AnalysisSummary.total_detections sum,
   summary_column AnalysisSummary.unique_parent_isotopes sum,
   match sum with
   | Some r => AnalysisSummary.dominant_isotope r
   | None => None
   end).

(** Two rows fall in one group when they agree on every column of the
    GROUP BY, NULLs counting as equal. *)
Definition group_key_eqb (a b : latest_analyses_key) : bool :=
  let '(i1, f1, t1, c1, m1, n1, u1, o1) := a in
  let '(i2, f2, t2, c2, m2, n2, u2, o2) := b in
  N.eqb i1 i2 && String.eqb f1 f2 && Platform.option_eqb Z.eqb t1 t2
  && Qeq_bool c1 c2 && Platform.option_eqb Qeq_bool m1 m2
  && Platform.option_eqb Z.eqb n1 n2 && Platform.option_eqb Z.eqb u1 u2
  && Platform.option_eqb String.eqb o1 o2.

(** COUNT(p.id) and COUNT(CASE WHEN p.plot_type = 'roi_plot' THEN 1 END):
    the rows of the group with a plot, and those with a region-of-interest
    plot. *)
Definition has_plot {A} (x : A * option AnalysisPlot.row) : bool :=
  match snd x with
  | Some _ => true
  | None => false
  end.

Definition has_roi_plot {A} (x : A * option AnalysisPlot.row) : bool :=
  match snd x with
  | Some p => plot_type_eqb (AnalysisPlot.plot_type p) roi_plot
  | None => false
  end.

Definition latest_analyses_row
  (g : latest_analyses_key
       * list (AnalysisSession.row * option AnalysisSummary.row
               * option AnalysisPlot.row)) : LatestAnalysis.row :=
  let '(i, f, t, c, m, n, u, o) := fst g in
  {| LatestAnalysis.id := i;
     LatestAnalysis.sample_filename := f;
     LatestAnalysis.analysis_timestamp := t;
     LatestAnalysis.confidence_threshold := c;
     LatestAnalysis.total_estimated_mass_g := m;
     LatestAnalysis.total_detections := n;
     LatestAnalysis.unique_parent_isotopes := u;
     LatestAnalysis.dominant_isotope := o;
     LatestAnalysis.total_plots := Platform.COUNT (filter has_plot (snd g));
     LatestAnalysis.roi_plots_count :=
       Platform.COUNT (filter has_roi_plot (snd g)) |}.

(** ORDER BY s.analysis_timestamp DESC *)
Definition latest_analyses_order (a b : LatestAnalysis.row) : comparison :=
  nulls_first (desc Z.compare) (LatestAnalysis.analysis_timestamp a)
                               (LatestAnalysis.analysis_timestamp b).

(** View [latest_analyses]. *)
Definition latest_analyses (d : db) : list LatestAnalysis.row :=
  order_by (fun a b => no_later (latest_analyses_order a b))
    (map latest_analyses_row
       (group_by group_key group_key_eqb (latest_analyses_rows d))).

(** What the view is to show for session [s]: the session's columns, the
    columns of its summary if it has one, the number of its plots and the
    number of its region-of-interest plots. *)
Definition latest_analysis_of (d : db) (s : AnalysisSession.row)
  : LatestAnalysis.row :=
  let sum := find (has_summary s) (Schema.analysis_summary d) in
  let plots := filter (owns_plot s) (analysis_plots d) in
  {| LatestAnalysis.id := AnalysisSession.id s;
     LatestAnalysis.sample_filename := AnalysisSession.sample_filename s;
     LatestAnalysis.analysis_timestamp := AnalysisSession.analysis_timestamp s;
     LatestAnalysis.confidence_threshold :=
       AnalysisSession.confidence_threshold s;
     LatestAnalysis.total_estimated_mass_g :=
       option_map AnalysisSummary.total_estimated_mass_g sum;
     LatestAnalysis.total_detections :=
       option_map AnalysisSummary.total_detections sum;
     LatestAnalysis.unique_parent_isotopes :=
       option_map AnalysisSummary.unique_parent_isotopes sum;
     LatestAnalysis.dominant_isotope :=
       match sum with
       | Some r => AnalysisSummary.dominant_isotope r
       | None => None
       end;
     LatestAnalysis.total_plots := Platform.COUNT plots;
     LatestAnalysis.roi_plots_count :=
       Platform.COUNT
         (filter (fun p => plot_type_eqb (AnalysisPlot.plot_type p) roi_plot)
                 plots) |}.

Definition owns_detection (s : AnalysisSession.row) (r : IsotopeDetection.row)
  : bool :=
  N.eqb (AnalysisSession.id s) (IsotopeDetection.analysis_id r).

(** ON s.id = m.analysis_id AND d.parent_isotope = m.parent_isotope *)
Definition estimate_matches (x : AnalysisSession.row * IsotopeDetection.row)
  (m : MassEstimate.row) : bool :=
  N.eqb (AnalysisSession.id (fst x)) (MassEstimate.analysis_id m)
  && String.eqb (IsotopeDetection.parent_isotope (snd x))
                (MassEstimate.parent_isotope m).

(** FROM analysis_sessions s
    JOIN isotope_detections d ON s.id = d.analysis_id
    LEFT JOIN mass_estimates m ON ... *)
Definition detection_results_rows (d : db)
  : list (AnalysisSession.row * IsotopeDetection.row
          * option MassEstimate.row) :=
  left_join estimate_matches
    (join owns_detection (analysis_sessions d) (isotope_detections d))
    (mass_estimates d).

Definition detection_results_row
  (x : AnalysisSession.row * IsotopeDetection.row * option MassEstimate.row)
  : DetectionResult.row :=
  let '(s, r, m) := x in
  {| DetectionResult.sample_filename := AnalysisSession.sample_filename s;
     DetectionResult.analysis_timestamp :=
       AnalysisSession.analysis_timestamp s;
     DetectionResult.parent_isotope := IsotopeDetection.parent_isotope r;
     DetectionResult.daughter_isotope := IsotopeDetection.daughter_isotope r;
     DetectionResult.gamma_energy_kev := IsotopeDetection.gamma_energy_kev r;
     DetectionResult.detected_counts := IsotopeDetection.detected_counts r;
     DetectionResult.count_uncertainty := IsotopeDetection.count_uncertainty r;
     DetectionResult.relative_uncertainty :=
       IsotopeDetection.relative_uncertainty r;
     DetectionResult.estimated_mass_g :=
       option_map MassEstimate.estimated_mass_g m;
     DetectionResult.mass_uncertainty_g :=
       option_map MassEstimate.mass_uncertainty_g m;
     DetectionResult.relative_mass_uncertainty :=
       match m with
       | Some e => MassEstimate.relative_mass_uncertainty e
       | None => None
       end |}.

(** ORDER BY s.analysis_timestamp DESC, d.parent_isotope, d.gamma_energy_kev *)
Definition detection_results_order (a b : DetectionResult.row) : comparison :=
  lex (nulls_first (desc Z.compare) (DetectionResult.analysis_timestamp a)
                                    (DetectionResult.analysis_timestamp b))
 (lex (String.compare (DetectionResult.parent_isotope a)
                      (DetectionResult.parent_isotope b))
      (Qcompare (DetectionResult.gamma_energy_kev a)
                (DetectionResult.gamma_energy_kev b))).

(** View [detection_results]. *)
Definition detection_results (d : db) : list DetectionResult.row :=
  order_by (fun a b => no_later (detection_results_order a b))
           (map detection_results_row (detection_results_rows d)).

End Facade.

Module Samples.
Import Schema.
Local Open Scope string_scope.

(** Two sessions: the first with a summary, a region-of-interest plot and
    an overview plot, a Cs-137 detection with a mass estimate and a Co-60
    detection without one; the second with nothing. *)
Definition dashboard : db :=
  run_all empty
    [insert_analysis_sessions (Examples.session 1 10);
     insert_analysis_sessions (Examples.session 2 20);
     insert_analysis_summary (Examples.summary 1 1 5);
     insert_analysis_plots
       (Examples.plot 1 1 roi_plot
          (Some {| pm_parent_isotope := Some "Cs-137";
                   pm_gamma_energy_kev := Some (6617 # 10) |}));
     insert_analysis_plots (Examples.plot 2 1 spectrum_overview None);
     insert_isotope_detections (Examples.detection 1 1 100 10 None);
     insert_isotope_detections
       {| IsotopeDetection.id := 2; IsotopeDetection.analysis_id := 1;
          IsotopeDetection.parent_isotope := "Co-60";
          IsotopeDetection.daughter_isotope := "Ni-60";
          IsotopeDetection.gamma_energy_kev := 11732 # 10;
          IsotopeDetection.detected_counts := 40;
          IsotopeDetection.count_uncertainty := 6;
          IsotopeDetection.relative_uncertainty := None |};
     insert_mass_estimates (Examples.estimate 1 1 "Cs-137" 5 (1 # 4) None)].

End Samples.

(** ** More of [src/unnamed/part_002]: statistics, logs, maintenance *)

Module AnalysisStats.
(** The row that [get_analysis_stats] returns. *)
Record row := {
  total_analyses : Z;
  total_isotopes_detected : option Z;
  unique_isotopes : Z;
  avg_peaks_per_analysis : option Q;
  most_common_isotope : option text;
  recent_analysis_count : Z
}.
End AnalysisStats.

Module RealtimeStatus.
(** A row of [realtime_status]; [additional_data] and [created_at] play
    no part below and are left out. *)
Record row := {
  id : Z;
  session_id : uuid;
  timestamp : timestamptz;
  current_counts : option Z;
  elapsed_time : option Z;
  status : text;
  updated_at : timestamptz
}.
Definition with_updated_at (v : timestamptz) (r : row) : row :=
  {| id := id r; session_id := session_id r; timestamp := timestamp r;
     current_counts := current_counts r; elapsed_time := elapsed_time r;
     status := status r; updated_at := v |}.
(** PRIMARY KEY (id) and UNIQUE (session_id) *)
Definition conflicts (a b : row) : bool :=
  Z.eqb (id a) (id b) || N.eqb (session_id a) (session_id b).
End RealtimeStatus.

Module SystemLog.
(** A row of [system_logs]; [metadata] and [created_at] are left out. *)
Record row := {
  id : Z;
  timestamp : timestamptz;
  level : text;
  message : text;
  source : option text;
  analysis_id : option uuid
}.
End SystemLog.

Module Operations.
Import Platform.


(** [update_updated_at_column], as the BEFORE UPDATE row trigger of
    [realtime_status]; [now] is NOW(). *)
Definition update_updated_at_column (now : timestamptz)
  (NEW : RealtimeStatus.row) : RealtimeStatus.row :=
  RealtimeStatus.with_updated_at now NEW.

(** INSERT INTO realtime_status: no trigger runs. *)
Definition insert_realtime_status (t : list RealtimeStatus.row)
  (NEW : RealtimeStatus.row) : result (list RealtimeStatus.row) :=
  insert_row (fun r => r) (fun _ => true) RealtimeStatus.conflicts
             (fun _ => true) t NEW.

(** UPDATE realtime_status SET ... WHERE p *)
Definition update_realtime_status (now : timestamptz)
  (p : RealtimeStatus.row -> bool)
  (set : RealtimeStatus.row -> RealtimeStatus.row)
  (t : list RealtimeStatus.row) : result (list RealtimeStatus.row) :=
  update_where (update_updated_at_column now) (fun _ => true)
               RealtimeStatus.conflicts (fun _ => true) p set t.



(** array_length(a, 1) is NULL for an empty array. *)
Definition array_length (a : list text) : option Z :=
  match a with
  | [] => None
  | _ => Some (COUNT a)
  end.

(** SUM skips NULLs and is NULL when nothing is left to add. *)
Fixpoint SUM (l : list (option Z)) : option Z :=
  match l with
  | [] => None
  | None :: l' => SUM l'
  | Some x :: l' =>
      match SUM l' with
      | Some y => Some (x + y)%Z
      | None => Some x
      end
  end.

(** timestamp >= NOW() - INTERVAL '1 day' * days_back *)
Definition recent (now : timestamptz) (days_back : Z) (a : Analysis.row)
  : bool :=
  (now - usec_per_day * days_back <=? Analysis.timestamp a)%Z.

(** [get_analysis_stats(days_back)], [now] being NOW(). *)
Definition get_analysis_stats (now : timestamptz) (t : isotope_analyses)
  (days_back : Z) : result AnalysisStats.row :=
  frequency <- isotope_frequency t ;;
  Ok {| AnalysisStats.total_analyses := COUNT (filter completed t);
        AnalysisStats.total_isotopes_detected :=
          SUM (map (fun a => array_length
                               (Analysis.isotope_families_detected a))
                   (filter completed t));
        AnalysisStats.unique_isotopes :=
          COUNT_DISTINCT (map snd (isotope_frequency_rows t));
        AnalysisStats.avg_peaks_per_analysis :=
          match filter completed t with
          | [] => None
          | done => Some (ROUND2 (AVG (map Analysis.total_peaks_found done)))
          end;
        AnalysisStats.most_common_isotope :=
          option_map IsotopeFrequency.isotope (hd_error frequency);
        AnalysisStats.recent_analysis_count :=
          COUNT (filter (fun a => completed a && recent now days_back a) t) |}.

(** The row [isotope_frequency] makes of a group when there is a
    completed analysis to divide by. *)
Definition frequency_of_group (t : isotope_analyses)
  (g : text * list (Analysis.row * text)) : IsotopeFrequency.row :=
  {| IsotopeFrequency.isotope := fst g;
     IsotopeFrequency.detection_count := COUNT (snd g);
     IsotopeFrequency.unique_samples :=
       COUNT_DISTINCT (map (fun x => Analysis.sample_name (fst x)) (snd g));
     IsotopeFrequency.detection_percentage :=
       ROUND2 (inject_Z (COUNT (snd g)) / inject_Z (completed_count t)
               * 100) |}.

(** ORDER BY detection_count DESC *)
Definition by_detection_count (a b : IsotopeFrequency.row) : comparison :=
  desc Z.compare (IsotopeFrequency.detection_count a)
                 (IsotopeFrequency.detection_count b).

(** The analyses and the log entries that may refer to them. *)
Record store := {
  isotope_analyses_table : isotope_analyses;
  system_logs : list SystemLog.row
}.

(** analysis_id UUID REFERENCES public.isotope_analyses(analysis_id):
    a NULL refers to nothing. *)
Definition log_target_exists (t : isotope_analyses) (l : SystemLog.row)
  : bool :=
  match SystemLog.analysis_id l with
  | None => true
  | Some a => existsb (N.eqb a) (map Analysis.analysis_id t)
  end.

(** INSERT INTO system_logs *)
Definition insert_system_logs (st : store) (NEW : SystemLog.row)
  : result store :=
  _ <- guard (negb (existsb (fun l => Z.eqb (SystemLog.id NEW)
                                            (SystemLog.id l))
                            (system_logs st))) unique_violation ;;
  _ <- guard (log_target_exists (isotope_analyses_table st) NEW)
             foreign_key_violation ;;
  Ok {| isotope_analyses_table := isotope_analyses_table st;
        system_logs := system_logs st ++ [NEW] |}.

(** DELETE FROM isotope_analyses WHERE p.  The foreign key of
    [system_logs] has no ON DELETE clause, so a log entry that would lose
    its analysis stops the statement. *)
Definition delete_isotope_analyses (p : Analysis.row -> bool) (st : store)
  : result store :=
  let rest := delete_where p (isotope_analyses_table st) in
  _ <- guard (forallb (log_target_exists rest) (system_logs st))
             foreign_key_violation ;;
  Ok {| isotope_analyses_table := rest; system_logs := system_logs st |}.

End Operations.

Module PlatformSamples.
Local Open Scope string_scope.

Definition status_row (i : Z) (ts updated : timestamptz)
  : RealtimeStatus.row :=
  {| RealtimeStatus.id := i; RealtimeStatus.session_id := Z.to_N i;
     RealtimeStatus.timestamp := ts;
     RealtimeStatus.current_counts := Some 120%Z;
     RealtimeStatus.elapsed_time := None;
     RealtimeStatus.status := "collecting";
     RealtimeStatus.updated_at := updated |}.

(** Three status rows, taken at hours 0, 10 and 30. *)
Definition statuses : list RealtimeStatus.row :=
  [status_row 1 0 0; status_row 2 36000000000 36000000000;
   status_row 3 108000000000 108000000000].

(** An analysis with a log entry that refers to it, and a log entry that
    refers to none. *)
Definition logged : Operations.store :=
  {| Operations.isotope_analyses_table :=
       [Examples.analysis 1 3600000000 "soil" 10 ["Cs-137"] "completed";
        Examples.analysis 2 7200000000 "water" 20 [] "completed"];
     Operations.system_logs :=
       [{| SystemLog.id := 1; SystemLog.timestamp := 3600000001;
           SystemLog.level := "info"; SystemLog.message := "analysis stored";
           SystemLog.source := Some "flask-api";
           SystemLog.analysis_id := Some 1%N |};
        {| SystemLog.id := 2; SystemLog.timestamp := 3600000002;
           SystemLog.level := "debug"; SystemLog.message := "heartbeat";
           SystemLog.source := None; SystemLog.analysis_id := None |}] |}.

End PlatformSamples.

(** ** The daily rollup, day by day *)

Module Rollup.
Import Platform.


Definition on_day (d : timestamptz) (a : Analysis.row) : bool :=
  Z.eqb (date_trunc_day (Analysis.timestamp a)) d.

(** The analyses completed on the day that starts at [d]. *)
Definition completed_on (d : timestamptz) (t : isotope_analyses)
  : list Analysis.row :=
  filter (on_day d) (filter completed t).

End Rollup.

(** ** The statistics of the dashboard, [src/app/page.tsx] *)

Module Dashboard.
Import Platform.

(** A JS object used as a map from isotope names to counts: its own
    properties, in order of insertion.  Counts are JS numbers; they are
    integers far below 2^53 and are exact. *)
Definition object := list (text * Z).

(** The names that an object literal inherits from Object.prototype.
    Reading one of them from a fresh object yields a function or an
    object instead of undefined, and the count turns into a string;
    [calculateStats] is embedded for the names outside this list and is
    [None] otherwise. *)
Definition Object_prototype : list text :=
  ["constructor"; "__defineGetter__"; "__defineSetter__"; "hasOwnProperty";
   "__lookupGetter__"; "__lookupSetter__"; "isPrototypeOf";
   "propertyIsEnumerable"; "toString"; "valueOf"; "__proto__";
   "toLocaleString"]%string.

Definition inherited (k : text) : bool :=
  existsb (String.eqb k) Object_prototype.

(** o[k], for a name that is not inherited: undefined is [None]. *)
Fixpoint lookup (o : object) (k : text) : option Z :=
  match o with
  | [] => None
  | (k', v) :: o' => if String.eqb k' k then Some v else lookup o' k
  end.

(** o[k] = v: an own property keeps its place, a new one comes last. *)
Fixpoint assign (o : object) (k : text) (v : Z) : object :=
  match o with
  | [] => [(k, v)]
  | (k', v') :: o' =>
      if String.eqb k' k then (k', v) :: o' else (k', v') :: assign o' k v
  end.

(** x || 0, for a number or undefined. *)
Definition or_zero (x : option Z) : Z :=
  match x with
  | Some n => if Z.eqb n 0 then 0%Z else n
  | None => 0%Z
  end.

(** isotopeFreq[isotope] = (isotopeFreq[isotope] || 0) + 1 *)
Definition count_isotope (isotopeFreq : option object) (isotope : text)
  : option object :=
  match isotopeFreq with
  | Some o =>
      if inherited isotope then None
      else Some (assign o isotope (or_zero (lookup o isotope) + 1)%Z)
  | None => None
  end.



End Dashboard.

(** * Properties *)

(** ** Comparisons on REAL values *)

Lemma Qgtb_true (x y : Q) : Qgtb x y = true <-> y < x.
Proof.
  unfold Qgtb. rewrite negb_true_iff. split; intro H.
  - apply Qnot_le_lt. intro L. apply Qle_bool_iff in L. congruence.
  - destruct (Qle_bool x y) eqn:E; [|reflexivity].
    apply Qle_bool_iff in E. exfalso. apply (Qlt_not_le _ _ H E).
Qed.

Lemma Qgtb_false (x y : Q) : Qgtb x y = false <-> x <= y.
Proof.
  unfold Qgtb. rewrite negb_false_iff. apply Qle_bool_iff.
Qed.

Lemma Qgeb_true (x y : Q) : Qgeb x y = true <-> y <= x.
Proof. unfold Qgeb. apply Qle_bool_iff. Qed.

Lemma Qgtb_irrefl x y : x == y -> Qgtb x y = false.
Proof. intro H. apply Qgtb_false. rewrite H. apply Qle_refl. Qed.

(** ** ORDER BY returns a sorted permutation *)

Section SortFacts.
Context {A : Type}.
Variable leb : A -> A -> bool.

Lemma insert_sorted_perm x l : Permutation (x :: l) (insert_sorted leb x l).
Proof.
  induction l as [|y l IH]; simpl.
  - apply Permutation_refl.
  - destruct (leb x y).
    + apply Permutation_refl.
    + eapply perm_trans; [apply perm_swap|]. now apply perm_skip.
Qed.

Lemma order_by_perm l : Permutation l (order_by leb l).
Proof.
  induction l as [|x l IH]; simpl.
  - apply perm_nil.
  - eapply perm_trans; [apply perm_skip, IH|]. apply insert_sorted_perm.
Qed.

Hypothesis leb_total : forall x y, leb x y = true \/ leb y x = true.
Hypothesis leb_trans :
  forall x y z, leb x y = true -> leb y z = true -> leb x z = true.

Lemma insert_sorted_sorted x l :
  StronglySorted (fun a b => leb a b = true) l ->
  StronglySorted (fun a b => leb a b = true) (insert_sorted leb x l).
Proof.
  induction 1 as [|y l Hs IH Hy]; simpl.
  - constructor; constructor.
  - destruct (leb x y) eqn:E.
    + constructor.
      * now constructor.
      * constructor; [exact E|].
        rewrite Forall_forall in *. intros z Hz. eauto.
    + constructor; [exact IH|].
      rewrite Forall_forall in *. intros z Hz.
      apply (Permutation_in _ (Permutation_sym (insert_sorted_perm x l))) in Hz.
      destruct Hz as [<-|Hz]; [|auto].
      destruct (leb_total x y) as [F|T]; congruence.
Qed.

Lemma order_by_sorted l :
  StronglySorted (fun a b => leb a b = true) (order_by leb l).
Proof.
  induction l as [|x l IH]; simpl.
  - constructor.
  - now apply insert_sorted_sorted.
Qed.
End SortFacts.

(** ** The write path of a table *)

Section TableFacts.
Context {row : Type}.
Variable trigger : row -> row.
Variable check : row -> bool.
Variable conflicts : row -> row -> bool.
Variable references : row -> bool.

Lemma write_row_Ok NEW others r :
  write_row trigger check conflicts references NEW others = Ok r ->
  r = trigger NEW /\ check r = true
  /\ existsb (conflicts r) others = false /\ references r = true.
Proof.
  unfold write_row, guard, bind.
  destruct (check (trigger NEW)) eqn:C; [|discriminate].
  destruct (existsb (conflicts (trigger NEW)) others) eqn:U; [discriminate|].
  destruct (references (trigger NEW)) eqn:F; [|discriminate].
  simpl. intros [= <-]. auto.
Qed.

Lemma insert_row_Ok t NEW t' :
  insert_row trigger check conflicts references t NEW = Ok t' ->
  t' = t ++ [trigger NEW] /\ check (trigger NEW) = true
  /\ existsb (conflicts (trigger NEW)) t = false
  /\ references (trigger NEW) = true.
Proof.
  unfold insert_row, bind.
  destruct (write_row _ _ _ _ NEW t) as [r|e] eqn:W; [|discriminate].
  apply write_row_Ok in W. destruct W as (-> & C & U & F).
  intros [= <-]. auto.
Qed.

Lemma update_rows_Ok p set todo : forall done t',
  update_rows trigger check conflicts references p set done todo = Ok t' ->
  t' = done ++ map (updated trigger p set) todo
  /\ Forall (fun OLD => p OLD = true ->
                        check (updated trigger p set OLD) = true
                        /\ references (updated trigger p set OLD) = true) todo.
Proof.
  induction todo as [|OLD rest IH]; simpl; intros done t' H.
  - injection H as <-. now rewrite app_nil_r.
  - unfold updated at 1. destruct (p OLD) eqn:P.
    + unfold bind in H.
      destruct (write_row _ _ _ _ (set OLD) (done ++ rest)) as [r|e] eqn:W;
        [|discriminate].
      apply write_row_Ok in W. destruct W as (-> & C & U & F).
      apply IH in H. destruct H as [-> HF]. split.
      * now rewrite <- app_assoc.
      * constructor; [|exact HF].
        intros _. unfold updated. rewrite P. auto.
    + apply IH in H. destruct H as [-> HF]. split.
      * now rewrite <- app_assoc.
      * constructor; [|exact HF]. rewrite P. discriminate.
Qed.

Lemma update_where_Ok p set t t' :
  update_where trigger check conflicts references p set t = Ok t' ->
  t' = map (updated trigger p set) t
  /\ Forall (fun OLD => p OLD = true ->
                        check (updated trigger p set OLD) = true
                        /\ references (updated trigger p set OLD) = true) t.
Proof. unfold update_where. intro H. now apply update_rows_Ok in H. Qed.

(** A property that the trigger establishes, or that follows from the
    constraints, holds of every row of the table once it holds of the rows
    an empty table starts from. *)
Lemma insert_row_Forall (P : row -> Prop) t NEW t' :
  (forall r, check (trigger r) = true -> references (trigger r) = true ->
             P (trigger r)) ->
  Forall P t ->
  insert_row trigger check conflicts references t NEW = Ok t' ->
  Forall P t'.
Proof.
  intros HP Ht H. apply insert_row_Ok in H. destruct H as (-> & C & _ & F).
  apply Forall_app. split; [exact Ht|]. constructor; auto.
Qed.

Lemma update_where_Forall (P : row -> Prop) p set t t' :
  (forall r, check (trigger r) = true -> references (trigger r) = true ->
             P (trigger r)) ->
  Forall P t ->
  update_where trigger check conflicts references p set t = Ok t' ->
  Forall P t'.
Proof.
  intros HP Ht H. apply update_where_Ok in H. destruct H as [-> HF].
  rewrite Forall_forall in *. intros r Hr.
  apply in_map_iff in Hr. destruct Hr as (OLD & <- & Hin).
  specialize (HF OLD Hin). unfold updated in *.
  destruct (p OLD); [|auto].
  destruct HF as [C F]; auto.
Qed.

Lemma delete_where_Forall (P : row -> Prop) (p : row -> bool) t :
  Forall P t -> Forall P (delete_where p t).
Proof.
  unfold delete_where. rewrite !Forall_forall. intros H r Hr.
  apply filter_In in Hr. apply H, Hr.
Qed.

End TableFacts.

(** ** Unique indexes *)

Lemma ForallOrdPairs_app {A} (R : A -> A -> Prop) (l1 l2 : list A) :
  ForallOrdPairs R (l1 ++ l2) <->
  ForallOrdPairs R l1 /\ ForallOrdPairs R l2
  /\ (forall a b, In a l1 -> In b l2 -> R a b).
Proof.
  induction l1 as [|x l1 IH]; simpl.
  - split.
    + intro H. repeat split; [constructor|exact H|contradiction].
    + intros (_ & H & _). exact H.
  - split.
    + intro H. inversion H as [|? ? Hx Hr]; subst.
      apply IH in Hr. destruct Hr as (H1 & H2 & H12).
      rewrite Forall_app in Hx. destruct Hx as [Hx1 Hx2].
      repeat split.
      * now constructor.
      * exact H2.
      * intros a b [<-|Ha] Hb; [|auto].
        rewrite Forall_forall in Hx2. auto.
    + intros (H1 & H2 & H12). inversion H1 as [|? ? Hx Hr]; subst.
      constructor.
      * apply Forall_app. split; [exact Hx|].
        apply Forall_forall. intros b Hb. apply H12; auto.
      * apply IH. repeat split; auto.
Qed.

Section UniqueFacts.
Context {row : Type}.
Variable trigger : row -> row.
Variable check : row -> bool.
Variable conflicts : row -> row -> bool.
Variable references : row -> bool.
Hypothesis conflicts_sym : forall a b, conflicts a b = conflicts b a.

Lemma existsb_conflicts_false r t :
  existsb (conflicts r) t = false <-> forall x, In x t -> conflicts r x = false.
Proof.
  split.
  - intros H x Hx. destruct (conflicts r x) eqn:E; [|reflexivity].
    assert (existsb (conflicts r) t = true) by (apply existsb_exists; eauto).
    congruence.
  - intro H. destruct (existsb (conflicts r) t) eqn:E; [|reflexivity].
    apply existsb_exists in E. destruct E as (x & Hx & E).
    rewrite (H x Hx) in E. discriminate.
Qed.

Lemma unique_rows_middle l1 r l2 :
  unique_rows conflicts (l1 ++ l2) ->
  existsb (conflicts r) (l1 ++ l2) = false ->
  unique_rows conflicts (l1 ++ r :: l2).
Proof.
  unfold unique_rows. intros H E.
  rewrite existsb_conflicts_false in E.
  apply ForallOrdPairs_app in H. destruct H as (H1 & H2 & H12).
  apply ForallOrdPairs_app. repeat split.
  - exact H1.
  - constructor; [|exact H2].
    apply Forall_forall. intros b Hb. apply E, in_or_app. auto.
  - intros a b Ha [<-|Hb]; [|auto].
    rewrite conflicts_sym. apply E, in_or_app. auto.
Qed.

Lemma unique_rows_remove l1 r l2 :
  unique_rows conflicts (l1 ++ r :: l2) -> unique_rows conflicts (l1 ++ l2).
Proof.
  unfold unique_rows. intro H.
  apply ForallOrdPairs_app in H. destruct H as (H1 & H2 & H12).
  inversion H2; subst.
  apply ForallOrdPairs_app. repeat split; auto.
  intros a b Ha Hb. apply H12; simpl; auto.
Qed.

Lemma insert_row_unique t NEW t' :
  unique_rows conflicts t ->
  insert_row trigger check conflicts references t NEW = Ok t' ->
  unique_rows conflicts t'.
Proof.
  intros Hu H. apply insert_row_Ok in H. destruct H as (-> & _ & E & _).
  apply unique_rows_middle; rewrite app_nil_r; assumption.
Qed.

Lemma update_rows_unique p set todo : forall done t',
  unique_rows conflicts (done ++ todo) ->
  update_rows trigger check conflicts references p set done todo = Ok t' ->
  unique_rows conflicts t'.
Proof.
  induction todo as [|OLD rest IH]; simpl; intros done t' Hu H.
  - injection H as <-. now rewrite app_nil_r in Hu.
  - destruct (p OLD).
    + unfold bind in H.
      destruct (write_row _ _ _ _ (set OLD) (done ++ rest)) as [r|e] eqn:W;
        [|discriminate].
      apply write_row_Ok in W. destruct W as (Hr & _ & E & _).
      apply IH in H; [exact H|].
      rewrite <- app_assoc. simpl.
      apply unique_rows_middle; [|exact E].
      now apply unique_rows_remove in Hu.
    + apply IH in H; [exact H|]. now rewrite <- app_assoc.
Qed.

Lemma update_where_unique p set t t' :
  unique_rows conflicts t ->
  update_where trigger check conflicts references p set t = Ok t' ->
  unique_rows conflicts t'.
Proof. unfold update_where. intros Hu H. now apply update_rows_unique in H. Qed.

Lemma delete_where_unique (p : row -> bool) t :
  unique_rows conflicts t -> unique_rows conflicts (delete_where p t).
Proof.
  unfold unique_rows, delete_where.
  induction 1 as [|x l Hx Hl IH]; simpl.
  - constructor.
  - destruct (negb (p x)); [|exact IH].
    constructor; [|exact IH].
    rewrite Forall_forall in *. intros b Hb. apply filter_In in Hb.
    apply Hx, Hb.
Qed.

End UniqueFacts.

(** ** The triggers *)

Import Schema.

Lemma validate_isotope_detection_derived r :
  detection_derived (validate_isotope_detection r).
Proof.
  unfold detection_derived, validate_isotope_detection, derived.
  destruct (Qgtb (IsotopeDetection.detected_counts r) 0) eqn:E;
    simpl; rewrite E; reflexivity.
Qed.

Lemma validate_mass_estimate_derived r :
  mass_estimate_derived (validate_mass_estimate r).
Proof.
  unfold mass_estimate_derived, validate_mass_estimate, derived.
  destruct (Qgtb (MassEstimate.estimated_mass_g r) 0) eqn:E;
    simpl; rewrite E; reflexivity.
Qed.

Lemma validate_isotope_detection_fixes r :
  detection_derived r -> validate_isotope_detection r = r.
Proof.
  unfold detection_derived, validate_isotope_detection, derived.
  destruct r as [i a p dg g c u rel]; simpl. intros ->.
  destruct (Qgtb c 0); reflexivity.
Qed.

Lemma validate_mass_estimate_fixes r :
  mass_estimate_derived r -> validate_mass_estimate r = r.
Proof.
  unfold mass_estimate_derived, validate_mass_estimate, derived.
  destruct r as [i a p m u rel]; simpl. intros ->.
  destruct (Qgtb m 0); reflexivity.
Qed.

Lemma validate_isotope_detection_source r :
  same_detection_source (validate_isotope_detection r) r.
Proof.
  unfold same_detection_source, validate_isotope_detection.
  destruct (Qgtb (IsotopeDetection.detected_counts r) 0); simpl;
    repeat split.
Qed.

Lemma validate_mass_estimate_source r :
  same_mass_source (validate_mass_estimate r) r.
Proof.
  unfold same_mass_source, validate_mass_estimate.
  destruct (Qgtb (MassEstimate.estimated_mass_g r) 0); simpl; repeat split.
Qed.

(** ** The schema's promises hold in every reachable state *)

Lemma has_session_In ss a : has_session ss a = true <-> In a (session_ids ss).
Proof.
  unfold has_session. rewrite existsb_exists. split.
  - intros (x & Hx & E). apply N.eqb_eq in E. now subst.
  - intro H. exists a. split; [exact H|apply N.eqb_refl].
Qed.

Lemma has_session_insert ss r a :
  has_session ss a = true -> has_session (ss ++ [r]) a = true.
Proof.
  rewrite !has_session_In. unfold session_ids. rewrite map_app.
  intro H. apply in_or_app. now left.
Qed.

Lemma has_session_delete p ss a :
  has_session ss a = true ->
  existsb (N.eqb a) (session_ids (filter p ss)) = false ->
  has_session (delete_where p ss) a = true.
Proof.
  rewrite !has_session_In. unfold session_ids, delete_where.
  rewrite in_map_iff. intros (s & <- & Hs) E.
  apply in_map. apply filter_In. split; [exact Hs|].
  destruct (p s) eqn:P; [|reflexivity].
  assert (existsb (N.eqb (AnalysisSession.id s))
                  (map AnalysisSession.id (filter p ss)) = true).
  { apply existsb_exists. exists (AnalysisSession.id s).
    split; [|apply N.eqb_refl].
    apply in_map, filter_In. auto. }
  congruence.
Qed.

Lemma cascade_owned {row} (owner : row -> uuid) p ss (t : list row) :
  Forall (fun r => has_session ss (owner r) = true) t ->
  Forall (fun r => has_session (delete_where p ss) (owner r) = true)
    (delete_where
       (fun r => existsb (N.eqb (owner r)) (session_ids (filter p ss))) t).
Proof.
  unfold delete_where at 2. rewrite !Forall_forall. intros H r Hr.
  apply filter_In in Hr. destruct Hr as [Hr E].
  apply negb_true_iff in E. apply has_session_delete; auto.
Qed.

Lemma AnalysisSession_conflicts_sym a b :
  AnalysisSession.conflicts a b = AnalysisSession.conflicts b a.
Proof. apply N.eqb_sym. Qed.

Lemma AnalysisPlot_conflicts_sym a b :
  AnalysisPlot.conflicts a b = AnalysisPlot.conflicts b a.
Proof. apply N.eqb_sym. Qed.

Lemma IsotopeDetection_conflicts_sym a b :
  IsotopeDetection.conflicts a b = IsotopeDetection.conflicts b a.
Proof.
  unfold IsotopeDetection.conflicts.
  rewrite (N.eqb_sym (IsotopeDetection.id a)),
    (N.eqb_sym (IsotopeDetection.analysis_id a)),
    (String.eqb_sym (IsotopeDetection.parent_isotope a)),
    (String.eqb_sym (IsotopeDetection.daughter_isotope a)),
    (Qeq_bool_comm (IsotopeDetection.gamma_energy_kev a)).
  reflexivity.
Qed.

Lemma MassEstimate_conflicts_sym a b :
  MassEstimate.conflicts a b = MassEstimate.conflicts b a.
Proof.
  unfold MassEstimate.conflicts, MassEstimate.same_estimate.
  rewrite (N.eqb_sym (MassEstimate.id a)),
    (N.eqb_sym (MassEstimate.analysis_id a)),
    (String.eqb_sym (MassEstimate.parent_isotope a)).
  reflexivity.
Qed.

Lemma AnalysisSummary_conflicts_sym a b :
  AnalysisSummary.conflicts a b = AnalysisSummary.conflicts b a.
Proof.
  unfold AnalysisSummary.conflicts.
  rewrite (N.eqb_sym (AnalysisSummary.id a)),
    (N.eqb_sym (AnalysisSummary.analysis_id a)).
  reflexivity.
Qed.

Create HintDb schema.

#[local] Hint Resolve AnalysisSession_conflicts_sym AnalysisPlot_conflicts_sym
  IsotopeDetection_conflicts_sym MassEstimate_conflicts_sym
  AnalysisSummary_conflicts_sym validate_isotope_detection_derived
  validate_mass_estimate_derived : schema.

Lemma children_have_session_Forall ss d :
  children_have_session ss d = true ->
  Forall (fun r => has_session ss (AnalysisPlot.analysis_id r) = true)
         (analysis_plots d)
  /\ Forall (fun r => has_session ss (IsotopeDetection.analysis_id r) = true)
            (isotope_detections d)
  /\ Forall (fun r => has_session ss (MassEstimate.analysis_id r) = true)
            (mass_estimates d)
  /\ Forall (fun r => has_session ss (AnalysisSummary.analysis_id r) = true)
            (analysis_summary d).
Proof.
  unfold children_have_session. rewrite !andb_true_iff, !forallb_forall.
  rewrite !Forall_forall. tauto.
Qed.

Ltac table_step E :=
  first
    [ eapply insert_row_unique; [| |exact E]; solve [eauto with schema]
    | eapply update_where_unique; [| |exact E]; solve [eauto with schema]
    | eapply insert_row_Forall; [| |exact E];
      solve [intros; eauto with schema]
    | eapply update_where_Forall; [| |exact E];
      solve [intros; eauto with schema] ].

Lemma exec_well_formed d st d' :
  well_formed d -> exec d st = Ok d' -> well_formed d'.
Proof.
  intros WF H. destruct WF.
  destruct st; simpl in H; unfold bind in H.
  - (* INSERT INTO analysis_sessions *)
    destruct (sessions_insert _ _) as [t|] eqn:E; [|discriminate].
    injection H as <-. unfold sessions_insert in E.
    assert (M : forall a, has_session (analysis_sessions d) a = true ->
                          has_session t a = true).
    { apply insert_row_Ok in E. destruct E as (-> & _).
      intros. now apply has_session_insert. }
    constructor; simpl; auto; try table_step E;
      rewrite Forall_forall in *; intros x Hx; apply M; auto.
  - (* UPDATE analysis_sessions *)
    destruct (sessions_update _ _ _) as [t|] eqn:E; [|discriminate].
    unfold guard in H.
    destruct (children_have_session t d) eqn:C; [|discriminate].
    injection H as <-. unfold sessions_update in E.
    apply children_have_session_Forall in C.
    destruct C as (C1 & C2 & C3 & C4).
    constructor; simpl; auto; table_step E.
  - (* DELETE FROM analysis_sessions *)
    injection H as <-. unfold cascade_delete.
    constructor; simpl;
      try (apply delete_where_unique; assumption);
      try (apply delete_where_Forall; assumption);
      apply cascade_owned; assumption.
  - destruct (plots_insert _ _ _) as [t|] eqn:E; [|discriminate].
    injection H as <-. unfold plots_insert in E.
    constructor; simpl; auto; table_step E.
  - destruct (plots_update _ _ _ _) as [t|] eqn:E; [|discriminate].
    injection H as <-. unfold plots_update in E.
    constructor; simpl; auto; table_step E.
  - injection H as <-.
    constructor; simpl; auto;
      try (apply delete_where_unique; assumption);
      apply delete_where_Forall; assumption.
  - destruct (detections_insert _ _ _) as [t|] eqn:E; [|discriminate].
    injection H as <-. unfold detections_insert in E.
    constructor; simpl; auto; table_step E.
  - destruct (detections_update _ _ _ _) as [t|] eqn:E; [|discriminate].
    injection H as <-. unfold detections_update in E.
    constructor; simpl; auto; table_step E.
  - injection H as <-.
    constructor; simpl; auto;
      try (apply delete_where_unique; assumption);
      apply delete_where_Forall; assumption.
  - destruct (mass_estimates_insert _ _ _) as [t|] eqn:E; [|discriminate].
    injection H as <-. unfold mass_estimates_insert in E.
    constructor; simpl; auto; table_step E.
  - destruct (mass_estimates_update _ _ _ _) as [t|] eqn:E; [|discriminate].
    injection H as <-. unfold mass_estimates_update in E.
    constructor; simpl; auto; table_step E.
  - injection H as <-.
    constructor; simpl; auto;
      try (apply delete_where_unique; assumption);
      apply delete_where_Forall; assumption.
  - destruct (summary_insert _ _ _) as [t|] eqn:E; [|discriminate].
    injection H as <-. unfold summary_insert in E.
    constructor; simpl; auto; table_step E.
  - destruct (summary_update _ _ _ _) as [t|] eqn:E; [|discriminate].
    injection H as <-. unfold summary_update in E.
    constructor; simpl; auto; table_step E.
  - injection H as <-.
    constructor; simpl; auto;
      try (apply delete_where_unique; assumption);
      apply delete_where_Forall; assumption.
Qed.

Lemma empty_well_formed : well_formed empty.
Proof. constructor; simpl; constructor. Qed.

Lemma run_well_formed d st : well_formed d -> well_formed (fst (run d st)).
Proof.
  intro WF. unfold run. destruct (exec d st) as [d'|e] eqn:E; simpl.
  - now apply (exec_well_formed d st).
  - exact WF.
Qed.

Lemma reachable_well_formed d : reachable d -> well_formed d.
Proof.
  induction 1 as [|d st R IH].
  - apply empty_well_formed.
  - now apply run_well_formed.
Qed.

(** ** Derived relative uncertainties *)

Lemma derived_as_specified U M :
  relative_as_specified U M (derived U M).
Proof.
  unfold relative_as_specified, derived. split.
  - intro H. apply Qgtb_true in H. now rewrite H.
  - intro H. assert (E : Qgtb M 0 = false).
    { apply Qgtb_false. rewrite H. apply Qle_refl. }
    rewrite E. split; [reflexivity|discriminate].
Qed.

Lemma detection_derived_as_specified r :
  detection_derived r -> detection_as_specified r.
Proof.
  unfold detection_derived, detection_as_specified. intros ->.
  apply derived_as_specified.
Qed.

Lemma mass_estimate_derived_as_specified r :
  mass_estimate_derived r -> mass_estimate_as_specified r.
Proof.
  unfold mass_estimate_derived, mass_estimate_as_specified. intros ->.
  apply derived_as_specified.
Qed.

Lemma Forall2_map_r {A B} (R : A -> B -> Prop) (f : A -> B) l :
  (forall a, In a l -> R a (f a)) -> Forall2 R l (map f l).
Proof.
  induction l as [|a l IH]; simpl; intro H; constructor; auto.
Qed.


(** A magnitude of zero is no reason to reject a row: a detection without
    counts that meets the other constraints is stored, with a NULL relative
    uncertainty. *)
Lemma zero_counts_accepted d NEW :
  IsotopeDetection.detected_counts NEW == 0 ->
  0 < IsotopeDetection.gamma_energy_kev NEW ->
  0 <= IsotopeDetection.count_uncertainty NEW ->
  existsb (IsotopeDetection.conflicts NEW) (isotope_detections d) = false ->
  has_session (analysis_sessions d) (IsotopeDetection.analysis_id NEW) = true ->
  exec d (insert_isotope_detections NEW)
  = Ok (with_detections
          (isotope_detections d
           ++ [IsotopeDetection.with_relative_uncertainty None NEW]) d).
Proof.
  intros Hz Hg Hu Hc Hs.
  assert (V : validate_isotope_detection NEW
              = IsotopeDetection.with_relative_uncertainty None NEW).
  { unfold validate_isotope_detection.
    now rewrite (Qgtb_irrefl _ _ Hz). }
  simpl. unfold detections_insert, insert_row, write_row. rewrite V.
  assert (C : IsotopeDetection.check
                (IsotopeDetection.with_relative_uncertainty None NEW) = true).
  { unfold IsotopeDetection.check. simpl.
    rewrite (proj2 (Qgtb_true _ _) Hg), (proj2 (Qgeb_true _ _) Hu).
    rewrite (proj2 (Qgeb_true _ 0)); [reflexivity|].
    rewrite Hz. apply Qle_refl. }
  rewrite C. simpl. change (existsb _ (isotope_detections d))
    with (existsb (IsotopeDetection.conflicts NEW) (isotope_detections d)).
  rewrite Hc. simpl. rewrite Hs. reflexivity.
Qed.


Example no_counts_stored :
  map IsotopeDetection.relative_uncertainty
      (isotope_detections Examples.one_detection) = [None].
Proof. reflexivity. Qed.

(** C9: the derivation rule is idempotent on detections and on mass
    estimates: applied to the result of the rule, or to any row whose
    relative uncertainty is already the derived one, it returns the very
    same row. *)
Theorem derivation_idempotent :
  (forall r, validate_isotope_detection (validate_isotope_detection r)
             = validate_isotope_detection r)
  /\ (forall m, validate_mass_estimate (validate_mass_estimate m)
                = validate_mass_estimate m)
  /\ (forall r, detection_derived r -> validate_isotope_detection r = r)
  /\ (forall m, mass_estimate_derived m -> validate_mass_estimate m = m).
Proof.
  repeat split; intros.
  - apply validate_isotope_detection_fixes,
      validate_isotope_detection_derived.
  - apply validate_mass_estimate_fixes, validate_mass_estimate_derived.
  - now apply validate_isotope_detection_fixes.
  - now apply validate_mass_estimate_fixes.
Qed.

Lemma derivation_idempotent_witness :
  validate_isotope_detection (Examples.detection 1 1 10 1 (Some (1 / 10)))
  = Examples.detection 1 1 10 1 (Some (1 / 10))
  /\ validate_mass_estimate (Examples.estimate 1 1 "Cs-137" 0 1 None)
     = Examples.estimate 1 1 "Cs-137" 0 1 None.
Proof.
  destruct derivation_idempotent as (_ & _ & Hd & Hm). split.
  - apply Hd. reflexivity.
  - apply Hm. reflexivity.
Defined.

Lemma reachable_run_all sts : forall d, reachable d -> reachable (run_all d sts).
Proof.
  unfold run_all. induction sts as [|st sts IH]; simpl; intros d R.
  - exact R.
  - apply IH. now constructor.
Qed.

Section TriggerOverwrites.
Context {row : Type}.
Variable trigger : row -> row.
Variable check : row -> bool.
Variable conflicts : row -> row -> bool.
Variable references : row -> bool.

Lemma write_row_ext NEW NEW' others :
  trigger NEW = trigger NEW' ->
  write_row trigger check conflicts references NEW others
  = write_row trigger check conflicts references NEW' others.
Proof. unfold write_row. now intros ->. Qed.

Lemma insert_row_ext t NEW NEW' :
  trigger NEW = trigger NEW' ->
  insert_row trigger check conflicts references t NEW
  = insert_row trigger check conflicts references t NEW'.
Proof. unfold insert_row. intro H. now rewrite (write_row_ext _ _ _ H). Qed.

Lemma update_rows_ext p set set' todo : forall done,
  (forall r, trigger (set r) = trigger (set' r)) ->
  update_rows trigger check conflicts references p set done todo
  = update_rows trigger check conflicts references p set' done todo.
Proof.
  induction todo as [|OLD rest IH]; simpl; intros done H.
  - reflexivity.
  - destruct (p OLD); [|now apply IH].
    rewrite (write_row_ext _ _ _ (H OLD)). unfold bind.
    destruct (write_row _ _ _ _ (set' OLD) (done ++ rest)); [|reflexivity].
    now apply IH.
Qed.
End TriggerOverwrites.

Lemma validate_isotope_detection_overwrites v r :
  validate_isotope_detection (IsotopeDetection.with_relative_uncertainty v r)
  = validate_isotope_detection r.
Proof. reflexivity. Qed.

Lemma validate_mass_estimate_overwrites v r :
  validate_mass_estimate (MassEstimate.with_relative_mass_uncertainty v r)
  = validate_mass_estimate r.
Proof. reflexivity. Qed.

(** C10: in every reachable state of the store the relative uncertainty of
    every detection and of every mass estimate is the one derived from the
    row's own uncertainty and magnitude; and whatever relative uncertainty
    an INSERT or an UPDATE supplies, whether or not it touches the other
    columns, the statement has the effect it has without it. *)
Theorem relative_uncertainty_never_disagrees (d : db) :
  reachable d ->
  Forall detection_as_specified (isotope_detections d)
  /\ Forall mass_estimate_as_specified (mass_estimates d)
  /\ (forall v NEW,
        exec d (insert_isotope_detections
                  (IsotopeDetection.with_relative_uncertainty v NEW))
        = exec d (insert_isotope_detections NEW))
  /\ (forall v p set,
        exec d (update_isotope_detections p
                  (fun r => IsotopeDetection.with_relative_uncertainty
                              v (set r)))
        = exec d (update_isotope_detections p set))
  /\ (forall v NEW,
        exec d (insert_mass_estimates
                  (MassEstimate.with_relative_mass_uncertainty v NEW))
        = exec d (insert_mass_estimates NEW))
  /\ (forall v p set,
        exec d (update_mass_estimates p
                  (fun r => MassEstimate.with_relative_mass_uncertainty
                              v (set r)))
        = exec d (update_mass_estimates p set)).
Proof.
  intro R. apply reachable_well_formed in R. destruct R.
  split; [|split; [|split; [|split; [|split]]]].
  - eapply Forall_impl; [|eassumption].
    apply detection_derived_as_specified.
  - eapply Forall_impl; [|eassumption].
    apply mass_estimate_derived_as_specified.
  - intros v NEW. simpl. unfold detections_insert.
    now rewrite (insert_row_ext _ _ _ _ _ _ NEW
                   (validate_isotope_detection_overwrites v NEW)).
  - intros v p set. simpl. unfold detections_update, update_where.
    rewrite (update_rows_ext _ _ _ _ p _ set); [reflexivity|].
    intro r. apply validate_isotope_detection_overwrites.
  - intros v NEW. simpl. unfold mass_estimates_insert.
    now rewrite (insert_row_ext _ _ _ _ _ _ NEW
                   (validate_mass_estimate_overwrites v NEW)).
  - intros v p set. simpl. unfold mass_estimates_update, update_where.
    rewrite (update_rows_ext _ _ _ _ p _ set); [reflexivity|].
    intro r. apply validate_mass_estimate_overwrites.
Qed.

Lemma relative_uncertainty_never_disagrees_witness :
  Forall detection_as_specified (isotope_detections Examples.one_detection)
  /\ exec Examples.one_detection
          (update_isotope_detections (fun _ => true)
             (fun r => IsotopeDetection.with_relative_uncertainty
                         (Some 7) r))
     = exec Examples.one_detection
            (update_isotope_detections (fun _ => true) (fun r => r)).
Proof.
  assert (R : reachable Examples.one_detection).
  { unfold Examples.one_detection, Examples.one_session.
    apply reachable_run_all, reachable_run_all, reachable_empty. }
  destruct (relative_uncertainty_never_disagrees _ R) as (H1 & _ & _ & H2 & _).
  split; [exact H1|].
  exact (H2 (Some 7) (fun _ => true) (fun r => r)).
Defined.

(** C7: a mass estimate for a (session, parent isotope) pair that already
    has one is rejected, and the store, the existing estimate included, is
    left as it was. *)
Theorem duplicate_mass_estimate_rejected (d : db) (NEW old : MassEstimate.row) :
  In old (mass_estimates d) ->
  MassEstimate.analysis_id NEW = MassEstimate.analysis_id old ->
  MassEstimate.parent_isotope NEW = MassEstimate.parent_isotope old ->
  (run d (insert_mass_estimates NEW) = (d, Some unique_violation)
   \/ run d (insert_mass_estimates NEW) = (d, Some check_violation))
  /\ In old (mass_estimates (fst (run d (insert_mass_estimates NEW)))).
Proof.
  intros Hin Ha Hp.
  assert (C : existsb (MassEstimate.conflicts (validate_mass_estimate NEW))
                      (mass_estimates d) = true).
  { apply existsb_exists. exists old. split; [exact Hin|].
    destruct (validate_mass_estimate_source NEW) as (_ & Ea & Ei & _).
    unfold MassEstimate.conflicts, MassEstimate.same_estimate.
    rewrite Ea, Ei, Ha, Hp, N.eqb_refl, String.eqb_refl.
    apply orb_true_r. }
  assert (E : run d (insert_mass_estimates NEW) = (d, Some unique_violation)
              \/ run d (insert_mass_estimates NEW) = (d, Some check_violation)).
  { unfold run. simpl.
    unfold mass_estimates_insert, insert_row, write_row, guard, bind.
    destruct (MassEstimate.check (validate_mass_estimate NEW)).
    - rewrite C. simpl. now left.
    - now right. }
  split; [exact E|].
  destruct E as [-> | ->]; exact Hin.
Qed.

Lemma duplicate_mass_estimate_rejected_witness :
  run Examples.three_estimates
      (insert_mass_estimates (Examples.estimate 9 3 "Co-60" 1 1 None))
  = (Examples.three_estimates, Some unique_violation).
Proof.
  destruct (duplicate_mass_estimate_rejected Examples.three_estimates
              (Examples.estimate 9 3 "Co-60" 1 1 None)
              (Examples.estimate 4 3 "Co-60" 9 1 (Some (1 / 9))))
    as [[E|E] _].
  - simpl. auto.
  - reflexivity.
  - reflexivity.
  - exact E.
  - discriminate E.
Defined.

(** ** Joins with the sessions *)

Lemma in_join {A B} (on : A -> B -> bool) l r a b :
  In (a, b) (join on l r) <-> In a l /\ In b r /\ on a b = true.
Proof.
  unfold join. rewrite in_flat_map. split.
  - intros (x & Hx & H). apply in_map_iff in H.
    destruct H as (y & [= <- <-] & Hy). apply filter_In in Hy. tauto.
  - intros (Ha & Hb & E). exists a. split; [exact Ha|].
    apply in_map, filter_In. auto.
Qed.

Lemma cascade_removes {row} (owner : row -> uuid) S ss (t : list row) r :
  Forall (fun r => has_session ss (owner r) = true) t ->
  In r (delete_where
          (fun r => existsb (N.eqb (owner r))
                      (session_ids
                         (filter (fun s => N.eqb (AnalysisSession.id s) S) ss)))
          t) ->
  owner r <> S.
Proof.
  intros Hown Hr E. unfold delete_where in Hr. apply filter_In in Hr.
  destruct Hr as [Hr Hk]. apply negb_true_iff in Hk.
  rewrite Forall_forall in Hown. specialize (Hown r Hr).
  apply has_session_In in Hown. unfold session_ids in Hown.
  apply in_map_iff in Hown. destruct Hown as (s & Hs & Hin).
  assert (T : existsb (N.eqb (owner r))
                (session_ids
                   (filter (fun s => N.eqb (AnalysisSession.id s) S) ss))
              = true).
  { apply existsb_exists. exists (owner r). split; [|apply N.eqb_refl].
    unfold session_ids. apply in_map_iff. exists s. split; [exact Hs|].
    apply filter_In. split; [exact Hin|]. apply N.eqb_eq. congruence. }
  congruence.
Qed.

(** C8: deleting session [S] from a reachable store leaves no session, plot,
    detection, mass estimate or summary of [S]; every child row that
    remains still has its session; and no row of the joins behind the
    cross-session views belongs to [S]. *)
Theorem delete_session_cascades (d : db) (S : uuid) :
  reachable d ->
  let d' := fst (run d (delete_analysis_sessions
                          (fun s => N.eqb (AnalysisSession.id s) S))) in
  ~ In S (session_ids (analysis_sessions d'))
  /\ (forall r, In r (analysis_plots d') -> AnalysisPlot.analysis_id r <> S)
  /\ (forall r, In r (isotope_detections d') ->
                IsotopeDetection.analysis_id r <> S)
  /\ (forall r, In r (mass_estimates d') -> MassEstimate.analysis_id r <> S)
  /\ (forall r, In r (analysis_summary d') ->
                AnalysisSummary.analysis_id r <> S)
  /\ children_have_session (analysis_sessions d') d' = true
  /\ (forall s m, In (s, m) (sessions_join_mass_estimates d') ->
                  AnalysisSession.id s <> S /\ MassEstimate.analysis_id m <> S)
  /\ (forall s p, In (s, p) (sessions_join_plots d') ->
                  AnalysisSession.id s <> S /\ AnalysisPlot.analysis_id p <> S).
Proof.
  intros R d'.
  assert (W' : well_formed d') by (apply run_well_formed, reachable_well_formed, R).
  apply reachable_well_formed in R. destruct R.
  assert (HS : ~ In S (session_ids (analysis_sessions d'))).
  { simpl. unfold session_ids, delete_where. intro H.
    apply in_map_iff in H. destruct H as (s & E & Hs).
    apply filter_In in Hs. destruct Hs as [_ Hs].
    apply negb_true_iff, N.eqb_neq in Hs. contradiction. }
  assert (HP : forall r, In r (analysis_plots d') ->
                         AnalysisPlot.analysis_id r <> S).
  { intros r. simpl. now apply cascade_removes. }
  assert (HD : forall r, In r (isotope_detections d') ->
                         IsotopeDetection.analysis_id r <> S).
  { intros r. simpl. now apply cascade_removes. }
  assert (HM : forall r, In r (mass_estimates d') ->
                         MassEstimate.analysis_id r <> S).
  { intros r. simpl. now apply cascade_removes. }
  assert (HA : forall r, In r (analysis_summary d') ->
                         AnalysisSummary.analysis_id r <> S).
  { intros r. simpl. now apply cascade_removes. }
  repeat split; auto.
  - destruct W'. unfold children_have_session.
    rewrite !andb_true_iff, !forallb_forall.
    rewrite Forall_forall in *. auto.
  - apply in_join in H. destruct H as (Hs & _).
    intro E. apply HS. rewrite <- E. now apply in_map.
  - apply in_join in H. destruct H as (_ & Hm & _). now apply HM.
  - apply in_join in H. destruct H as (Hs & _).
    intro E. apply HS. rewrite <- E. now apply in_map.
  - apply in_join in H. destruct H as (_ & Hp & _). now apply HP.
Qed.

Lemma delete_session_cascades_witness :
  ~ In 3%N (session_ids
              (analysis_sessions
                 (fst (run Examples.three_estimates
                         (delete_analysis_sessions
                            (fun s => N.eqb (AnalysisSession.id s) 3))))))
  /\ children_have_session
       (analysis_sessions
          (fst (run Examples.three_estimates
                  (delete_analysis_sessions
                     (fun s => N.eqb (AnalysisSession.id s) 3)))))
       (fst (run Examples.three_estimates
               (delete_analysis_sessions
                  (fun s => N.eqb (AnalysisSession.id s) 3))))
     = true.
Proof.
  assert (R : reachable Examples.three_estimates).
  { unfold Examples.three_estimates.
    apply reachable_run_all, reachable_empty. }
  destruct (delete_session_cascades Examples.three_estimates 3 R)
    as (H1 & _ & _ & _ & _ & H2 & _).
  split; [exact H1|exact H2].
Defined.

Example delete_session_3 :
  map MassEstimate.id
      (mass_estimates
         (fst (run Examples.three_estimates
                 (delete_analysis_sessions
                    (fun s => N.eqb (AnalysisSession.id s) 3)))))
  = [1%N; 2%N].
Proof. reflexivity. Qed.

(** ** Session summaries *)

Lemma filter_none {A} (f : A -> bool) l :
  (forall x, In x l -> f x = false) -> filter f l = [].
Proof.
  induction l as [|x l IH]; simpl; intro H; [reflexivity|].
  rewrite (H x (or_introl eq_refl)). apply IH. auto.
Qed.

Lemma summary_at_most_one t s :
  unique_rows AnalysisSummary.conflicts t ->
  (List.length (filter (fun r => N.eqb (AnalysisSummary.analysis_id r) s) t)
   <= 1)%nat.
Proof.
  unfold unique_rows. induction 1 as [|x l Hx Hl IH]; simpl.
  - lia.
  - destruct (N.eqb (AnalysisSummary.analysis_id x) s) eqn:E; [|exact IH].
    apply N.eqb_eq in E.
    assert (N : filter (fun r => N.eqb (AnalysisSummary.analysis_id r) s) l
                = []).
    { apply filter_none.
      intros y Hy. rewrite Forall_forall in Hx. specialize (Hx y Hy).
      unfold AnalysisSummary.conflicts in Hx.
      apply orb_false_iff in Hx. destruct Hx as [_ Hx].
      rewrite E in Hx. rewrite N.eqb_sym. now rewrite Hx. }
    rewrite N. simpl. lia.
Qed.

(** C2, as stated, fails: a store reached by inserting a session and then a
    summary with a total of 5 g, and no mass estimate, holds a summary that
    differs from the sum of the session's masses, which is 0. *)
Lemma summary_total_counterexample :
  reachable Examples.unfounded_summary
  /\ ~ summary_totals_agree Examples.unfounded_summary.
Proof.
  split.
  - unfold Examples.unfounded_summary, Examples.one_session.
    apply reachable_run_all, reachable_run_all, reachable_empty.
  - intro H. specialize (H (Examples.summary 1 1 5)).
    assert (E : 5 == 0) by (apply H; simpl; auto).
    discriminate E.
Qed.

(** C2, amended: the store keeps the total a writer supplies and never
    recomputes it.  In every reachable state a session has at most one
    summary row and its total is not negative; an accepted INSERT stores
    the summary row exactly as written, as the only summary of its session;
    and no statement on [mass_estimates] changes [analysis_summary]. *)
Theorem summary_total_as_written (d : db) :
  reachable d ->
  (forall s, (List.length (session_summary d s) <= 1)%nat)
  /\ (forall r, In r (analysis_summary d) ->
                0 <= AnalysisSummary.total_estimated_mass_g r)
  /\ (forall NEW d',
        exec d (insert_analysis_summary NEW) = Ok d' ->
        session_summary d' (AnalysisSummary.analysis_id NEW) = [NEW]
        /\ session_mass_sum d' (AnalysisSummary.analysis_id NEW)
           = session_mass_sum d (AnalysisSummary.analysis_id NEW)
        /\ (AnalysisSummary.total_estimated_mass_g NEW
            == session_mass_sum d (AnalysisSummary.analysis_id NEW) ->
            forall r, In r (session_summary d' (AnalysisSummary.analysis_id NEW)) ->
              AnalysisSummary.total_estimated_mass_g r
              == session_mass_sum d' (AnalysisSummary.analysis_id NEW)))
  /\ (forall st d',
        exec d st = Ok d' ->
        match st with
        | insert_mass_estimates _
        | update_mass_estimates _ _
        | delete_mass_estimates _ => analysis_summary d' = analysis_summary d
        | _ => True
        end).
Proof.
  intro R. apply reachable_well_formed in R. destruct R.
  split; [|split; [|split]].
  - intro s. now apply summary_at_most_one.
  - intros r Hr. rewrite Forall_forall in summary_checked0.
    specialize (summary_checked0 r Hr).
    unfold AnalysisSummary.check in summary_checked0.
    rewrite !andb_true_iff in summary_checked0.
    destruct summary_checked0 as ((C & _) & _). now apply Qgeb_true in C.
  - intros NEW d' H. simpl in H. unfold bind in H.
    destruct (summary_insert _ _ _) as [t|] eqn:E; [|discriminate].
    injection H as <-. apply insert_row_Ok in E.
    destruct E as (-> & _ & U & _). unfold no_trigger in *.
    assert (One : session_summary
                    (with_summary (analysis_summary d ++ [NEW]) d)
                    (AnalysisSummary.analysis_id NEW) = [NEW]).
    { unfold session_summary. simpl. rewrite filter_app. simpl.
      rewrite N.eqb_refl. rewrite filter_none; [reflexivity|].
      intros x Hx.
      rewrite (existsb_conflicts_false AnalysisSummary.conflicts) in U.
      specialize (U x Hx). unfold AnalysisSummary.conflicts in U.
      apply orb_false_iff in U. destruct U as [_ U].
      now rewrite N.eqb_sym. }
    split; [exact One|]. split; [reflexivity|].
    intros Hsum r Hr. rewrite One in Hr. destruct Hr as [<-|[]].
    exact Hsum.
  - intros st d' H. destruct st; try exact I; simpl in H; unfold bind in H.
    + destruct (mass_estimates_insert _ _ _); [|discriminate].
      now injection H as <-.
    + destruct (mass_estimates_update _ _ _ _); [|discriminate].
      now injection H as <-.
    + now injection H as <-.
Qed.

Lemma summary_total_as_written_witness :
  (List.length (session_summary Examples.unfounded_summary 1) <= 1)%nat
  /\ session_summary Examples.unfounded_summary 1 = [Examples.summary 1 1 5].
Proof.
  assert (R : reachable Examples.one_session).
  { unfold Examples.one_session. apply reachable_run_all, reachable_empty. }
  assert (R' : reachable Examples.unfounded_summary).
  { unfold Examples.unfounded_summary. now apply reachable_run_all. }
  split.
  - exact (proj1 (summary_total_as_written _ R') 1%N).
  - destruct (summary_total_as_written _ R) as (_ & _ & H & _).
    exact (proj1 (H (Examples.summary 1 1 5) Examples.unfounded_summary
                    eq_refl)).
Defined.

(** ** Sort keys are total preorders *)

Section ComparatorFacts.
Context {A : Type} (cmp : A -> A -> comparison) (C : Comparator cmp).

Lemma cmp_eq_sym a b : cmp a b = Eq -> cmp b a = Eq.
Proof. intro H. now rewrite cmp_antisym, H. Qed.

Lemma cmp_gt_lt a b : cmp a b = Gt <-> cmp b a = Lt.
Proof.
  rewrite (cmp_antisym b a). destruct (cmp b a); simpl; split; congruence.
Qed.

Lemma cmp_lt_eq_trans a b c : cmp a b = Lt -> cmp b c = Eq -> cmp a c = Lt.
Proof.
  intros H1 H2. apply cmp_eq_sym in H2.
  apply cmp_gt_lt. rewrite (cmp_eq_compat _ _ _ H2).
  now apply cmp_gt_lt.
Qed.

Lemma no_later_total a b :
  no_later (cmp a b) = true \/ no_later (cmp b a) = true.
Proof.
  rewrite (cmp_antisym a b). destruct (cmp a b); simpl; auto.
Qed.

Lemma no_later_trans a b c :
  no_later (cmp a b) = true -> no_later (cmp b c) = true ->
  no_later (cmp a c) = true.
Proof.
  destruct (cmp a b) eqn:E1; try discriminate; intros _;
    destruct (cmp b c) eqn:E2; try discriminate; intros _.
  - now rewrite (cmp_eq_compat _ _ _ E1), E2.
  - now rewrite (cmp_eq_compat _ _ _ E1), E2.
  - now rewrite (cmp_lt_eq_trans _ _ _ E1 E2).
  - now rewrite (cmp_lt_trans _ _ _ E1 E2).
Qed.

Lemma order_by_cmp_sorted l :
  StronglySorted (fun a b => no_later (cmp a b) = true)
                 (order_by (fun a b => no_later (cmp a b)) l).
Proof.
  apply order_by_sorted.
  - intros; apply no_later_total.
  - intros x y z; apply no_later_trans.
Qed.
End ComparatorFacts.

#[export] Instance Z_comparator : Comparator Z.compare.
Proof.
  split.
  - intros a b. apply Z.compare_antisym.
  - intros a b c. rewrite !Z.compare_lt_iff. lia.
  - intros a b c H. apply Z.compare_eq in H. now subst.
Qed.

#[export] Instance Q_comparator : Comparator Qcompare.
Proof.
  split.
  - intros a b. symmetry. apply Qcompare_antisym.
  - intros a b c. rewrite <- !Qlt_alt. apply Qlt_trans.
  - intros a b c H. apply Qeq_alt in H. now rewrite H.
Qed.

Lemma Ascii_compare_lt_trans a b c :
  Ascii.compare a b = Lt -> Ascii.compare b c = Lt -> Ascii.compare a c = Lt.
Proof.
  unfold Ascii.compare. rewrite !N.compare_lt_iff. apply N.lt_trans.
Qed.

Lemma String_compare_lt_trans a : forall b c,
  String.compare a b = Lt -> String.compare b c = Lt -> String.compare a c = Lt.
Proof.
  induction a as [|x a IH]; intros [|y b] [|z c]; simpl;
    try discriminate; try reflexivity.
  destruct (Ascii.compare x y) eqn:E1; try discriminate;
    destruct (Ascii.compare y z) eqn:E2; try discriminate.
  - apply Ascii.compare_eq_iff in E1, E2. subst.
    assert (E : Ascii.compare z z = Eq) by apply N.compare_refl.
    rewrite E. apply IH.
  - apply Ascii.compare_eq_iff in E1. subst. now rewrite E2.
  - apply Ascii.compare_eq_iff in E2. subst. now rewrite E1.
  - now rewrite (Ascii_compare_lt_trans _ _ _ E1 E2).
Qed.

#[export] Instance String_comparator : Comparator String.compare.
Proof.
  split.
  - intros a b. apply String.compare_antisym.
  - intros a b c. apply String_compare_lt_trans.
  - intros a b c H. apply String.compare_eq_iff in H. now subst.
Qed.

Lemma desc_comparator {A} (cmp : A -> A -> comparison) :
  Comparator cmp -> Comparator (desc cmp).
Proof.
  intro C. unfold desc. split.
  - intros a b. apply cmp_antisym.
  - intros a b c H1 H2. exact (cmp_lt_trans _ _ _ H2 H1).
  - intros a b c H. rewrite (cmp_antisym a c), (cmp_antisym b c).
    f_equal. apply cmp_eq_compat. now apply cmp_eq_sym.
Qed.


Lemma nulls_first_comparator {A} (cmp : A -> A -> comparison) :
  Comparator cmp -> Comparator (nulls_first cmp).
Proof.
  intro C. split.
  - intros [a|] [b|]; simpl; auto. apply cmp_antisym.
  - intros [a|] [b|] [c|]; simpl; try discriminate; auto.
    apply cmp_lt_trans.
  - intros [a|] [b|] [c|]; simpl; try discriminate; auto.
    apply cmp_eq_compat.
Qed.

(** A key read off a row, and two keys in lexicographic order. *)
Lemma key_comparator {A K} (key : A -> K) (cmp : K -> K -> comparison) :
  Comparator cmp -> Comparator (fun a b => cmp (key a) (key b)).
Proof.
  intro C. split; intros.
  - apply cmp_antisym.
  - eapply cmp_lt_trans; eassumption.
  - now apply cmp_eq_compat.
Qed.

Lemma lex_comparator {A} (c1 c2 : A -> A -> comparison) :
  Comparator c1 -> Comparator c2 ->
  Comparator (fun a b => lex (c1 a b) (c2 a b)).
Proof.
  intros C1 C2. split.
  - intros a b. rewrite (cmp_antisym (cmp:=c1) a b), (cmp_antisym (cmp:=c2) a b).
    destruct (c1 a b); reflexivity.
  - intros a b c. unfold lex.
    destruct (c1 a b) eqn:E1; try discriminate;
      destruct (c1 b c) eqn:E2; try discriminate; intros H1 H2.
    + rewrite (cmp_eq_compat _ _ _ E1), E2. eapply cmp_lt_trans; eassumption.
    + now rewrite (cmp_eq_compat _ _ _ E1), E2.
    + now rewrite (cmp_lt_eq_trans c1 C1 _ _ _ E1 E2).
    + now rewrite (cmp_lt_trans _ _ _ E1 E2).
  - intros a b c. unfold lex. destruct (c1 a b) eqn:E1; try discriminate.
    intro E2. rewrite (cmp_eq_compat _ _ _ E1).
    now rewrite (cmp_eq_compat _ _ _ E2).
Qed.

(** ** RANK() is the standard competition rank *)

Lemma String_compare_refl s : String.compare s s = Eq.
Proof.
  induction s as [|c s IH]; simpl; [reflexivity|].
  unfold Ascii.compare. now rewrite N.compare_refl.
Qed.

Lemma Permutation_filter {A} (f : A -> bool) l l' :
  Permutation l l' -> Permutation (filter f l) (filter f l').
Proof.
  induction 1 as [|x l l' H IH|x y l|l l' l'' H1 IH1 H2 IH2]; simpl.
  - constructor.
  - destruct (f x); [now constructor|exact IH].
  - destruct (f x), (f y); try apply Permutation_refl. apply perm_swap.
  - eapply perm_trans; eassumption.
Qed.

Lemma filter_length_ext_in {A} (f g : A -> bool) l :
  (forall x, In x l -> f x = g x) ->
  List.length (filter f l) = List.length (filter g l).
Proof. intro H. now rewrite (filter_ext_in _ _ _ H). Qed.

Section WindowFacts.
Context {A : Type}.
Variable partition_key : A -> text.
Variable order_key : A -> real.

#[local] Abbreviation same_part := (same_partition partition_key).
#[local] Abbreviation wle :=
  (fun a b => no_later (window_order partition_key order_key a b) = true).
#[local] Abbreviation ahead := (ahead_of partition_key order_key).
#[local] Abbreviation part := (partition_of partition_key).
#[local] Abbreviation walk_state := (walk_state partition_key order_key).

Lemma window_order_comparator :
  Comparator (window_order partition_key order_key).
Proof.
  unfold window_order.
  apply (lex_comparator
           (fun a b => String.compare (partition_key a) (partition_key b))
           (fun a b => desc Qcompare (order_key a) (order_key b))).
  - apply (key_comparator partition_key String.compare), String_comparator.
  - apply (key_comparator order_key (desc Qcompare)).
    apply desc_comparator, Q_comparator.
Qed.

Lemma same_part_eq a b : same_part a b = true <-> partition_key a = partition_key b.
Proof. apply String.eqb_eq. Qed.

Lemma wle_key a b :
  wle a b -> same_part a b = true -> order_key b <= order_key a.
Proof.
  unfold window_order, desc. intros H E. apply same_part_eq in E.
  rewrite E, String_compare_refl in H. simpl in H.
  apply Qle_alt. intro G. now rewrite G in H.
Qed.

Lemma wle_between a b c :
  wle a b -> wle b c -> same_part a c = true -> same_part a b = true.
Proof.
  unfold window_order. intros H1 H2 E. apply same_part_eq in E.
  apply same_part_eq. rewrite <- E in H2.
  rewrite (String.compare_antisym (partition_key b) (partition_key a)) in H2.
  destruct (String.compare (partition_key a) (partition_key b)) eqn:C.
  - now apply String.compare_eq_iff.
  - simpl in H2. discriminate.
  - simpl in H1. discriminate.
Qed.

(** In a sorted list, a row sorts no later than the rows after it. *)
Lemma sorted_before pre p l b :
  StronglySorted wle (pre ++ p :: l) -> In b pre -> wle b p.
Proof.
  induction pre as [|y pre IH]; [contradiction|].
  simpl. intros S Hb. inversion S as [|? ? S' F]; subst.
  destruct Hb as [<-|Hb]; [|now apply IH].
  rewrite Forall_app in F. destruct F as [_ F]. now inversion F.
Qed.

Lemma sorted_last pre p l :
  StronglySorted wle (pre ++ p :: l) -> Forall (fun x => wle p x) l.
Proof.
  induction pre as [|y pre IH]; simpl; intro S;
    inversion S; subst; auto.
Qed.

Lemma ahead_self p : ahead p [p] = [].
Proof.
  unfold ahead_of. simpl. rewrite Qgtb_irrefl by reflexivity.
  now rewrite andb_false_r.
Qed.

Lemma walk_step pre p x l rownum rank :
  StronglySorted wle (pre ++ p :: x :: l) ->
  walk_state pre p rownum rank ->
  let '(rownum', rank') :=
    if same_part p x
    then (S rownum, if peers order_key p x then rank else S rownum)
    else (1%nat, 1%nat) in
  walk_state (pre ++ [p]) x rownum' rank'.
Proof.
  intros S [Hn Hr].
  assert (Hpx : wle p x).
  { apply sorted_last in S. now inversion S. }
  assert (Hb : forall b, In b (pre ++ [p]) -> b = p \/ wle b p).
  { intros b Hb. apply in_app_or in Hb. destruct Hb as [Hb|[<-|[]]].
    - right. exact (sorted_before _ _ _ _ S Hb).
    - now left. }
  destruct (same_part p x) eqn:E.
  - assert (Ek : partition_key p = partition_key x) by now apply same_part_eq.
    assert (Ep : forall b, same_part b x = same_part b p).
    { intro b. unfold same_partition. now rewrite Ek. }
    assert (Hk : order_key x <= order_key p) by now apply wle_key.
    split.
    + unfold partition_of. rewrite filter_app. simpl.
      unfold same_partition at 2. rewrite String.eqb_refl.
      rewrite length_app. simpl. rewrite Hn. unfold partition_of.
      rewrite (filter_ext _ _ Ep). lia.
    + destruct (peers order_key p x) eqn:P.
      * apply Qeq_bool_iff in P. rewrite Hr. f_equal.
        unfold ahead_of. rewrite filter_app. simpl.
        rewrite E, (Qgtb_irrefl _ _ P). simpl. rewrite app_nil_r.
        apply filter_length_ext_in. intros b _. rewrite Ep. f_equal.
        unfold Qgtb. now rewrite P.
      * rewrite Hn. f_equal. unfold ahead_of, partition_of.
        apply filter_length_ext_in. intros b Hin. rewrite Ep.
        destruct (same_part b p) eqn:Eb; [|reflexivity]. simpl.
        symmetry. apply Qgtb_true.
        assert (Hbp : order_key p <= order_key b).
        { destruct (Hb b Hin) as [->|W]; [apply Qle_refl|].
          now apply wle_key. }
        apply Qlt_le_trans with (order_key p); [|exact Hbp].
        apply Qle_lt_or_eq in Hk. destruct Hk as [Hk|Hk]; [exact Hk|].
        unfold peers in P. apply Qeq_bool_neq in P.
        exfalso. apply P. now symmetry.
  - assert (None_ : forall b, In b (pre ++ [p]) -> same_part b x = false).
    { intros b Hin. destruct (same_part b x) eqn:Eb; [|reflexivity].
      assert (same_part b p = true).
      { destruct (Hb b Hin) as [->|W].
        - unfold same_partition. apply String.eqb_refl.
        - now apply (wle_between b p x). }
      apply same_part_eq in H, Eb. unfold same_partition in E.
      rewrite <- H, Eb, String.eqb_refl in E. discriminate. }
    split.
    + unfold partition_of. rewrite filter_app. simpl.
      unfold same_partition at 2. rewrite String.eqb_refl.
      rewrite (filter_none _ _ None_). reflexivity.
    + f_equal. unfold ahead_of. rewrite filter_none; [reflexivity|].
      intros b Hin. now rewrite (None_ b Hin).
Qed.

Lemma rank_rows_fst l : forall prev rownum rank,
  map fst (rank_rows partition_key order_key prev rownum rank l) = l.
Proof.
  induction l as [|x l IH]; simpl; intros; [reflexivity|].
  destruct (match prev with
            | Some p =>
                if same_part p x
                then (S rownum, if peers order_key p x then rank else S rownum)
                else (1%nat, 1%nat)
            | None => (1%nat, 1%nat)
            end) as [rownum' rank'].
  simpl. now rewrite IH.
Qed.

Lemma rank_rows_walk l : forall pre p rownum rank out1 r k out2,
  StronglySorted wle (pre ++ p :: l) ->
  walk_state pre p rownum rank ->
  rank_rows partition_key order_key (Some p) rownum rank l
  = out1 ++ (r, k) :: out2 ->
  k = S (List.length (ahead r (pre ++ p :: map fst out1))).
Proof.
  induction l as [|x l IH]; intros pre p rownum rank out1 r k out2 S W H.
  - destruct out1; discriminate.
  - simpl in H. pose proof (walk_step pre p x l rownum rank S W) as W'.
    destruct (if same_part p x
              then (Datatypes.S rownum,
                    if peers order_key p x then rank else Datatypes.S rownum)
              else (1%nat, 1%nat)) as [rownum' rank'].
    destruct out1 as [|o out1]; simpl in H.
    + injection H as <- <- _. simpl. apply W'.
    + injection H as <- H. simpl.
      replace (pre ++ p :: x :: map fst out1)
        with ((pre ++ [p]) ++ x :: map fst out1)
        by now rewrite <- app_assoc.
      apply (IH (pre ++ [p]) x rownum' rank' out1 r k out2).
      * now rewrite <- app_assoc.
      * exact W'.
      * exact H.
Qed.

(** No row after [r] in a sorted list is ahead of it. *)
Lemma ahead_after r post :
  StronglySorted wle (r :: post) -> ahead r (r :: post) = [].
Proof.
  intro S. inversion S as [|? ? _ F]; subst.
  unfold ahead_of. apply filter_none. intros b [<-|Hb].
  - rewrite Qgtb_irrefl by reflexivity. apply andb_false_r.
  - rewrite Forall_forall in F. specialize (F b Hb).
    destruct (same_part b r) eqn:E; [|reflexivity]. simpl.
    apply Qgtb_false. apply wle_key; [exact F|].
    unfold same_partition in *. now rewrite String.eqb_sym.
Qed.

Lemma StronglySorted_app_r {B} (R : B -> B -> Prop) l1 l2 :
  StronglySorted R (l1 ++ l2) -> StronglySorted R l2.
Proof.
  induction l1 as [|x l1 IH]; simpl; intro S; [exact S|].
  inversion S; subst. auto.
Qed.

Lemma rank_rows_sorted l r k :
  StronglySorted wle l ->
  In (r, k) (rank_rows partition_key order_key None 0 0 l) ->
  k = S (List.length (ahead r l)).
Proof.
  intros S Hin. destruct l as [|x l]; [contradiction|].
  assert (Efst := rank_rows_fst (x :: l) None 0%nat 0%nat).
  simpl in Hin, Efst.
  assert (W : walk_state [] x 1 1).
  { split; simpl.
    - unfold same_partition. now rewrite String.eqb_refl.
    - reflexivity. }
  destruct Hin as [[= <- <-]|Hin].
  - now rewrite (ahead_after x l S).
  - apply in_split in Hin. destruct Hin as (out1 & out2 & Hout).
    rewrite Hout in Efst. injection Efst as Efst.
    rewrite map_app in Efst. simpl in Efst.
    rewrite (rank_rows_walk l [] x 1%nat 1%nat out1 r k out2 S W Hout).
    f_equal. f_equal.
    assert (Z : ahead r (r :: map fst out2) = []).
    { apply ahead_after.
      apply (StronglySorted_app_r _ (x :: map fst out1)).
      simpl. now rewrite Efst. }
    rewrite <- Efst.
    change ([] ++ x :: map fst out1) with (x :: map fst out1).
    change (x :: map fst out1 ++ r :: map fst out2)
      with ((x :: map fst out1) ++ r :: map fst out2).
    unfold ahead_of in *. now rewrite filter_app, Z, app_nil_r.
Qed.

Lemma RANK_fst l :
  map fst (RANK partition_key order_key l)
  = order_by (fun a b => no_later (window_order partition_key order_key a b)) l.
Proof. apply rank_rows_fst. Qed.

(** The rank of a row is one more than the number of rows of its
    partition with a strictly greater order key. *)
Lemma RANK_spec l r k :
  In (r, k) (RANK partition_key order_key l) ->
  k = S (List.length (ahead r l)).
Proof.
  unfold RANK. intro Hin.
  apply rank_rows_sorted in Hin.
  - rewrite Hin. f_equal. apply Permutation_length, Permutation_filter.
    apply Permutation_sym, order_by_perm.
  - apply (@order_by_cmp_sorted _ _ window_order_comparator).
Qed.
End WindowFacts.

(** ** Lists: filters, maps and permutations *)

Lemma filter_filter {A} (f g : A -> bool) l :
  filter g (filter f l) = filter (fun x => f x && g x) l.
Proof.
  induction l as [|x l IH]; simpl; [reflexivity|].
  destruct (f x); simpl; [|exact IH].
  destruct (g x); now rewrite IH.
Qed.

Lemma filter_map_swap {A B} (h : A -> B) (f : B -> bool) l :
  filter f (map h l) = map h (filter (fun x => f (h x)) l).
Proof.
  induction l as [|x l IH]; simpl; [reflexivity|].
  destruct (f (h x)); simpl; now rewrite IH.
Qed.

Lemma filter_all {A} (f : A -> bool) l :
  Forall (fun x => f x = true) l -> filter f l = l.
Proof.
  induction 1 as [|x l Hx Hl IH]; simpl; [reflexivity|].
  now rewrite Hx, IH.
Qed.

Lemma filter_disjoint_perm {A} (f g : A -> bool) l :
  (forall x, In x l -> f x = true -> g x = false) ->
  Permutation (filter f l ++ filter g l) (filter (fun x => f x || g x) l).
Proof.
  induction l as [|x l IH]; simpl; intro H; [constructor|].
  assert (IH' := IH (fun y Hy => H y (or_intror Hy))).
  destruct (f x) eqn:F; simpl.
  - rewrite (H x (or_introl eq_refl) F). now constructor.
  - destruct (g x).
    + apply Permutation_sym, Permutation_cons_app, Permutation_sym, IH'.
    + exact IH'.
Qed.

Lemma StronglySorted_filter_impl {A} (R R' : A -> A -> Prop) (f : A -> bool) l :
  (forall a b, f a = true -> f b = true -> R a b -> R' a b) ->
  StronglySorted R l -> StronglySorted R' (filter f l).
Proof.
  intros H. induction 1 as [|x l S IH F]; simpl; [constructor|].
  destruct (f x) eqn:E; [|exact IH].
  constructor; [exact IH|].
  rewrite Forall_forall in *. intros b Hb. apply filter_In in Hb.
  destruct Hb as [Hb Eb]. auto.
Qed.

(** ** The join of sessions with a child table *)

Lemma has_session_cons s ss a :
  has_session (s :: ss) a = N.eqb (AnalysisSession.id s) a || has_session ss a.
Proof. unfold has_session. simpl. now rewrite N.eqb_sym. Qed.

Lemma join_snd_owned {B} (owner : B -> uuid) ss (t : list B) :
  unique_rows AnalysisSession.conflicts ss ->
  Permutation
    (map snd (join (fun s r => N.eqb (AnalysisSession.id s) (owner r)) ss t))
    (filter (fun r => has_session ss (owner r)) t).
Proof.
  unfold unique_rows, join. induction 1 as [|s ss Hs Hss IH]; simpl.
  - unfold has_session. simpl. now rewrite filter_false.
  - rewrite map_app, map_map. simpl. rewrite map_id.
    rewrite (filter_ext _ _ (fun r => has_session_cons s ss (owner r))).
    eapply perm_trans; [apply Permutation_app_head, IH|].
    apply filter_disjoint_perm. intros r _ E. apply N.eqb_eq in E.
    destruct (has_session ss (owner r)) eqn:Hh; [|reflexivity].
    apply has_session_In in Hh. unfold session_ids in Hh.
    apply in_map_iff in Hh. destruct Hh as (y & Ey & Hy).
    rewrite Forall_forall in Hs. specialize (Hs y Hy).
    unfold AnalysisSession.conflicts in Hs. apply N.eqb_neq in Hs.
    congruence.
Qed.

Lemma join_snd_perm {B} (owner : B -> uuid) ss (t : list B) :
  unique_rows AnalysisSession.conflicts ss ->
  Forall (fun r => has_session ss (owner r) = true) t ->
  Permutation
    (map snd (join (fun s r => N.eqb (AnalysisSession.id s) (owner r)) ss t))
    t.
Proof.
  intros U F. eapply perm_trans; [now apply join_snd_owned|].
  now rewrite filter_all.
Qed.

(** ** The mass ranking *)

Lemma mass_comparison_order_comparator : Comparator mass_comparison_order.
Proof.
  unfold mass_comparison_order.
  apply (lex_comparator
           (fun a b => String.compare (MassComparison.parent_isotope a)
                                      (MassComparison.parent_isotope b))
           (fun a b => desc Qcompare (MassComparison.estimated_mass_g a)
                                     (MassComparison.estimated_mass_g b))).
  - apply (key_comparator MassComparison.parent_isotope String.compare),
      String_comparator.
  - apply (key_comparator MassComparison.estimated_mass_g (desc Qcompare)).
    apply desc_comparator, Q_comparator.
Qed.

#[local] Abbreviation estimate_isotope :=
  (fun x : AnalysisSession.row * MassEstimate.row =>
     MassEstimate.parent_isotope (snd x)).
#[local] Abbreviation estimate_mass :=
  (fun x : AnalysisSession.row * MassEstimate.row =>
     MassEstimate.estimated_mass_g (snd x)).

(** Whatever is read off the rows of the view without looking at the rank
    can be read off the join. *)
Lemma mass_comparison_project {B} d
  (f : MassComparison.row -> bool) (g : MassComparison.row -> B)
  (f' : AnalysisSession.row * MassEstimate.row -> bool)
  (g' : AnalysisSession.row * MassEstimate.row -> B) :
  (forall x k, f (mass_comparison_row (x, k)) = f' x) ->
  (forall x k, g (mass_comparison_row (x, k)) = g' x) ->
  Permutation (map g (filter f (mass_comparison d)))
              (map g' (filter f' (sessions_join_mass_estimates d))).
Proof.
  intros Hf Hg. unfold mass_comparison.
  eapply perm_trans.
  { apply Permutation_map, Permutation_filter, Permutation_sym, order_by_perm. }
  rewrite filter_map_swap, map_map.
  set (R := RANK estimate_isotope estimate_mass (sessions_join_mass_estimates d)).
  assert (E1 : filter (fun x => f (mass_comparison_row x)) R
               = filter (fun x => f' (fst x)) R).
  { apply filter_ext. intros [x k]. apply Hf. }
  assert (E2 : forall l : list (AnalysisSession.row * MassEstimate.row * nat),
             map (fun x => g (mass_comparison_row x)) l
             = map g' (map fst l)).
  { intro l. rewrite map_map. apply map_ext. intros [x k]. apply Hg. }
  rewrite E1, E2, <- filter_map_swap. unfold R. rewrite RANK_fst.
  apply Permutation_map, Permutation_filter, Permutation_sym, order_by_perm.
Qed.

Lemma mass_comparison_count d f f' :
  (forall x k, f (mass_comparison_row (x, k)) = f' x) ->
  List.length (filter f (mass_comparison d))
  = List.length (filter f' (sessions_join_mass_estimates d)).
Proof.
  intro Hf.
  pose proof (mass_comparison_project d f (fun _ => tt) f' (fun _ => tt) Hf
                (fun _ _ => eq_refl)) as P.
  apply Permutation_length in P. now rewrite !length_map in P.
Qed.

Lemma StronglySorted_app_inv {A} (R : A -> A -> Prop) l1 l2 :
  StronglySorted R (l1 ++ l2) ->
  forall a b, In a l1 -> In b l2 -> R a b.
Proof.
  induction l1 as [|x l1 IH]; simpl; intros S a b Ha Hb; [contradiction|].
  inversion S as [|? ? S' F]; subst. destruct Ha as [<-|Ha].
  - rewrite Forall_forall in F. apply F, in_or_app. now right.
  - now apply IH.
Qed.

Lemma mass_ranking_sorted d isotope :
  StronglySorted
    (fun a b => MassComparison.estimated_mass_g b
                <= MassComparison.estimated_mass_g a)
    (mass_ranking d isotope).
Proof.
  unfold mass_ranking, mass_comparison.
  eapply StronglySorted_filter_impl;
    [|apply (@order_by_cmp_sorted _ _ mass_comparison_order_comparator)].
  intros a b Ea Eb H. simpl in H.
  apply String.eqb_eq in Ea, Eb. unfold mass_comparison_order, desc in H.
  rewrite Ea, Eb, String_compare_refl in H. simpl in H.
  apply Qle_alt. intro G. now rewrite G in H.
Qed.

Lemma mass_ranking_rank d isotope a :
  In a (mass_ranking d isotope) ->
  MassComparison.mass_rank a
  = S (List.length
         (filter (fun b => Qgtb (MassComparison.estimated_mass_g b)
                                (MassComparison.estimated_mass_g a))
                 (mass_ranking d isotope))).
Proof.
  unfold mass_ranking at 1. intro Hin. apply filter_In in Hin.
  destruct Hin as [Hin Ea]. apply String.eqb_eq in Ea.
  unfold mass_comparison in Hin.
  apply (Permutation_in _ (Permutation_sym (order_by_perm _ _))) in Hin.
  apply in_map_iff in Hin. destruct Hin as ([[s m] k] & <- & Hin).
  apply RANK_spec in Hin. simpl in Ea |- *. rewrite Hin. f_equal.
  unfold mass_ranking. rewrite filter_filter.
  rewrite (mass_comparison_count d _
             (fun x => String.eqb (MassEstimate.parent_isotope (snd x)) isotope
                       && Qgtb (MassEstimate.estimated_mass_g (snd x))
                               (MassEstimate.estimated_mass_g m)))
    by (intros [s' m'] k'; reflexivity).
  unfold ahead_of, same_partition. simpl. now rewrite Ea.
Qed.

Lemma Qgtb_or_eq x y z :
  z < y ->
  (y <= x -> Qgtb x z = true /\ Qgtb x y || Qeq_bool x y = true
             /\ (Qgtb x y = true -> Qeq_bool x y = false))
  /\ (x <= z -> Qgtb x z = false /\ Qgtb x y = false /\ Qeq_bool x y = false).
Proof.
  intro Hzy. split; intro H.
  - split; [|split].
    + apply Qgtb_true. now apply Qlt_le_trans with y.
    + apply Qle_lt_or_eq in H. destruct H as [H|H].
      * apply Qgtb_true in H. now rewrite H.
      * assert (E : Qeq_bool x y = true) by (apply Qeq_bool_iff; now symmetry).
        rewrite E. apply orb_true_r.
    + intro G. apply Qgtb_true in G.
      destruct (Qeq_bool x y) eqn:E; [|reflexivity].
      apply Qeq_bool_iff in E. rewrite E in G. now apply Qlt_irrefl in G.
  - assert (Hxy : x < y) by now apply Qle_lt_trans with z.
    split; [|split].
    + now apply Qgtb_false.
    + apply Qgtb_false. now apply Qlt_le_weak.
    + destruct (Qeq_bool x y) eqn:E; [|reflexivity].
      apply Qeq_bool_iff in E. rewrite E in Hxy. now apply Qlt_irrefl in Hxy.
Qed.

(** C4: for a given isotope the ranking lists the mass estimates of all
    sessions for that isotope by non-increasing mass; equal masses have
    equal ranks; the rank of an estimate is one more than the number of
    estimates with a strictly greater mass, so that the rank after a group
    of ties is the rank of the group plus its size; and masses 5, 5, 3
    receive ranks 1, 1, 3. *)
Theorem mass_ranking_competition :
  (forall (d : db) (isotope : text),
     let ranking := mass_ranking d isotope in
     let mass := MassComparison.estimated_mass_g in
     let rank := MassComparison.mass_rank in
     StronglySorted (fun a b => mass b <= mass a) ranking
     /\ (forall a b, In a ranking -> In b ranking ->
                     mass a == mass b -> rank a = rank b)
     /\ (forall a, In a ranking ->
           rank a
           = S (List.length (filter (fun b => Qgtb (mass b) (mass a)) ranking)))
     /\ (forall l1 a b l2, ranking = l1 ++ a :: b :: l2 -> mass b < mass a ->
           rank b
           = (rank a
              + List.length
                  (filter (fun c => Qeq_bool (mass c) (mass a)) ranking))%nat)
     /\ (reachable d ->
         Permutation
           (map mass ranking)
           (map MassEstimate.estimated_mass_g
              (filter (fun m => String.eqb (MassEstimate.parent_isotope m)
                                           isotope)
                      (mass_estimates d)))))
  /\ map (fun r => (MassComparison.estimated_mass_g r,
                    MassComparison.mass_rank r))
         (mass_ranking Examples.three_estimates "Cs-137")
     = [(5, 1%nat); (5, 1%nat); (3, 3%nat)].
Proof.
  split; [|reflexivity].
  intros d isotope ranking mass rank.
  assert (Srt := mass_ranking_sorted d isotope).
  assert (Rk := mass_ranking_rank d isotope).
  fold ranking mass rank in Srt, Rk.
  split; [exact Srt|]. split; [|split; [exact Rk|split]].
  - intros a b Ha Hb E. rewrite (Rk a Ha), (Rk b Hb). f_equal.
    apply filter_length_ext_in. intros c _. unfold Qgtb. now rewrite E.
  - intros l1 a b l2 E Hlt.
    assert (Ha : In a ranking) by (rewrite E; apply in_or_app; simpl; auto).
    assert (Hb : In b ranking) by (rewrite E; apply in_or_app; simpl; auto).
    rewrite (Rk a Ha), (Rk b Hb). simpl. f_equal.
    rewrite <- length_app.
    assert (Cases : forall c, In c ranking ->
                      mass a <= mass c \/ mass c <= mass b).
    { intros c Hc. rewrite E in Hc, Srt. apply in_app_or in Hc.
      destruct Hc as [Hc|[<-|Hc]].
      - left. apply (StronglySorted_app_inv _ _ _ Srt c a Hc). simpl; auto.
      - left. apply Qle_refl.
      - right.
        change (l1 ++ a :: b :: l2) with (l1 ++ [a] ++ b :: l2) in Srt.
        rewrite app_assoc in Srt. destruct Hc as [<-|Hc]; [apply Qle_refl|].
        apply StronglySorted_app_r in Srt.
        inversion Srt as [|? ? _ F]; subst.
        rewrite Forall_forall in F. now apply F. }
    rewrite (filter_ext_in
               (fun c => Qgtb (mass c) (mass b))
               (fun c => Qgtb (mass c) (mass a) || Qeq_bool (mass c) (mass a))).
    + apply Permutation_length, Permutation_sym, filter_disjoint_perm.
      intros c Hc G. destruct (Cases c Hc) as [C|C].
      * destruct (proj1 (Qgtb_or_eq (mass c) (mass a) (mass b) Hlt) C)
          as (_ & _ & N). now apply N.
      * destruct (proj2 (Qgtb_or_eq (mass c) (mass a) (mass b) Hlt) C)
          as (_ & _ & N). exact N.
    + intros c Hc. destruct (Cases c Hc) as [C|C].
      * destruct (proj1 (Qgtb_or_eq (mass c) (mass a) (mass b) Hlt) C)
          as (G1 & G2 & _). now rewrite G1, G2.
      * destruct (proj2 (Qgtb_or_eq (mass c) (mass a) (mass b) Hlt) C)
          as (G1 & G2 & G3). now rewrite G1, G2, G3.
  - intro R. apply reachable_well_formed in R. destruct R.
    unfold ranking, mass_ranking.
    eapply perm_trans.
    { apply (mass_comparison_project d _ mass
               (fun x => String.eqb (MassEstimate.parent_isotope (snd x))
                                    isotope)
               (fun x => MassEstimate.estimated_mass_g (snd x)));
        intros [s m] k; reflexivity. }
    rewrite <- (map_map snd MassEstimate.estimated_mass_g).
    rewrite <- (filter_map_swap snd
                  (fun m => String.eqb (MassEstimate.parent_isotope m) isotope)).
    apply Permutation_map, Permutation_filter.
    now apply (join_snd_perm MassEstimate.analysis_id).
Qed.

Lemma mass_ranking_competition_witness :
  Permutation
    (map MassComparison.estimated_mass_g
         (mass_ranking Examples.three_estimates "Cs-137"))
    (map MassEstimate.estimated_mass_g
         (filter (fun m => String.eqb (MassEstimate.parent_isotope m) "Cs-137")
                 (mass_estimates Examples.three_estimates))).
Proof.
  destruct mass_ranking_competition as [H _].
  destruct (H Examples.three_estimates "Cs-137"%string) as (_ & _ & _ & _ & P).
  apply P. unfold Examples.three_estimates.
  apply reachable_run_all, reachable_empty.
Defined.

(** ** The plot catalog *)

Lemma StronglySorted_impl {A} (R R' : A -> A -> Prop) l :
  (forall a b, R a b -> R' a b) -> StronglySorted R l -> StronglySorted R' l.
Proof.
  intro H. induction 1 as [|x l S IH F]; constructor; [exact IH|].
  eapply Forall_impl; [|exact F]. auto.
Qed.







(** ** The daily rollup *)

Import Platform.

(** C3 fails on the code: the two analyses of [Examples.same_day] were
    completed on one day, with 10 and 20 peaks, yet the rollup of that day
    reports 4 analyses and 12.5 peaks on average, since it counts one row
    per detected isotope. *)
Theorem daily_rollup_counts_isotopes :
  completed_count Examples.same_day = 2%Z
  /\ AVG (map Analysis.total_peaks_found (filter completed Examples.same_day))
     == 15
  /\ exists r,
       Platform.analysis_summary Examples.same_day = [r]
       /\ DailySummary.total_analyses r = 4%Z
       /\ DailySummary.avg_peaks r == 25 # 2
       /\ DailySummary.unique_samples r = 2%Z
       /\ DailySummary.all_isotopes_detected r
          = [Some "Co-60"; Some "Cs-137"; Some "K-40"]%string.
Proof.
  split; [reflexivity|]. split; [reflexivity|].
  eexists. split; [reflexivity|]. simpl. repeat split.
Qed.

(** ** The isotope frequency *)

Section Distinct.
Context {K : Type}.
Variable eqb : K -> K -> bool.
Hypothesis eqb_eq : forall a b, eqb a b = true <-> a = b.

Lemma In_distinct l x : In x (distinct eqb l) <-> In x l.
Proof.
  induction l as [|k l IH]; simpl; [tauto|].
  rewrite filter_In, IH. split.
  - intros [H|[H _]]; auto.
  - intros [H|H]; [now left|].
    destruct (eqb k x) eqn:E.
    + left. now apply eqb_eq.
    + right. split; [exact H|reflexivity].
Qed.

Lemma NoDup_distinct l : NoDup (distinct eqb l).
Proof.
  induction l as [|k l IH]; simpl; constructor.
  - rewrite filter_In. intros [_ H]. cbv beta in H.
    assert (E : eqb k k = true) by now apply eqb_eq.
    now rewrite E in H.
  - now apply NoDup_filter.
Qed.

Lemma distinct_same_length l l' :
  (forall x, In x l <-> In x l') ->
  List.length (distinct eqb l) = List.length (distinct eqb l').
Proof.
  intro H. apply Permutation_length, NoDup_Permutation.
  - apply NoDup_distinct.
  - apply NoDup_distinct.
  - intro x. rewrite !In_distinct. apply H.
Qed.
End Distinct.

Lemma map_result_Ok {A B} (f : A -> result B) (f' : A -> B) l :
  (forall a, In a l -> f a = Ok (f' a)) -> map_result f l = Ok (map f' l).
Proof.
  induction l as [|a l IH]; simpl; intro H; [reflexivity|].
  rewrite (H a (or_introl eq_refl)). simpl.
  rewrite IH by auto. reflexivity.
Qed.

Lemma in_isotope_frequency_rows t a iso :
  In (a, iso) (isotope_frequency_rows t) <->
  In a t /\ completed a = true /\ In iso (Analysis.isotope_families_detected a).
Proof.
  unfold isotope_frequency_rows. rewrite filter_In, in_flat_map. simpl. split.
  - intros [(x & Hx & H) C]. apply in_map_iff in H.
    destruct H as (i & [= -> ->] & Hi). auto.
  - intros (Ha & C & Hi). split; [|exact C].
    exists a. split; [exact Ha|]. now apply in_map.
Qed.

Lemma isotope_frequency_rows_cons a t :
  isotope_frequency_rows (a :: t)
  = (if completed a
     then map (pair a) (Analysis.isotope_families_detected a)
     else [])
    ++ isotope_frequency_rows t.
Proof.
  unfold isotope_frequency_rows. simpl. rewrite filter_app. f_equal.
  destruct (completed a) eqn:C.
  - apply filter_all, Forall_forall. intros x Hx.
    apply in_map_iff in Hx. destruct Hx as (i & <- & _). exact C.
  - apply filter_none. intros x Hx.
    apply in_map_iff in Hx. destruct Hx as (i & <- & _). exact C.
Qed.

Lemma isotope_frequency_rows_count t k :
  COUNT (filter (fun x => String.eqb (snd x) k) (isotope_frequency_rows t))
  = occurrences t k.
Proof.
  unfold occurrences, COUNT. induction t as [|a t IH]; [reflexivity|].
  rewrite isotope_frequency_rows_cons, filter_app, length_app, Nat2Z.inj_add.
  simpl (filter completed (a :: t)). destruct (completed a).
  - simpl map. simpl Zsum. f_equal; [|exact IH].
    rewrite filter_map_swap, length_map. simpl. f_equal.
    apply filter_length_ext_in. intros i _. apply String.eqb_sym.
  - exact IH.
Qed.

Lemma NoDup_filter_eqb k (l : list text) :
  NoDup l ->
  List.length (filter (String.eqb k) l)
  = if existsb (String.eqb k) l then 1%nat else 0%nat.
Proof.
  induction 1 as [|x l Hx Hl IH]; simpl; [reflexivity|].
  destruct (String.eqb k x) eqn:E; simpl; [|exact IH].
  apply String.eqb_eq in E. subst x.
  rewrite filter_none; [reflexivity|].
  intros y Hy. apply String.eqb_neq. intros ->. contradiction.
Qed.

Lemma occurrences_sessions t k :
  Forall (fun a => NoDup (Analysis.isotope_families_detected a)) t ->
  occurrences t k = COUNT (completed_with t k).
Proof.
  intro F. unfold occurrences, completed_with, COUNT.
  assert (F' : Forall (fun a => NoDup (Analysis.isotope_families_detected a))
                      (filter completed t)).
  { rewrite Forall_forall in *. intros a Ha. apply filter_In in Ha. now apply F. }
  induction F' as [|a l Ha Hl IH]; [reflexivity|].
  simpl. rewrite IH, (NoDup_filter_eqb k _ Ha).
  destruct (existsb (String.eqb k) (Analysis.isotope_families_detected a));
    simpl List.length; lia.
Qed.

Lemma isotope_frequency_samples t k x :
  In x (map (fun y => Analysis.sample_name (fst y))
            (filter (fun y => String.eqb (snd y) k) (isotope_frequency_rows t)))
  <-> In x (map Analysis.sample_name (completed_with t k)).
Proof.
  rewrite !in_map_iff. unfold completed_with. split.
  - intros ([a i] & <- & H). apply filter_In in H. destruct H as [H E].
    simpl in E. apply String.eqb_eq in E. subst i.
    apply in_isotope_frequency_rows in H. destruct H as (Ha & C & Hi).
    exists a. split; [reflexivity|]. rewrite !filter_In.
    repeat split; auto. apply existsb_exists. exists k.
    split; [exact Hi|apply String.eqb_refl].
  - intros (a & <- & H). rewrite !filter_In in H. destruct H as [[Ha C] E].
    apply existsb_exists in E. destruct E as (i & Hi & E).
    apply String.eqb_eq in E. subst i.
    exists (a, k). split; [reflexivity|]. apply filter_In. split.
    + now apply in_isotope_frequency_rows.
    + apply String.eqb_refl.
Qed.

(** A group of [isotope_frequency] and the row it yields when there is a
    completed analysis. *)
Lemma isotope_frequency_row_Ok t g :
  completed_count t <> 0%Z ->
  isotope_frequency_row t g
  = Ok {| IsotopeFrequency.isotope := fst g;
          IsotopeFrequency.detection_count := COUNT (snd g);
          IsotopeFrequency.unique_samples :=
            COUNT_DISTINCT
              (map (fun x => Analysis.sample_name (fst x)) (snd g));
          IsotopeFrequency.detection_percentage :=
            ROUND2 (inject_Z (COUNT (snd g)) / inject_Z (completed_count t)
                    * 100) |}.
Proof.
  intro N. unfold isotope_frequency_row, numeric_div.
  destruct (Qeq_bool (inject_Z (completed_count t)) 0) eqn:E; [|reflexivity].
  apply Qeq_bool_iff in E. unfold Qeq in E. simpl in E. lia.
Qed.

(** C6, as stated, fails: one completed analysis whose array lists U-238
    twice gives U-238 a detection count of 2 and a percentage of 200,
    while it was detected in one analysis. *)
Lemma isotope_frequency_counterexample :
  isotope_frequency Examples.listed_twice
  = Ok [{| IsotopeFrequency.isotope := "U-238";
           IsotopeFrequency.detection_count := 2;
           IsotopeFrequency.unique_samples := 1;
           IsotopeFrequency.detection_percentage := 20000 / 100 |}]
  /\ COUNT (completed_with Examples.listed_twice "U-238") = 1%Z
  /\ ~ frequency_counts_sessions Examples.listed_twice.
Proof.
  split; [reflexivity|]. split; [reflexivity|].
  intro H.
  specialize (H _ {| IsotopeFrequency.isotope := "U-238";
                     IsotopeFrequency.detection_count := 2;
                     IsotopeFrequency.unique_samples := 1;
                     IsotopeFrequency.detection_percentage := 20000 / 100 |}
                eq_refl (or_introl eq_refl)).
  discriminate H.
Qed.

(** C6, amended: the frequency view never raises an error and is empty
    when no analysis is completed.  Otherwise it has one row for each
    isotope listed by a completed analysis, with the number of times the
    arrays of the completed analyses list the isotope, the number of
    distinct sample names of the completed analyses that list it, and that
    number of listings as a percentage of the number of completed analyses,
    rounded to two decimals.  When no array lists an isotope twice, the
    number of listings is the number of completed analyses in which the
    isotope was detected. *)
Theorem isotope_frequency_as_computed (t : isotope_analyses) :
  exists rows,
    isotope_frequency t = Ok rows
    /\ (filter completed t = [] -> rows = [])
    /\ NoDup (map IsotopeFrequency.isotope rows)
    /\ (forall iso,
          In iso (map IsotopeFrequency.isotope rows) <->
          exists a, In a t /\ completed a = true
                    /\ In iso (Analysis.isotope_families_detected a))
    /\ (forall r, In r rows ->
          IsotopeFrequency.detection_count r
          = occurrences t (IsotopeFrequency.isotope r)
          /\ IsotopeFrequency.unique_samples r
             = COUNT_DISTINCT
                 (map Analysis.sample_name
                      (completed_with t (IsotopeFrequency.isotope r)))
          /\ IsotopeFrequency.detection_percentage r
             = ROUND2 (inject_Z (IsotopeFrequency.detection_count r)
                       / inject_Z (completed_count t) * 100))
    /\ (Forall (fun a => NoDup (Analysis.isotope_families_detected a)) t ->
        forall r, In r rows ->
          IsotopeFrequency.detection_count r
          = COUNT (completed_with t (IsotopeFrequency.isotope r))).
Proof.
  set (rowsT := isotope_frequency_rows t).
  set (G := group_by snd String.eqb rowsT).
  set (row' := fun g : text * list (Analysis.row * text) =>
         {| IsotopeFrequency.isotope := fst g;
            IsotopeFrequency.detection_count := COUNT (snd g);
            IsotopeFrequency.unique_samples :=
              COUNT_DISTINCT
                (map (fun x => Analysis.sample_name (fst x)) (snd g));
            IsotopeFrequency.detection_percentage :=
              ROUND2 (inject_Z (COUNT (snd g)) / inject_Z (completed_count t)
                      * 100) |}).
  set (by_count := fun a b =>
         no_later (desc Z.compare (IsotopeFrequency.detection_count a)
                                  (IsotopeFrequency.detection_count b))).
  assert (Hkeys : map fst G = distinct String.eqb (map snd rowsT)).
  { unfold G, group_by. rewrite map_map. simpl. apply map_id. }
  assert (HG : forall g, In g G ->
             In (fst g) (map snd rowsT)
             /\ snd g = filter (fun x => String.eqb (snd x) (fst g)) rowsT).
  { intros g Hg. unfold G, group_by in Hg. apply in_map_iff in Hg.
    destruct Hg as (k & <- & Hk). simpl. split; [|reflexivity].
    exact (proj1 (In_distinct String.eqb String.eqb_eq _ _) Hk). }
  assert (Hrows : forall iso, In iso (map snd rowsT) <->
            exists a, In a t /\ completed a = true
                      /\ In iso (Analysis.isotope_families_detected a)).
  { intro iso. rewrite in_map_iff. split.
    - intros ([a i] & <- & H). exists a.
      now apply in_isotope_frequency_rows.
    - intros (a & H). exists (a, iso). split; [reflexivity|].
      now apply in_isotope_frequency_rows. }
  assert (HN : forall g, In g G -> completed_count t <> 0%Z).
  { intros g Hg. apply HG in Hg. destruct Hg as [Hg _].
    apply Hrows in Hg. destruct Hg as (a & Ha & C & _).
    unfold completed_count, COUNT.
    assert (In a (filter completed t)) by (apply filter_In; auto).
    destruct (filter completed t); [contradiction|]. simpl. lia. }
  assert (E : isotope_frequency t = Ok (order_by by_count (map row' G))).
  { unfold isotope_frequency. fold rowsT G.
    rewrite (map_result_Ok _ row'); [reflexivity|].
    intros g Hg. apply isotope_frequency_row_Ok. now apply (HN g). }
  assert (P : Permutation (order_by by_count (map row' G)) (map row' G)).
  { apply Permutation_sym, order_by_perm. }
  assert (Hin : forall r, In r (order_by by_count (map row' G)) ->
            exists g, In g G /\ r = row' g).
  { intros r Hr. apply (Permutation_in _ P) in Hr.
    apply in_map_iff in Hr. destruct Hr as (g & <- & Hg). eauto. }
  assert (Hiso : Permutation
                   (map IsotopeFrequency.isotope
                        (order_by by_count (map row' G)))
                   (distinct String.eqb (map snd rowsT))).
  { eapply perm_trans; [apply Permutation_map, P|].
    rewrite map_map. simpl. fold (@fst text (list (Analysis.row * text))).
    rewrite <- Hkeys. apply Permutation_refl. }
  exists (order_by by_count (map row' G)).
  split; [exact E|]. split; [|split; [|split; [|split]]].
  - intro Hc. assert (HGnil : G = []).
    { destruct G as [|g G'] eqn:EG; [reflexivity|].
      exfalso. apply (HN g); [now left|].
      unfold completed_count. now rewrite Hc. }
    now rewrite HGnil.
  - apply (Permutation_NoDup (Permutation_sym Hiso)).
    apply (NoDup_distinct String.eqb String.eqb_eq).
  - intro iso. rewrite <- Hrows. split; intro H.
    + apply (proj1 (In_distinct String.eqb String.eqb_eq _ _)).
      exact (Permutation_in _ Hiso H).
    + apply (Permutation_in _ (Permutation_sym Hiso)).
      exact (proj2 (In_distinct String.eqb String.eqb_eq _ _) H).
  - intros r Hr. destruct (Hin r Hr) as (g & Hg & ->).
    destruct (HG g Hg) as [_ Eg]. destruct g as [k grp].
    simpl in Eg |- *. subst grp. split; [|split].
    + apply isotope_frequency_rows_count.
    + unfold COUNT_DISTINCT, COUNT. f_equal.
      apply (distinct_same_length String.eqb String.eqb_eq).
      intro x. apply isotope_frequency_samples.
    + reflexivity.
  - intros F r Hr. destruct (Hin r Hr) as (g & Hg & ->).
    destruct (HG g Hg) as [_ Eg]. destruct g as [k grp].
    simpl in Eg |- *. subst grp.
    unfold rowsT. rewrite isotope_frequency_rows_count.
    now apply occurrences_sessions.
Qed.

Lemma isotope_frequency_as_computed_witness :
  exists rows,
    isotope_frequency Examples.none_completed = Ok rows /\ rows = [].
Proof.
  destruct (isotope_frequency_as_computed Examples.none_completed)
    as (rows & E & H & _).
  exists rows. split; [exact E|]. apply H. reflexivity.
Defined.

(** * Further properties *)

Import Schema.

(** ** Constraints in reachable stores *)

Lemma unique_rows_NoDup {row K} (conflicts : row -> row -> bool)
  (key : row -> K) l :
  (forall a b, key a = key b -> conflicts a b = true) ->
  unique_rows conflicts l -> NoDup (map key l).
Proof.
  intro H. unfold unique_rows.
  induction 1 as [|x l Hx Hl IH]; simpl; constructor; [|exact IH].
  intro Hin. apply in_map_iff in Hin. destruct Hin as (y & E & Hy).
  rewrite Forall_forall in Hx. specialize (Hx y Hy).
  rewrite (H x y) in Hx; [discriminate|now symmetry].
Qed.

Lemma ForallOrdPairs_impl {A} (R R' : A -> A -> Prop) l :
  (forall a b, R a b -> R' a b) -> ForallOrdPairs R l -> ForallOrdPairs R' l.
Proof.
  intro H. induction 1 as [|x l Hx Hl IH]; constructor; [|exact IH].
  eapply Forall_impl; [|exact Hx]. auto.
Qed.

(** X1: Primary keys and UNIQUE constraints: in every reachable store no two
    sessions share an id, no two mass estimates share a (session, parent
    isotope) pair, no two summaries share a session, no two detections
    share session, parent, daughter and an equal gamma energy, and no two
    rows of a child table share an id. *)
Theorem reachable_keys_unique (d : db) :
  reachable d ->
  NoDup (session_ids (analysis_sessions d))
  /\ NoDup (map (fun m => (MassEstimate.analysis_id m,
                           MassEstimate.parent_isotope m))
                (mass_estimates d))
  /\ NoDup (map AnalysisSummary.analysis_id (analysis_summary d))
  /\ ForallOrdPairs
       (fun a b =>
          ~ (IsotopeDetection.analysis_id a = IsotopeDetection.analysis_id b
             /\ IsotopeDetection.parent_isotope a
                = IsotopeDetection.parent_isotope b
             /\ IsotopeDetection.daughter_isotope a
                = IsotopeDetection.daughter_isotope b
             /\ IsotopeDetection.gamma_energy_kev a
                == IsotopeDetection.gamma_energy_kev b))
       (isotope_detections d)
  /\ NoDup (map AnalysisPlot.id (analysis_plots d))
  /\ NoDup (map IsotopeDetection.id (isotope_detections d))
  /\ NoDup (map MassEstimate.id (mass_estimates d))
  /\ NoDup (map AnalysisSummary.id (analysis_summary d)).
Proof.
  intro R. apply reachable_well_formed in R. destruct R.
  repeat split.
  - apply (unique_rows_NoDup AnalysisSession.conflicts); [|assumption].
    intros a b E. unfold AnalysisSession.conflicts. rewrite E.
    apply N.eqb_refl.
  - apply (unique_rows_NoDup MassEstimate.conflicts); [|assumption].
    intros a b [= E1 E2].
    unfold MassEstimate.conflicts, MassEstimate.same_estimate.
    rewrite E1, E2, N.eqb_refl, String.eqb_refl. apply orb_true_r.
  - apply (unique_rows_NoDup AnalysisSummary.conflicts); [|assumption].
    intros a b E. unfold AnalysisSummary.conflicts.
    rewrite E, N.eqb_refl. apply orb_true_r.
  - eapply ForallOrdPairs_impl; [|exact detections_unique0].
    intros a b C (E1 & E2 & E3 & E4).
    unfold IsotopeDetection.conflicts in C.
    rewrite E1, E2, E3, N.eqb_refl, !String.eqb_refl in C.
    apply Qeq_bool_iff in E4. rewrite E4 in C.
    rewrite orb_true_r in C. discriminate.
  - apply (unique_rows_NoDup AnalysisPlot.conflicts); [|assumption].
    intros a b E. unfold AnalysisPlot.conflicts. rewrite E.
    apply N.eqb_refl.
  - apply (unique_rows_NoDup IsotopeDetection.conflicts); [|assumption].
    intros a b E. unfold IsotopeDetection.conflicts.
    now rewrite E, N.eqb_refl.
  - apply (unique_rows_NoDup MassEstimate.conflicts); [|assumption].
    intros a b E. unfold MassEstimate.conflicts.
    now rewrite E, N.eqb_refl.
  - apply (unique_rows_NoDup AnalysisSummary.conflicts); [|assumption].
    intros a b E. unfold AnalysisSummary.conflicts.
    now rewrite E, N.eqb_refl.
Qed.

Lemma three_estimates_reachable : reachable Examples.three_estimates.
Proof.
  unfold Examples.three_estimates. apply reachable_run_all, reachable_empty.
Qed.

Lemma reachable_keys_unique_witness :
  NoDup (map (fun m => (MassEstimate.analysis_id m,
                        MassEstimate.parent_isotope m))
             (mass_estimates Examples.three_estimates)).
Proof.
  exact (proj1 (proj2 (reachable_keys_unique _ three_estimates_reachable))).
Defined.

(** X2: Foreign keys: in every reachable store each plot, detection, mass
    estimate and summary belongs to a session that exists. *)
Theorem reachable_no_orphans (d : db) :
  reachable d ->
  Forall (fun r => In (AnalysisPlot.analysis_id r)
                      (session_ids (analysis_sessions d)))
         (analysis_plots d)
  /\ Forall (fun r => In (IsotopeDetection.analysis_id r)
                         (session_ids (analysis_sessions d)))
            (isotope_detections d)
  /\ Forall (fun r => In (MassEstimate.analysis_id r)
                         (session_ids (analysis_sessions d)))
            (mass_estimates d)
  /\ Forall (fun r => In (AnalysisSummary.analysis_id r)
                         (session_ids (analysis_sessions d)))
            (analysis_summary d).
Proof.
  intro R. apply reachable_well_formed in R. destruct R.
  rewrite !Forall_forall in *.
  repeat split; intros r Hr; apply has_session_In; auto.
Qed.

Lemma reachable_no_orphans_witness :
  Forall (fun r => In (MassEstimate.analysis_id r)
                      (session_ids (analysis_sessions Examples.three_estimates)))
         (mass_estimates Examples.three_estimates).
Proof.
  exact (proj1 (proj2 (proj2
           (reachable_no_orphans _ three_estimates_reachable)))).
Defined.

(** X3: CHECK constraints: in every reachable store each session has a
    confidence threshold in (0, 1], each detection a positive gamma energy
    and non-negative counts, uncertainty and (when not NULL) relative
    uncertainty, each mass estimate a non-negative mass, uncertainty and
    relative uncertainty, and each summary non-negative totals. *)
Theorem reachable_checks_hold (d : db) :
  reachable d ->
  Forall (fun s => 0 < AnalysisSession.confidence_threshold s
                   /\ AnalysisSession.confidence_threshold s <= 1)
         (analysis_sessions d)
  /\ Forall (fun r => 0 < IsotopeDetection.gamma_energy_kev r
                      /\ 0 <= IsotopeDetection.detected_counts r
                      /\ 0 <= IsotopeDetection.count_uncertainty r
                      /\ forall v, IsotopeDetection.relative_uncertainty r
                                   = Some v -> 0 <= v)
            (isotope_detections d)
  /\ Forall (fun r => 0 <= MassEstimate.estimated_mass_g r
                      /\ 0 <= MassEstimate.mass_uncertainty_g r
                      /\ forall v, MassEstimate.relative_mass_uncertainty r
                                   = Some v -> 0 <= v)
            (mass_estimates d)
  /\ Forall (fun r => 0 <= AnalysisSummary.total_estimated_mass_g r
                      /\ (0 <= AnalysisSummary.total_detections r)%Z
                      /\ (0 <= AnalysisSummary.unique_parent_isotopes r)%Z)
            (analysis_summary d).
Proof.
  intro R. apply reachable_well_formed in R. destruct R.
  split; [|split; [|split]].
  - eapply Forall_impl; [|exact sessions_checked0].
    intros s C. unfold AnalysisSession.check in C.
    apply andb_true_iff in C. destruct C as [C1 C2].
    split; [now apply Qgtb_true|now apply Qle_bool_iff].
  - eapply Forall_impl; [|exact detections_checked0].
    intros r C. unfold IsotopeDetection.check in C.
    rewrite !andb_true_iff in C. destruct C as (((C1 & C2) & C3) & C4).
    split; [now apply Qgtb_true|]. split; [now apply Qgeb_true|].
    split; [now apply Qgeb_true|].
    intros v E. rewrite E in C4. now apply Qgeb_true.
  - eapply Forall_impl; [|exact mass_estimates_checked0].
    intros r C. unfold MassEstimate.check in C.
    rewrite !andb_true_iff in C. destruct C as ((C1 & C2) & C3).
    split; [now apply Qgeb_true|]. split; [now apply Qgeb_true|].
    intros v E. rewrite E in C3. now apply Qgeb_true.
  - eapply Forall_impl; [|exact summary_checked0].
    intros r C. unfold AnalysisSummary.check in C.
    rewrite !andb_true_iff in C. destruct C as ((C1 & C2) & C3).
    split; [now apply Qgeb_true|]. split; now apply Z.leb_le.
Qed.

Lemma reachable_checks_hold_witness :
  Forall (fun s => 0 < AnalysisSession.confidence_threshold s
                   /\ AnalysisSession.confidence_threshold s <= 1)
         (analysis_sessions Examples.three_estimates).
Proof.
  exact (proj1 (reachable_checks_hold _ three_estimates_reachable)).
Defined.

(** ** The CHECK on the relative uncertainty *)

Lemma Qdiv_nonneg U M : 0 <= U -> 0 < M -> 0 <= U / M.
Proof.
  intros HU HM. apply Qle_shift_div_l; [exact HM|].
  now rewrite Qmult_0_l.
Qed.

(** X4: The row triggers run before the CHECKs, so the CHECK on the relative
    uncertainty never decides: a written detection or mass estimate passes
    the CHECKs exactly when its energy, magnitude and uncertainty do,
    whatever relative uncertainty was supplied. *)
Theorem relative_check_never_decides :
  (forall NEW,
     IsotopeDetection.check (validate_isotope_detection NEW)
     = Qgtb (IsotopeDetection.gamma_energy_kev NEW) 0
       && Qgeb (IsotopeDetection.detected_counts NEW) 0
       && Qgeb (IsotopeDetection.count_uncertainty NEW) 0)
  /\ (forall NEW,
        MassEstimate.check (validate_mass_estimate NEW)
        = Qgeb (MassEstimate.estimated_mass_g NEW) 0
          && Qgeb (MassEstimate.mass_uncertainty_g NEW) 0).
Proof.
  split; intro NEW.
  - unfold IsotopeDetection.check, validate_isotope_detection.
    destruct (Qgtb (IsotopeDetection.detected_counts NEW) 0) eqn:M; simpl.
    + destruct (Qgeb (IsotopeDetection.count_uncertainty NEW) 0) eqn:U.
      * apply Qgtb_true in M. apply Qgeb_true in U.
        rewrite (proj2 (Qgeb_true _ 0) (Qdiv_nonneg _ _ U M)).
        now rewrite !andb_true_r.
      * now rewrite !andb_false_r.
    + now rewrite andb_true_r.
  - unfold MassEstimate.check, validate_mass_estimate.
    destruct (Qgtb (MassEstimate.estimated_mass_g NEW) 0) eqn:M; simpl.
    + destruct (Qgeb (MassEstimate.mass_uncertainty_g NEW) 0) eqn:U.
      * apply Qgtb_true in M. apply Qgeb_true in U.
        rewrite (proj2 (Qgeb_true _ 0) (Qdiv_nonneg _ _ U M)).
        now rewrite !andb_true_r.
      * now rewrite !andb_false_r.
    + now rewrite andb_true_r.
Qed.

(** ** Duplicate detections *)

(** X5: A detection for a (session, parent, daughter, gamma energy) that is
    already recorded is rejected and the store is left as it was; the
    energies are compared as numbers. *)
Theorem duplicate_detection_rejected (d : db) (NEW old : IsotopeDetection.row) :
  In old (isotope_detections d) ->
  IsotopeDetection.analysis_id NEW = IsotopeDetection.analysis_id old ->
  IsotopeDetection.parent_isotope NEW = IsotopeDetection.parent_isotope old ->
  IsotopeDetection.daughter_isotope NEW
  = IsotopeDetection.daughter_isotope old ->
  IsotopeDetection.gamma_energy_kev NEW
  == IsotopeDetection.gamma_energy_kev old ->
  run d (insert_isotope_detections NEW) = (d, Some unique_violation)
  \/ run d (insert_isotope_detections NEW) = (d, Some check_violation).
Proof.
  intros Hin Ha Hp Hd He.
  assert (C : existsb (IsotopeDetection.conflicts
                         (validate_isotope_detection NEW))
                      (isotope_detections d) = true).
  { apply existsb_exists. exists old. split; [exact Hin|].
    destruct (validate_isotope_detection_source NEW)
      as (_ & Ea & Ep & Ed & Eg & _).
    unfold IsotopeDetection.conflicts.
    rewrite Ea, Ep, Ed, Eg, Ha, Hp, Hd, N.eqb_refl, !String.eqb_refl.
    rewrite (proj2 (Qeq_bool_iff _ _) He). apply orb_true_r. }
  unfold run. simpl.
  unfold detections_insert, insert_row, write_row, guard, bind.
  destruct (IsotopeDetection.check (validate_isotope_detection NEW)).
  - rewrite C. simpl. now left.
  - now right.
Qed.

Lemma duplicate_detection_rejected_witness :
  run Examples.one_detection
      (insert_isotope_detections
         {| IsotopeDetection.id := 2; IsotopeDetection.analysis_id := 1;
            IsotopeDetection.parent_isotope := "Cs-137";
            IsotopeDetection.daughter_isotope := "Ba-137m";
            IsotopeDetection.gamma_energy_kev := 13234 # 20;
            IsotopeDetection.detected_counts := 50;
            IsotopeDetection.count_uncertainty := 7;
            IsotopeDetection.relative_uncertainty := None |})
  = (Examples.one_detection, Some unique_violation).
Proof.
  destruct (duplicate_detection_rejected Examples.one_detection
              {| IsotopeDetection.id := 2; IsotopeDetection.analysis_id := 1;
                 IsotopeDetection.parent_isotope := "Cs-137";
                 IsotopeDetection.daughter_isotope := "Ba-137m";
                 IsotopeDetection.gamma_energy_kev := 13234 # 20;
                 IsotopeDetection.detected_counts := 50;
                 IsotopeDetection.count_uncertainty := 7;
                 IsotopeDetection.relative_uncertainty := None |}
              (Examples.detection 1 1 0 3 None)) as [E|E].
  - simpl. auto.
  - reflexivity.
  - reflexivity.
  - reflexivity.
  - reflexivity.
  - exact E.
  - discriminate E.
Defined.

(** ** Deleting one session and the other sessions *)

Lemma cascade_keeps {row} (owner : row -> uuid) S S' ss (t : list row) :
  S' <> S ->
  filter (fun r => N.eqb (owner r) S')
    (delete_where
       (fun r => existsb (N.eqb (owner r))
                   (session_ids
                      (filter (fun s => N.eqb (AnalysisSession.id s) S) ss)))
       t)
  = filter (fun r => N.eqb (owner r) S') t.
Proof.
  intro N. unfold delete_where. rewrite filter_filter.
  apply filter_ext. intro r.
  destruct (N.eqb (owner r) S') eqn:E; [|apply andb_false_r].
  rewrite andb_true_r. apply N.eqb_eq in E. apply negb_true_iff.
  destruct (existsb _ _) eqn:X; [|reflexivity].
  apply existsb_exists in X. destruct X as (i & Hi & Ei).
  apply N.eqb_eq in Ei. unfold session_ids in Hi.
  apply in_map_iff in Hi. destruct Hi as (s & Es & Hs).
  apply filter_In in Hs. destruct Hs as [_ Hs]. apply N.eqb_eq in Hs.
  congruence.
Qed.

(** X6: Deleting session [S] touches no other session: the session row, the
    plots, detections, mass estimates and summary of every other session
    [S'] are what they were, and so is what [get_analysis_plots] returns
    for [S']. *)
Theorem delete_session_keeps_others (d : db) (S S' : uuid) :
  S' <> S ->
  let d' := fst (run d (delete_analysis_sessions
                          (fun s => N.eqb (AnalysisSession.id s) S))) in
  filter (fun s => N.eqb (AnalysisSession.id s) S') (analysis_sessions d')
  = filter (fun s => N.eqb (AnalysisSession.id s) S') (analysis_sessions d)
  /\ filter (fun r => N.eqb (AnalysisPlot.analysis_id r) S') (analysis_plots d')
     = filter (fun r => N.eqb (AnalysisPlot.analysis_id r) S')
              (analysis_plots d)
  /\ filter (fun r => N.eqb (IsotopeDetection.analysis_id r) S')
            (isotope_detections d')
     = filter (fun r => N.eqb (IsotopeDetection.analysis_id r) S')
              (isotope_detections d)
  /\ session_mass_estimates d' S' = session_mass_estimates d S'
  /\ session_summary d' S' = session_summary d S'
  /\ get_analysis_plots d' S' = get_analysis_plots d S'.
Proof.
  intros N d'. simpl in d'.
  assert (P : filter (fun r => N.eqb (AnalysisPlot.analysis_id r) S')
                     (analysis_plots d')
              = filter (fun r => N.eqb (AnalysisPlot.analysis_id r) S')
                       (analysis_plots d)).
  { apply (cascade_keeps AnalysisPlot.analysis_id), N. }
  split; [|split; [exact P|split; [|split; [|split]]]].
  - unfold d'. simpl. unfold delete_where. rewrite filter_filter.
    apply filter_ext. intro s.
    destruct (N.eqb (AnalysisSession.id s) S') eqn:E; [|apply andb_false_r].
    rewrite andb_true_r. apply N.eqb_eq in E. apply negb_true_iff.
    apply N.eqb_neq. congruence.
  - apply (cascade_keeps IsotopeDetection.analysis_id), N.
  - apply (cascade_keeps MassEstimate.analysis_id), N.
  - apply (cascade_keeps AnalysisSummary.analysis_id), N.
  - unfold get_analysis_plots. now rewrite P.
Qed.

Lemma delete_session_keeps_others_witness :
  session_mass_estimates
    (fst (run Examples.three_estimates
            (delete_analysis_sessions
               (fun s => N.eqb (AnalysisSession.id s) 3)))) 1
  = session_mass_estimates Examples.three_estimates 1.
Proof.
  assert (N : 1%N <> 3%N) by discriminate.
  exact (proj1 (proj2 (proj2 (proj2
           (delete_session_keeps_others Examples.three_estimates 3 1 N))))).
Defined.

(** X7: Deleting a session that does not exist deletes nothing. *)
Theorem delete_missing_session (d : db) (S : uuid) :
  ~ In S (session_ids (analysis_sessions d)) ->
  let d' := fst (run d (delete_analysis_sessions
                          (fun s => N.eqb (AnalysisSession.id s) S))) in
  analysis_sessions d' = analysis_sessions d
  /\ analysis_plots d' = analysis_plots d
  /\ isotope_detections d' = isotope_detections d
  /\ mass_estimates d' = mass_estimates d
  /\ Schema.analysis_summary d' = Schema.analysis_summary d.
Proof.
  intros H d'. simpl in d'.
  assert (G : filter (fun s => N.eqb (AnalysisSession.id s) S)
                     (analysis_sessions d) = []).
  { apply filter_none. intros s Hs. apply N.eqb_neq. intros <-.
    apply H. now apply in_map. }
  unfold d'. simpl. rewrite G. simpl. unfold delete_where.
  repeat split; try (apply filter_all, Forall_forall; intros; reflexivity).
  apply filter_all, Forall_forall. intros s Hs. apply negb_true_iff.
  apply N.eqb_neq. intros <-. apply H. now apply in_map.
Qed.

Lemma delete_missing_session_witness :
  mass_estimates
    (fst (run Examples.three_estimates
            (delete_analysis_sessions
               (fun s => N.eqb (AnalysisSession.id s) 7))))
  = mass_estimates Examples.three_estimates.
Proof.
  assert (H : ~ In 7%N (session_ids
                          (analysis_sessions Examples.three_estimates))).
  { simpl. intros [E|[E|[E|[]]]]; discriminate E. }
  exact (proj1 (proj2 (proj2 (proj2
           (delete_missing_session Examples.three_estimates 7 H))))).
Defined.

(** ** Plots written and read back *)



(** ** Bounds on the mass rank *)

(** X9: The first row of an isotope's ranking has rank 1, and every rank lies
    between 1 and the number of rows of the ranking. *)
Theorem mass_rank_bounds (d : db) (isotope : text) :
  (forall a rest, mass_ranking d isotope = a :: rest ->
                  MassComparison.mass_rank a = 1%nat)
  /\ (forall a, In a (mass_ranking d isotope) ->
                (1 <= MassComparison.mass_rank a
                 <= List.length (mass_ranking d isotope))%nat).
Proof.
  split.
  - intros a rest E.
    rewrite (mass_ranking_rank d isotope a) by (rewrite E; now left).
    f_equal. pose proof (mass_ranking_sorted d isotope) as S.
    rewrite E in *. inversion S as [|? ? _ F]; subst.
    rewrite filter_none; [reflexivity|].
    intros b [<-|Hb].
    + apply Qgtb_irrefl. reflexivity.
    + apply Qgtb_false. rewrite Forall_forall in F. now apply F.
  - intros a Ha. rewrite (mass_ranking_rank d isotope a Ha). split; [lia|].
    apply in_split in Ha. destruct Ha as (l1 & l2 & E). rewrite E.
    rewrite filter_app, !length_app. simpl.
    rewrite (Qgtb_irrefl _ _ (Qeq_refl _)).
    pose proof (filter_length_le
                  (fun b => Qgtb (MassComparison.estimated_mass_g b)
                                 (MassComparison.estimated_mass_g a)) l1).
    pose proof (filter_length_le
                  (fun b => Qgtb (MassComparison.estimated_mass_g b)
                                 (MassComparison.estimated_mass_g a)) l2).
    lia.
Qed.

Lemma mass_rank_bounds_witness :
  exists a rest,
    mass_ranking Examples.three_estimates "Cs-137" = a :: rest
    /\ List.length (a :: rest) = 3%nat
    /\ MassComparison.mass_rank a = 1%nat.
Proof.
  eexists. eexists. split; [reflexivity|]. split; [reflexivity|].
  exact (proj1 (mass_rank_bounds Examples.three_estimates "Cs-137")
               _ _ eq_refl).
Defined.

(** ** Outer joins with at most one match, and groups that follow a join *)

Lemma find_filter {A} (f : A -> bool) l : find f l = hd_error (filter f l).
Proof.
  induction l as [|x l IH]; simpl; [reflexivity|].
  destruct (f x); [reflexivity|exact IH].
Qed.

Lemma left_join_find {A B} (on : A -> B -> bool) l r :
  (forall a, In a l -> (List.length (filter (on a) r) <= 1)%nat) ->
  left_join on l r = map (fun a => (a, find (on a) r)) l.
Proof.
  unfold left_join.
  set (F := fun a => match filter (on a) r with
                     | [] => [(a, None)]
                     | ms => map (fun b => (a, Some b)) ms
                     end).
  induction l as [|a l IH]; intro H; [reflexivity|].
  change (flat_map F (a :: l)) with (F a ++ flat_map F l).
  rewrite IH by (intros; apply H; now right).
  change (map (fun a0 => (a0, find (on a0) r)) (a :: l))
    with ([(a, find (on a) r)] ++ map (fun a0 => (a0, find (on a0) r)) l).
  f_equal. unfold F.
  specialize (H a (or_introl eq_refl)). rewrite find_filter.
  destruct (filter (on a) r) as [|b [|c ms]]; simpl in *;
    [reflexivity|reflexivity|lia].
Qed.

Lemma unique_rows_at_most_one {row} (conflicts : row -> row -> bool)
  (f : row -> bool) t :
  (forall a b, f a = true -> f b = true -> conflicts a b = true) ->
  unique_rows conflicts t -> (List.length (filter f t) <= 1)%nat.
Proof.
  intro H. unfold unique_rows.
  induction 1 as [|x l Hx Hl IH]; simpl; [lia|].
  destruct (f x) eqn:E; [|exact IH].
  rewrite filter_none; [simpl; lia|].
  intros y Hy. destruct (f y) eqn:Ey; [|reflexivity].
  rewrite Forall_forall in Hx. specialize (Hx y Hy).
  rewrite (H x y E Ey) in Hx. discriminate.
Qed.

Lemma ForallOrdPairs_map {A B} (R : B -> B -> Prop) (g : A -> B) l :
  ForallOrdPairs (fun a b => R (g a) (g b)) l -> ForallOrdPairs R (map g l).
Proof.
  induction 1 as [|x l Hx Hl IH]; simpl; constructor; [|exact IH].
  rewrite Forall_forall in *. intros b Hb.
  apply in_map_iff in Hb. destruct Hb as (a & <- & Ha). auto.
Qed.

Section Blocks.
Context {A B K : Type}.
Variable key : B -> K.
Variable eqb : K -> K -> bool.
Variable f : A -> list B.
Variable k : A -> K.

Lemma distinct_incl l x : In x (distinct eqb l) -> In x l.
Proof.
  revert x. induction l as [|y l IH]; simpl; intros x H; [exact H|].
  destruct H as [H|H]; [now left|].
  apply filter_In in H. right. now apply IH.
Qed.

Lemma distinct_block kk M L :
  M <> [] -> (forall y, In y M -> y = kk) ->
  eqb kk kk = true -> (forall x, In x L -> eqb kk x = false) ->
  distinct eqb (M ++ L) = kk :: distinct eqb L.
Proof.
  intros Hne Hall Hrefl Hdiff.
  assert (Keep : filter (fun k' => negb (eqb kk k')) (distinct eqb L)
                 = distinct eqb L).
  { apply filter_all, Forall_forall. intros x Hx.
    apply distinct_incl in Hx. now rewrite (Hdiff x Hx). }
  induction M as [|y M IH]; [contradiction|].
  assert (y = kk) by (apply Hall; now left). subst y. simpl.
  destruct M as [|z M].
  - simpl. now rewrite Keep.
  - rewrite IH; [|discriminate|intros y Hy; apply Hall; now right].
    simpl. rewrite Hrefl. simpl. now rewrite Keep.
Qed.

Variable l : list A.
Hypothesis blocks_nonempty : forall a, In a l -> f a <> [].
Hypothesis blocks_key : forall a y, In a l -> In y (f a) -> key y = k a.
Hypothesis keys_refl : forall a, In a l -> eqb (k a) (k a) = true.
Hypothesis keys_differ :
  ForallOrdPairs (fun a b => eqb (k a) (k b) = false
                             /\ eqb (k b) (k a) = false) l.

(** Rows that come in blocks, one block per element of [l], each block
    with a key of its own, are grouped block by block. *)
Lemma group_by_blocks :
  group_by key eqb (flat_map f l) = map (fun a => (k a, f a)) l.
Proof.
  unfold group_by.
  assert (Keys : distinct eqb (map key (flat_map f l)) = map k l).
  { clear - blocks_nonempty blocks_key keys_refl keys_differ.
    induction l as [|a l' IH]; simpl; [reflexivity|].
    inversion keys_differ as [|? ? Ha Hl']; subst.
    rewrite map_app, (distinct_block (k a)).
    - f_equal. apply IH; auto.
      + intros; apply blocks_nonempty; now right.
      + intros b y Hb; apply blocks_key; now right.
      + intros b Hb; apply keys_refl; now right.
    - intro E. apply map_eq_nil in E.
      now apply (blocks_nonempty a (or_introl eq_refl)).
    - intros y Hy. apply in_map_iff in Hy. destruct Hy as (z & <- & Hz).
      apply blocks_key; [now left|exact Hz].
    - apply keys_refl. now left.
    - intros x Hx. apply in_map_iff in Hx. destruct Hx as (z & <- & Hz).
      apply in_flat_map in Hz. destruct Hz as (b & Hb & Hz).
      rewrite (blocks_key b z (or_intror Hb) Hz).
      rewrite Forall_forall in Ha. apply (Ha b Hb). }
  rewrite Keys, map_map. apply map_ext_in.
  clear Keys. intros a Ha. f_equal.
  induction l as [|x l' IH]; [contradiction|].
  inversion keys_differ as [|? ? Hx Hl']; subst. simpl.
  rewrite filter_app. rewrite Forall_forall in Hx.
  assert (Rest : forall b, In b l' ->
            filter (fun y => eqb (key y) (k b)) (f x) = []).
  { intros b Hb. apply filter_none. intros y Hy.
    rewrite (blocks_key x y (or_introl eq_refl) Hy). apply (Hx b Hb). }
  destruct Ha as [<-|Ha].
  - rewrite filter_all, filter_none; [apply app_nil_r| |].
    + intros y Hy. apply in_flat_map in Hy. destruct Hy as (b & Hb & Hy).
      rewrite (blocks_key b y (or_intror Hb) Hy). apply (Hx b Hb).
    + apply Forall_forall. intros y Hy.
      rewrite (blocks_key x y (or_introl eq_refl) Hy).
      apply keys_refl. now left.
  - rewrite (Rest a Ha). simpl. apply IH; auto.
    + intros; apply blocks_nonempty; now right.
    + intros b y Hb; apply blocks_key; now right.
    + intros b Hb; apply keys_refl; now right.
Qed.
End Blocks.

(** ** The view [latest_analyses] *)

Import Facade.

Lemma option_eqb_refl {A} (eqb : A -> A -> bool) :
  (forall x, eqb x x = true) ->
  forall o, Platform.option_eqb eqb o o = true.
Proof. intros H [x|]; simpl; auto. Qed.

Lemma group_key_eqb_refl kk : group_key_eqb kk kk = true.
Proof.
  destruct kk as [[[[[[[i f] t] c] m] n] u] o]. simpl.
  rewrite N.eqb_refl, String.eqb_refl, Qeq_bool_refl.
  rewrite !(option_eqb_refl Z.eqb Z.eqb_refl).
  rewrite (option_eqb_refl Qeq_bool Qeq_bool_refl).
  now rewrite (option_eqb_refl String.eqb String.eqb_refl).
Qed.

Lemma group_key_eqb_id x y :
  AnalysisSession.id (fst (fst x)) <> AnalysisSession.id (fst (fst y)) ->
  group_key_eqb (group_key x) (group_key y) = false.
Proof.
  destruct x as [[s1 sum1] p1], y as [[s2 sum2] p2]. simpl. intro N.
  apply N.eqb_neq in N. now rewrite N.
Qed.

(** The rows that the two outer joins make of one session. *)
Lemma latest_analyses_rows_blocks d :
  unique_rows AnalysisSummary.conflicts (Schema.analysis_summary d) ->
  latest_analyses_rows d
  = flat_map
      (fun x => match filter (owns_plot (fst x)) (analysis_plots d) with
                | [] => [(x, None)]
                | ms => map (fun p => (x, Some p)) ms
                end)
      (map (fun s => (s, find (has_summary s) (Schema.analysis_summary d)))
           (analysis_sessions d)).
Proof.
  intro U. unfold latest_analyses_rows. rewrite (left_join_find has_summary).
  - reflexivity.
  - intros s _. apply (unique_rows_at_most_one AnalysisSummary.conflicts);
      [|exact U].
    intros a b Ea Eb. unfold has_summary in *.
    apply N.eqb_eq in Ea, Eb. unfold AnalysisSummary.conflicts.
    rewrite <- Ea, <- Eb, N.eqb_refl. apply orb_true_r.
Qed.

Lemma latest_analyses_group d s :
  latest_analyses_row
    (group_key (s, find (has_summary s) (Schema.analysis_summary d), None),
     match filter (owns_plot s) (analysis_plots d) with
     | [] => [((s, find (has_summary s) (Schema.analysis_summary d)), None)]
     | ms => map (fun p => ((s, find (has_summary s)
                                     (Schema.analysis_summary d)), Some p)) ms
     end)
  = latest_analysis_of d s.
Proof.
  unfold latest_analyses_row, latest_analysis_of, group_key, summary_column.
  cbn [fst snd].
  set (sum := find (has_summary s) (Schema.analysis_summary d)).
  set (plots := filter (owns_plot s) (analysis_plots d)).
  destruct plots as [|p ms]; [reflexivity|].
  f_equal; unfold Platform.COUNT; f_equal.
  - rewrite filter_all; [apply length_map|].
    apply Forall_forall. intros y Hy. apply in_map_iff in Hy.
    now destruct Hy as (q & <- & _).
  - rewrite filter_map_swap, length_map. reflexivity.
Qed.

(** X10: In a reachable store the view [latest_analyses] has exactly one row
    for each session, latest timestamp first and sessions without a
    timestamp before the others.  The row carries the session's columns,
    the totals of the session's summary (NULL when it has none), the number
    of the session's plots and the number of its region-of-interest
    plots. *)
Theorem latest_analyses_one_row_per_session (d : db) :
  reachable d ->
  Permutation (latest_analyses d)
              (map (latest_analysis_of d) (analysis_sessions d))
  /\ StronglySorted
       (fun a b => no_later (latest_analyses_order a b) = true)
       (latest_analyses d).
Proof.
  intro R. apply reachable_well_formed in R. destruct R. split.
  - unfold latest_analyses.
    eapply perm_trans; [apply Permutation_sym, order_by_perm|].
    rewrite (latest_analyses_rows_blocks d summary_unique0).
    rewrite (group_by_blocks group_key group_key_eqb _
               (fun x => group_key (x, None))).
    + rewrite !map_map. erewrite map_ext; [apply Permutation_refl|].
      intro s. cbn beta. apply latest_analyses_group.
    + intros x _. destruct (filter _ _) eqn:E; discriminate.
    + intros [s sum] y _ Hy. cbn [fst] in Hy.
      destruct (filter (owns_plot s) (analysis_plots d)).
      * destruct Hy as [<-|[]]. reflexivity.
      * apply in_map_iff in Hy. destruct Hy as (p & <- & _). reflexivity.
    + intros; apply group_key_eqb_refl.
    + apply ForallOrdPairs_map.
      eapply ForallOrdPairs_impl; [|exact sessions_unique0].
      intros a b C. unfold AnalysisSession.conflicts in C.
      apply N.eqb_neq in C.
      split; apply group_key_eqb_id; cbn [fst]; congruence.
  - unfold latest_analyses. apply order_by_cmp_sorted.
    unfold latest_analyses_order.
    apply (key_comparator LatestAnalysis.analysis_timestamp
             (nulls_first (desc Z.compare))).
    apply nulls_first_comparator, desc_comparator, Z_comparator.
Qed.

Lemma dashboard_reachable : reachable Samples.dashboard.
Proof.
  unfold Samples.dashboard. apply reachable_run_all, reachable_empty.
Qed.

Lemma latest_analyses_one_row_per_session_witness :
  Permutation (latest_analyses Samples.dashboard)
              (map (latest_analysis_of Samples.dashboard)
                   (analysis_sessions Samples.dashboard)).
Proof.
  exact (proj1 (latest_analyses_one_row_per_session _ dashboard_reachable)).
Defined.

(** ** The view [detection_results] *)

Lemma detection_results_order_comparator : Comparator detection_results_order.
Proof.
  unfold detection_results_order.
  apply (lex_comparator
           (fun a b => nulls_first (desc Z.compare)
                         (DetectionResult.analysis_timestamp a)
                         (DetectionResult.analysis_timestamp b))
           (fun a b =>
              lex (String.compare (DetectionResult.parent_isotope a)
                                  (DetectionResult.parent_isotope b))
                  (Qcompare (DetectionResult.gamma_energy_kev a)
                            (DetectionResult.gamma_energy_kev b)))).
  - apply (key_comparator DetectionResult.analysis_timestamp
             (nulls_first (desc Z.compare))).
    apply nulls_first_comparator, desc_comparator, Z_comparator.
  - apply (lex_comparator
             (fun a b => String.compare (DetectionResult.parent_isotope a)
                                        (DetectionResult.parent_isotope b))
             (fun a b => Qcompare (DetectionResult.gamma_energy_kev a)
                                  (DetectionResult.gamma_energy_kev b))).
    + apply (key_comparator DetectionResult.parent_isotope String.compare),
        String_comparator.
    + apply (key_comparator DetectionResult.gamma_energy_kev Qcompare),
        Q_comparator.
Qed.

(** X11: In a reachable store the view [detection_results] has exactly one row
    for each detection: the detection with its session, joined with the
    mass estimate of that session for the detection's parent isotope, or
    with NULLs when there is none.  The rows are sorted by timestamp
    (latest first), parent isotope and gamma energy. *)
Theorem detection_results_one_row_per_detection (d : db) :
  reachable d ->
  Permutation
    (detection_results d)
    (map (fun x => detection_results_row
                     (x, find (estimate_matches x) (mass_estimates d)))
         (join owns_detection (analysis_sessions d) (isotope_detections d)))
  /\ Permutation
       (map snd (join owns_detection (analysis_sessions d)
                      (isotope_detections d)))
       (isotope_detections d)
  /\ StronglySorted
       (fun a b => no_later (detection_results_order a b) = true)
       (detection_results d).
Proof.
  intro R. apply reachable_well_formed in R. destruct R.
  split; [|split].
  - unfold detection_results, detection_results_rows.
    eapply perm_trans; [apply Permutation_sym, order_by_perm|].
    rewrite (left_join_find estimate_matches).
    + rewrite map_map. apply Permutation_refl.
    + intros x _.
      apply (unique_rows_at_most_one MassEstimate.conflicts);
        [|exact mass_estimates_unique0].
      intros a b Ea Eb. unfold estimate_matches in *.
      apply andb_true_iff in Ea, Eb. destruct Ea as [A1 A2], Eb as [B1 B2].
      apply N.eqb_eq in A1, B1. apply String.eqb_eq in A2, B2.
      unfold MassEstimate.conflicts, MassEstimate.same_estimate.
      rewrite <- A1, <- B1, <- A2, <- B2, N.eqb_refl, String.eqb_refl.
      apply orb_true_r.
  - now apply (join_snd_perm IsotopeDetection.analysis_id).
  - apply (@order_by_cmp_sorted _ _ detection_results_order_comparator).
Qed.

Lemma detection_results_one_row_per_detection_witness :
  Permutation
    (map snd (join owns_detection (analysis_sessions Samples.dashboard)
                   (isotope_detections Samples.dashboard)))
    (isotope_detections Samples.dashboard).
Proof.
  exact (proj1 (proj2 (detection_results_one_row_per_detection
                         _ dashboard_reachable))).
Defined.

(** ** Maintenance of [realtime_status] *)

Import Platform.
Import Operations.



(** X13: An UPDATE of [realtime_status] stamps every row it touches with NOW(),
    whatever the statement writes to [updated_at], and leaves the other
    rows alone; an INSERT stores the [updated_at] it is given. *)
Theorem updated_at_stamped_on_update (now : timestamptz)
  (t t' : list RealtimeStatus.row) :
  (forall p set,
     update_realtime_status now p set t = Ok t' ->
     Forall2 (fun OLD r =>
                if p OLD
                then r = RealtimeStatus.with_updated_at now (set OLD)
                else r = OLD) t t')
  /\ (forall NEW, insert_realtime_status t NEW = Ok t' -> t' = t ++ [NEW]).
Proof.
  split.
  - intros p set H. unfold update_realtime_status in H.
    apply update_where_Ok in H. destruct H as [-> _].
    apply Forall2_map_r. intros OLD _. unfold updated.
    now destruct (p OLD).
  - intros NEW H. unfold insert_realtime_status in H.
    apply insert_row_Ok in H. now destruct H as [-> _].
Qed.

Lemma updated_at_stamped_on_update_witness :
  Forall2 (fun OLD r =>
             if Z.eqb (RealtimeStatus.id OLD) 2
             then r = RealtimeStatus.with_updated_at 999
                        (RealtimeStatus.with_updated_at 5 OLD)
             else r = OLD)
          PlatformSamples.statuses
          [PlatformSamples.status_row 1 0 0;
           PlatformSamples.status_row 2 36000000000 999;
           PlatformSamples.status_row 3 108000000000 108000000000].
Proof.
  exact (proj1 (updated_at_stamped_on_update 999 PlatformSamples.statuses _)
           (fun r => Z.eqb (RealtimeStatus.id r) 2)
           (RealtimeStatus.with_updated_at 5) eq_refl).
Defined.

(** ** Log entries and the analyses they refer to *)

(** X14: The foreign key of [system_logs] has no ON DELETE CASCADE: a DELETE
    that would remove an analysis to which a log entry refers is rejected
    with a foreign-key violation. *)
Theorem logged_analysis_not_deleted (st : store) (p : Analysis.row -> bool)
  (a : Analysis.row) (l : SystemLog.row) :
  NoDup (map Analysis.analysis_id (isotope_analyses_table st)) ->
  In a (isotope_analyses_table st) -> p a = true ->
  In l (system_logs st) ->
  SystemLog.analysis_id l = Some (Analysis.analysis_id a) ->
  delete_isotope_analyses p st = Err foreign_key_violation.
Proof.
  intros U Ha Hp Hl El. unfold delete_isotope_analyses, guard, bind.
  destruct (forallb _ _) eqn:F; [|reflexivity]. exfalso.
  rewrite forallb_forall in F. specialize (F l Hl).
  unfold log_target_exists in F. rewrite El in F.
  apply existsb_exists in F. destruct F as (i & Hi & E).
  apply N.eqb_eq in E. subst i.
  apply in_map_iff in Hi. destruct Hi as (b & Eb & Hb).
  unfold delete_where in Hb. apply filter_In in Hb. destruct Hb as [Hb Pb].
  assert (b = a); [|subst b; rewrite Hp in Pb; discriminate].
  clear - U Ha Hb Eb. induction (isotope_analyses_table st) as [|x t IH];
    [contradiction|].
  simpl in U. inversion U as [|? ? Hx Ht]; subst.
  destruct Ha as [<-|Ha], Hb as [<-|Hb]; auto.
  - exfalso. apply Hx. rewrite <- Eb. now apply in_map.
  - exfalso. apply Hx. rewrite Eb. now apply in_map.
Qed.

Lemma logged_analysis_not_deleted_witness :
  delete_isotope_analyses (fun a => Z.eqb (Analysis.id a) 1)
                          PlatformSamples.logged
  = Err foreign_key_violation.
Proof.
  apply (logged_analysis_not_deleted PlatformSamples.logged _
           (Examples.analysis 1 3600000000 "soil" 10 ["Cs-137"%string]
                              "completed")
           {| SystemLog.id := 1; SystemLog.timestamp := 3600000001;
              SystemLog.level := "info";
              SystemLog.message := "analysis stored";
              SystemLog.source := Some "flask-api"%string;
              SystemLog.analysis_id := Some 1%N |}).
  - simpl. repeat constructor; simpl; intuition discriminate.
  - simpl. auto.
  - reflexivity.
  - simpl. auto.
  - reflexivity.
Defined.

(** X15: A DELETE that removes only analyses to which no log entry refers goes
    through, removes exactly the rows of its WHERE clause and leaves the
    log as it was, every entry still with its analysis. *)
Theorem unlogged_analyses_deleted (st : store) (p : Analysis.row -> bool) :
  Forall (fun l => log_target_exists (isotope_analyses_table st) l = true)
         (system_logs st) ->
  (forall a l, In a (isotope_analyses_table st) -> p a = true ->
               In l (system_logs st) ->
               SystemLog.analysis_id l <> Some (Analysis.analysis_id a)) ->
  exists st',
    delete_isotope_analyses p st = Ok st'
    /\ isotope_analyses_table st'
       = filter (fun a => negb (p a)) (isotope_analyses_table st)
    /\ system_logs st' = system_logs st
    /\ Forall (fun l => log_target_exists (isotope_analyses_table st') l = true)
              (system_logs st').
Proof.
  intros V H.
  assert (F : Forall (fun l => log_target_exists
                                 (delete_where p (isotope_analyses_table st))
                                 l = true) (system_logs st)).
  { rewrite Forall_forall in *. intros l Hl. specialize (V l Hl).
    unfold log_target_exists in *.
    destruct (SystemLog.analysis_id l) as [i|] eqn:E; [|reflexivity].
    apply existsb_exists in V. destruct V as (j & Hj & Ej).
    apply N.eqb_eq in Ej. subst j.
    apply in_map_iff in Hj. destruct Hj as (a & Ea & Ha).
    apply existsb_exists. exists i. split; [|apply N.eqb_refl].
    apply in_map_iff. exists a. split; [exact Ea|].
    apply filter_In. split; [exact Ha|].
    destruct (p a) eqn:P; [|reflexivity].
    exfalso. apply (H a l Ha P Hl). congruence. }
  eexists. unfold delete_isotope_analyses, guard, bind.
  rewrite (proj2 (forallb_forall _ _)).
  - split; [reflexivity|]. simpl. repeat split. exact F.
  - intros l Hl. rewrite Forall_forall in F. now apply F.
Qed.

Lemma unlogged_analyses_deleted_witness :
  exists st',
    delete_isotope_analyses (fun a => Z.eqb (Analysis.id a) 2)
                            PlatformSamples.logged = Ok st'
    /\ map Analysis.id (isotope_analyses_table st') = [1%Z].
Proof.
  destruct (unlogged_analyses_deleted PlatformSamples.logged
              (fun a => Z.eqb (Analysis.id a) 2)) as (st' & E & T & _).
  - repeat constructor.
  - intros a l Ha P Hl.
    simpl in Ha. destruct Ha as [<-|[<-|[]]]; [discriminate P|].
    simpl in Hl. destruct Hl as [<-|[<-|[]]]; discriminate.
  - exists st'. split; [exact E|]. rewrite T. reflexivity.
Defined.

(** ** The frequency view, group by group *)

Lemma by_detection_count_comparator : Comparator by_detection_count.
Proof.
  unfold by_detection_count.
  apply (key_comparator IsotopeFrequency.detection_count (desc Z.compare)).
  apply desc_comparator. exact Z_comparator.
Qed.

Lemma in_group_by {A} (key : A -> text) (l : list A) g :
  In g (group_by key String.eqb l) ->
  snd g = filter (fun a => String.eqb (key a) (fst g)) l
  /\ exists x, In x (snd g) /\ key x = fst g.
Proof.
  unfold group_by. intro H. apply in_map_iff in H.
  destruct H as (k & <- & Hk). simpl. split; [reflexivity|].
  apply distinct_incl, in_map_iff in Hk. destruct Hk as (x & <- & Hx).
  exists x. split; [|reflexivity].
  apply filter_In. split; [exact Hx|apply String.eqb_refl].
Qed.

Lemma completed_count_pos t a :
  In a t -> completed a = true -> (0 < completed_count t)%Z.
Proof.
  intros Ha C. unfold completed_count, COUNT.
  assert (H : In a (filter completed t)) by (apply filter_In; auto).
  destruct (filter completed t); [contradiction|]. simpl List.length. lia.
Qed.

(** The division of the view never sees a zero divisor: a group has a row,
    and the row comes from a completed analysis. *)
Lemma isotope_frequency_groups t :
  isotope_frequency t
  = Ok (order_by (fun a b => no_later (by_detection_count a b))
          (map (frequency_of_group t)
               (group_by snd String.eqb (isotope_frequency_rows t)))).
Proof.
  unfold isotope_frequency.
  rewrite (map_result_Ok _ (frequency_of_group t)); [reflexivity|].
  intros g Hg. apply isotope_frequency_row_Ok.
  apply in_group_by in Hg. destruct Hg as (E & [a i] & Hx & _).
  rewrite E in Hx. apply filter_In in Hx. destruct Hx as [Hx _].
  apply in_isotope_frequency_rows in Hx. destruct Hx as (Ha & C & _).
  pose proof (completed_count_pos t a Ha C). lia.
Qed.


Lemma Zsum_perm l l' : Permutation l l' -> Zsum l = Zsum l'.
Proof.
  induction 1 as [|x l l' H IH|x y l|l l' l'' H1 IH1 H2 IH2]; simpl; lia.
Qed.


(** The sizes of the groups of a GROUP BY add up to the number of rows. *)
Lemma group_sizes {A} (key : A -> text) (l : list A) ks :
  NoDup ks -> (forall x, In x l -> In (key x) ks) ->
  Zsum (map (fun k => COUNT (filter (fun x => String.eqb (key x) k) l)) ks)
  = COUNT l.
Proof.
  intros U. unfold COUNT. induction l as [|x l IH]; intro H.
  - simpl. clear. induction ks as [|k ks IH]; simpl; [reflexivity|exact IH].
  - assert (S : forall ks',
               Zsum (map (fun k => Z.of_nat (List.length
                            (filter (fun y => String.eqb (key y) k) (x :: l))))
                         ks')
               = (Z.of_nat (List.length (filter (String.eqb (key x)) ks'))
                  + Zsum (map (fun k => Z.of_nat (List.length
                            (filter (fun y => String.eqb (key y) k) l)))
                              ks'))%Z).
    { induction ks' as [|k ks' IH']; [reflexivity|].
      unfold Zsum in *. cbn [map fold_right]. rewrite IH'. cbn [filter].
      destruct (String.eqb (key x) k); simpl List.length; lia. }
    rewrite S, IH by (intros; apply H; now right).
    rewrite (NoDup_filter_eqb _ _ U).
    replace (existsb (String.eqb (key x)) ks) with true.
    + simpl List.length. lia.
    + symmetry. apply existsb_exists. exists (key x).
      split; [apply H; now left|apply String.eqb_refl].
Qed.

Lemma distinct_length_le (l : list text) :
  (List.length (distinct String.eqb l) <= List.length l)%nat.
Proof.
  induction l as [|k l IH]; simpl; [lia|].
  pose proof (filter_length_le (fun k' => negb (String.eqb k k'))
                               (distinct String.eqb l)). lia.
Qed.

(** The listings of the completed analyses: one joined row for each. *)
Lemma isotope_frequency_rows_total t :
  COUNT (isotope_frequency_rows t)
  = Zsum (map (fun a => COUNT (Analysis.isotope_families_detected a))
              (filter completed t)).
Proof.
  unfold COUNT. induction t as [|a t IH]; [reflexivity|].
  rewrite isotope_frequency_rows_cons, length_app, Nat2Z.inj_add, IH.
  simpl filter. destruct (completed a); simpl; [|reflexivity].
  now rewrite length_map.
Qed.

Lemma frequency_rows_of_view t rows :
  isotope_frequency t = Ok rows ->
  Permutation (map (frequency_of_group t)
                   (group_by snd String.eqb (isotope_frequency_rows t)))
              rows
  /\ StronglySorted (fun a b => no_later (by_detection_count a b) = true) rows.
Proof.
  rewrite isotope_frequency_groups. intros [= <-]. split.
  - apply order_by_perm.
  - apply (@order_by_cmp_sorted _ _ by_detection_count_comparator).
Qed.

Lemma frequency_view_totals t rows :
  isotope_frequency t = Ok rows ->
  COUNT rows = COUNT_DISTINCT (map snd (isotope_frequency_rows t))
  /\ Zsum (map IsotopeFrequency.detection_count rows)
     = COUNT (isotope_frequency_rows t).
Proof.
  intro E. apply frequency_rows_of_view in E. destruct E as [P _]. split.
  - unfold COUNT_DISTINCT, COUNT. rewrite <- (Permutation_length P).
    unfold group_by. now rewrite !length_map.
  - rewrite <- (Zsum_perm _ _ (Permutation_map _ P)).
    unfold group_by. rewrite !map_map. simpl.
    apply (group_sizes snd).
    + apply NoDup_distinct, String.eqb_eq.
    + intros x Hx. apply (In_distinct String.eqb String.eqb_eq).
      now apply in_map.
Qed.

(** A row of the view in terms of the table. *)
Lemma frequency_row_of_view t rows r :
  isotope_frequency t = Ok rows -> In r rows ->
  let rs := filter (fun x => String.eqb (snd x) (IsotopeFrequency.isotope r))
                   (isotope_frequency_rows t) in
  rs <> []
  /\ IsotopeFrequency.detection_count r = COUNT rs
  /\ IsotopeFrequency.unique_samples r
     = COUNT_DISTINCT (map (fun x => Analysis.sample_name (fst x)) rs)
  /\ IsotopeFrequency.detection_percentage r
     = ROUND2 (inject_Z (COUNT rs) / inject_Z (completed_count t) * 100).
Proof.
  intros E Hr. apply frequency_rows_of_view in E. destruct E as [P _].
  apply (Permutation_in _ (Permutation_sym P)) in Hr.
  apply in_map_iff in Hr. destruct Hr as (g & <- & Hg).
  apply in_group_by in Hg. destruct Hg as (Eg & x & Hx & _).
  unfold frequency_of_group.
  cbn [IsotopeFrequency.isotope IsotopeFrequency.detection_count
       IsotopeFrequency.unique_samples IsotopeFrequency.detection_percentage].
  rewrite Eg in Hx. rewrite Eg. repeat split.
  intro N. exact (eq_ind _ (In x) Hx _ N).
Qed.

Lemma no_later_by_detection_count a b :
  no_later (by_detection_count a b) = true ->
  (IsotopeFrequency.detection_count b <= IsotopeFrequency.detection_count a)%Z.
Proof.
  unfold by_detection_count, desc, no_later.
  destruct (Z.compare_spec (IsotopeFrequency.detection_count b)
                           (IsotopeFrequency.detection_count a));
    [lia|lia|discriminate].
Qed.


Lemma COUNT_nil_iff {A} (l : list A) : COUNT l = 0%Z <-> l = [].
Proof.
  unfold COUNT. destruct l; simpl List.length; split;
    try reflexivity; try discriminate; lia.
Qed.

Lemma COUNT_nonneg {A} (l : list A) : (0 <= COUNT l)%Z.
Proof. unfold COUNT. lia. Qed.

(** ** The frequency view: most listed first *)

(** X16: The frequency view lists the isotopes from the most to the least
    listed; every row has at least one listing and at least one sample
    name, never more sample names than listings; and the listings of its
    rows add up to the lengths of the arrays of the completed analyses. *)
Theorem isotope_frequency_most_listed_first (t : isotope_analyses)
  (rows : list IsotopeFrequency.row) :
  isotope_frequency t = Ok rows ->
  StronglySorted (fun a b => (IsotopeFrequency.detection_count b
                              <= IsotopeFrequency.detection_count a)%Z) rows
  /\ (forall r, In r rows ->
        (1 <= IsotopeFrequency.unique_samples r
         <= IsotopeFrequency.detection_count r)%Z)
  /\ Zsum (map IsotopeFrequency.detection_count rows)
     = Zsum (map (fun a => COUNT (Analysis.isotope_families_detected a))
                 (filter completed t)).
Proof.
  intro E. split; [|split].
  - apply frequency_rows_of_view in E. destruct E as [_ S].
    revert S. apply StronglySorted_impl. apply no_later_by_detection_count.
  - intros r Hr.
    destruct (frequency_row_of_view t rows r E Hr) as (N & -> & -> & _).
    set (rs := filter _ _) in *. unfold COUNT_DISTINCT, COUNT.
    pose proof (distinct_length_le
                  (map (fun x => Analysis.sample_name (fst x)) rs)) as L.
    rewrite length_map in L. split; [|lia].
    destruct rs as [|x rs']; [contradiction|]. simpl. lia.
  - rewrite <- isotope_frequency_rows_total.
    now apply frequency_view_totals.
Qed.

Lemma isotope_frequency_most_listed_first_witness :
  exists rows,
    isotope_frequency Examples.same_day = Ok rows
    /\ map IsotopeFrequency.detection_count rows = [2; 1; 1]%Z
    /\ Zsum (map IsotopeFrequency.detection_count rows) = 4%Z.
Proof.
  eexists. split; [reflexivity|]. split; [reflexivity|].
  exact (proj2 (proj2 (isotope_frequency_most_listed_first
                         Examples.same_day _ eq_refl))).
Defined.

(** ** The statistics function *)


Lemma get_analysis_stats_Ok now t days_back rows :
  isotope_frequency t = Ok rows ->
  get_analysis_stats now t days_back
  = Ok {| AnalysisStats.total_analyses := COUNT (filter completed t);
          AnalysisStats.total_isotopes_detected :=
            SUM (map (fun a => array_length
                                 (Analysis.isotope_families_detected a))
                     (filter completed t));
          AnalysisStats.unique_isotopes :=
            COUNT_DISTINCT (map snd (isotope_frequency_rows t));
          AnalysisStats.avg_peaks_per_analysis :=
            match filter completed t with
            | [] => None
            | done => Some (ROUND2 (AVG (map Analysis.total_peaks_found done)))
            end;
          AnalysisStats.most_common_isotope :=
            option_map IsotopeFrequency.isotope (hd_error rows);
          AnalysisStats.recent_analysis_count :=
            COUNT (filter (fun a => completed a && recent now days_back a)
                          t) |}.
Proof. intro E. unfold get_analysis_stats. rewrite E. reflexivity. Qed.






(** ** The detection percentage *)

Lemma ROUND2_bounds (x : Q) : 0 <= x -> x <= 100 -> 0 <= ROUND2 x <= 100.
Proof.
  intros L U. unfold ROUND2.
  assert (M0 : 0 <= x * 100) by (apply Qmult_le_0_compat; [exact L|discriminate]).
  assert (M1 : x * 100 <= 10000).
  { setoid_replace 10000 with (100 * 100) by reflexivity.
    apply Qmult_le_compat_r; [exact U|discriminate]. }
  rewrite (proj2 (Qle_bool_iff 0 (x * 100)) M0).
  assert (F0 : (0 <= Qfloor (x * 100 + (1 # 2)))%Z).
  { change 0%Z with (Qfloor 0). apply Qfloor_resp_le.
    setoid_replace 0 with (0 + 0) by reflexivity.
    apply Qplus_le_compat; [exact M0|discriminate]. }
  assert (F1 : (Qfloor (x * 100 + (1 # 2)) <= 10000)%Z).
  { change 10000%Z with (Qfloor (10000 + (1 # 2))). apply Qfloor_resp_le.
    apply Qplus_le_compat; [exact M1|apply Qle_refl]. }
  split.
  - apply Qle_shift_div_l; [reflexivity|].
    setoid_replace (0 * 100) with (inject_Z 0) by reflexivity.
    now rewrite <- Zle_Qle.
  - apply Qle_shift_div_r; [reflexivity|].
    setoid_replace (100 * 100) with (inject_Z 10000) by reflexivity.
    now rewrite <- Zle_Qle.
Qed.

Lemma completed_with_le t k : (COUNT (completed_with t k) <= completed_count t)%Z.
Proof.
  unfold completed_with, completed_count, COUNT.
  pose proof (filter_length_le
                (fun a => existsb (String.eqb k)
                                  (Analysis.isotope_families_detected a))
                (filter completed t)). lia.
Qed.

(** X17: When no array lists an isotope twice, no isotope is counted more often
    than there are completed analyses, and its detection percentage lies
    between 0 and 100. *)
Theorem detection_percentage_bounds (t : isotope_analyses)
  (rows : list IsotopeFrequency.row) (r : IsotopeFrequency.row) :
  Forall (fun a => NoDup (Analysis.isotope_families_detected a)) t ->
  isotope_frequency t = Ok rows -> In r rows ->
  (1 <= IsotopeFrequency.detection_count r <= completed_count t)%Z
  /\ 0 <= IsotopeFrequency.detection_percentage r <= 100.
Proof.
  intros U E Hr.
  destruct (frequency_row_of_view t rows r E Hr) as (NE & Dc & _ & Dp).
  cbv zeta in *. rewrite <- Dc in Dp.
  assert (C : (1 <= IsotopeFrequency.detection_count r
               <= completed_count t)%Z).
  { rewrite Dc. split.
    - pose proof (COUNT_nonneg
                    (filter (fun x => String.eqb (snd x)
                                        (IsotopeFrequency.isotope r))
                            (isotope_frequency_rows t))) as P.
      assert (COUNT (filter (fun x => String.eqb (snd x)
                                        (IsotopeFrequency.isotope r))
                            (isotope_frequency_rows t)) <> 0%Z); [|lia].
      intro Z0. apply COUNT_nil_iff in Z0. apply NE. rewrite Z0. reflexivity.
    - rewrite isotope_frequency_rows_count, (occurrences_sessions _ _ U).
      apply completed_with_le. }
  split; [exact C|]. rewrite Dp.
  set (c := IsotopeFrequency.detection_count r) in *.
  set (n := completed_count t) in *. clearbody c n.
  assert (N : 0 < inject_Z n) by (change 0 with (inject_Z 0); rewrite <- Zlt_Qlt; lia).
  apply ROUND2_bounds.
  - apply Qmult_le_0_compat; [|discriminate].
    apply Qle_shift_div_l; [exact N|].
    setoid_replace (0 * inject_Z n) with (inject_Z 0) by ring.
    rewrite <- Zle_Qle. lia.
  - setoid_replace 100 with (1 * 100) at 2 by reflexivity.
    apply Qmult_le_compat_r; [|discriminate].
    apply Qle_shift_div_r; [exact N|].
    rewrite Qmult_1_l, <- Zle_Qle. lia.
Qed.

Lemma detection_percentage_bounds_witness :
  exists rows r,
    isotope_frequency Examples.same_day = Ok rows
    /\ hd_error rows = Some r
    /\ IsotopeFrequency.detection_count r = 2%Z
    /\ 0 <= IsotopeFrequency.detection_percentage r <= 100.
Proof.
  eexists. eexists. split; [reflexivity|]. split; [reflexivity|].
  split; [reflexivity|].
  refine (proj2 (detection_percentage_bounds Examples.same_day _ _ _ eq_refl
                   (or_introl eq_refl))).
  repeat constructor; simpl; intuition discriminate.
Defined.

(** ** The window of recent analyses *)

Lemma filter_length_mono {A} (f g : A -> bool) l :
  (forall x, In x l -> f x = true -> g x = true) ->
  (List.length (filter f l) <= List.length (filter g l))%nat.
Proof.
  induction l as [|x l IH]; intro H; simpl; [lia|].
  assert (IH' := IH (fun y Hy => H y (or_intror Hy))).
  pose proof (H x (or_introl eq_refl)) as Hx.
  destruct (f x); [rewrite Hx by reflexivity|destruct (g x)]; simpl; lia.
Qed.

(** X21: Only the last column of [get_analysis_stats] depends on [days_back]:
    it grows with the window, and once the window reaches back to the
    oldest completed analysis it is the number of completed analyses. *)
Theorem recent_analysis_count_grows (now : timestamptz)
  (t : isotope_analyses) (d1 d2 : Z) (s1 s2 : AnalysisStats.row) :
  (d1 <= d2)%Z ->
  get_analysis_stats now t d1 = Ok s1 ->
  get_analysis_stats now t d2 = Ok s2 ->
  (AnalysisStats.recent_analysis_count s1
   <= AnalysisStats.recent_analysis_count s2)%Z
  /\ ((forall a, In a t -> completed a = true ->
                 (now - usec_per_day * d2 <= Analysis.timestamp a)%Z) ->
      AnalysisStats.recent_analysis_count s2
      = AnalysisStats.total_analyses s2)
  /\ AnalysisStats.total_analyses s1 = AnalysisStats.total_analyses s2
  /\ AnalysisStats.total_isotopes_detected s1
     = AnalysisStats.total_isotopes_detected s2
  /\ AnalysisStats.unique_isotopes s1 = AnalysisStats.unique_isotopes s2
  /\ AnalysisStats.avg_peaks_per_analysis s1
     = AnalysisStats.avg_peaks_per_analysis s2
  /\ AnalysisStats.most_common_isotope s1
     = AnalysisStats.most_common_isotope s2.
Proof.
  intro L. pose proof (isotope_frequency_groups t) as E.
  rewrite !(get_analysis_stats_Ok _ _ _ _ E). intros [= <-] [= <-].
  cbn [AnalysisStats.unique_isotopes AnalysisStats.total_isotopes_detected
       AnalysisStats.avg_peaks_per_analysis AnalysisStats.total_analyses
       AnalysisStats.recent_analysis_count AnalysisStats.most_common_isotope].
  split; [|split; [|repeat split]].
  - unfold COUNT. apply inj_le, filter_length_mono. intros a _ H.
    apply andb_true_iff in H. destruct H as [C R]. rewrite C. simpl.
    unfold recent, usec_per_day in *. apply Z.leb_le in R. apply Z.leb_le.
    lia.
  - intro H. f_equal. apply filter_ext_in. intros a Ha.
    destruct (completed a) eqn:C; [|reflexivity]. simpl.
    unfold recent. apply Z.leb_le. now apply H.
Qed.

Lemma recent_analysis_count_grows_witness :
  exists s1 s2,
    get_analysis_stats 86400000000 Examples.same_day 0 = Ok s1
    /\ get_analysis_stats 86400000000 Examples.same_day 1 = Ok s2
    /\ AnalysisStats.recent_analysis_count s1 = 0%Z
    /\ AnalysisStats.recent_analysis_count s2 = 2%Z
    /\ (AnalysisStats.recent_analysis_count s1
        <= AnalysisStats.recent_analysis_count s2)%Z.
Proof.
  eexists. eexists. split; [reflexivity|]. split; [reflexivity|].
  split; [reflexivity|]. split; [reflexivity|].
  refine (proj1 (recent_analysis_count_grows 86400000000 Examples.same_day
                   0 1 _ _ _ eq_refl eq_refl)).
  lia.
Defined.

(** ** The daily rollup, day by day *)

Import Rollup.

Lemma option_eqb_eq {A} (eqb : A -> A -> bool) :
  (forall a b, eqb a b = true <-> a = b) ->
  forall a b, option_eqb eqb a b = true <-> a = b.
Proof.
  intros H [a|] [b|]; simpl; try rewrite H; split; congruence.
Qed.

Lemma in_group_by_key {A K} (key : A -> K) (eqb : K -> K -> bool) l g :
  In g (group_by key eqb l) ->
  In (fst g) (map key l)
  /\ snd g = filter (fun a => eqb (key a) (fst g)) l.
Proof.
  unfold group_by. intro H. apply in_map_iff in H.
  destruct H as (k & <- & Hk). split; [|reflexivity].
  now apply distinct_incl in Hk.
Qed.

Lemma flat_map_singletons {A B} (f : A -> list B) (g : A -> B) l :
  (forall x, In x l -> f x = [g x]) -> flat_map f l = map g l.
Proof.
  induction l as [|x l IH]; intro H; [reflexivity|]. simpl.
  rewrite (H x (or_introl eq_refl)), IH by (intros; apply H; now right).
  reflexivity.
Qed.

(** An analysis finds its own day, and no other, when ids are unique. *)
Lemma filter_ia_day t a :
  NoDup (map Analysis.id t) -> In a t ->
  filter (fun day => Z.eqb (snd day) (Analysis.id a)) (ia_day t)
  = [(date_trunc_day (Analysis.timestamp a), Analysis.id a)].
Proof.
  induction t as [|b t IH]; intros U Ha; [contradiction|].
  simpl in U. inversion U as [|? ? Hb Ut]; subst.
  cbn [ia_day map filter snd].
  destruct Ha as [->|Ha].
  - rewrite Z.eqb_refl. f_equal. apply filter_none.
    intros [d i] Hx. apply in_map_iff in Hx.
    destruct Hx as (c & [= <- <-] & Hc). simpl. apply Z.eqb_neq.
    intro E. apply Hb. rewrite <- E. now apply in_map.
  - destruct (Z.eqb_spec (Analysis.id b) (Analysis.id a)) as [E|_].
    + exfalso. apply Hb. rewrite E. now apply in_map.
    + now apply IH.
Qed.

Lemma in_left_join_unnest l x :
  In x (left_join_unnest l) <->
  In (fst x) l
  /\ match snd x with
     | Some i => In i (Analysis.isotope_families_detected (fst x))
     | None => Analysis.isotope_families_detected (fst x) = []
     end.
Proof.
  unfold left_join_unnest. rewrite in_flat_map. split.
  - intros (a & Ha & Hx).
    destruct (Analysis.isotope_families_detected a) as [|i isos] eqn:I.
    + destruct Hx as [<-|[]]. simpl. auto.
    + apply in_map_iff in Hx. destruct Hx as (j & <- & Hj). simpl.
      rewrite I. auto.
  - destruct x as [a o]. cbn [fst snd]. intros [Ha H].
    exists a. split; [exact Ha|]. destruct o as [i|].
    + destruct (Analysis.isotope_families_detected a) as [|j isos];
        [contradiction|].
      cbv beta iota. apply (in_map (fun i => (a, Some i))). exact H.
    + rewrite H. now left.
Qed.

(** With unique ids the join with the days adds its day to every row. *)
Lemma analysis_summary_rows_days t :
  NoDup (map Analysis.id t) ->
  analysis_summary_rows t
  = map (fun x => (x, Some (date_trunc_day (Analysis.timestamp (fst x)),
                            Analysis.id (fst x))))
        (left_join_unnest (filter completed t)).
Proof.
  intro U. unfold analysis_summary_rows, left_join.
  apply flat_map_singletons. intros x Hx.
  apply in_left_join_unnest in Hx. destruct Hx as [Hx _].
  apply filter_In in Hx. destruct Hx as [Hx _].
  now rewrite (filter_ia_day t (fst x) U Hx).
Qed.




Lemma in_day_rows d t x :
  In x (filter (fun x => on_day d (fst x))
               (left_join_unnest (filter completed t)))
  <-> In (fst x) (completed_on d t)
      /\ match snd x with
         | Some i => In i (Analysis.isotope_families_detected (fst x))
         | None => Analysis.isotope_families_detected (fst x) = []
         end.
Proof.
  unfold completed_on. rewrite !filter_In, in_left_join_unnest, filter_In.
  tauto.
Qed.

(** Every analysis has a joined row. *)
Lemma day_row_exists d t a :
  In a (completed_on d t) ->
  exists o, In (a, o) (filter (fun x => on_day d (fst x))
                              (left_join_unnest (filter completed t))).
Proof.
  intro Ha.
  destruct (Analysis.isotope_families_detected a) as [|i isos] eqn:I.
  - exists None. apply in_day_rows. simpl. auto.
  - exists (Some i). apply in_day_rows. simpl. rewrite I. simpl. auto.
Qed.

Lemma daily_summary_order_comparator :
  Comparator (fun a b => nulls_first (desc Z.compare)
                           (DailySummary.analysis_date a)
                           (DailySummary.analysis_date b)).
Proof.
  apply (key_comparator DailySummary.analysis_date
                        (nulls_first (desc Z.compare))).
  apply nulls_first_comparator, desc_comparator. exact Z_comparator.
Qed.

Lemma analysis_summary_perm t :
  Permutation
    (map daily_summary_row
         (group_by row_analysis_date (option_eqb Z.eqb)
                   (analysis_summary_rows t)))
    (Platform.analysis_summary t).
Proof. apply order_by_perm. Qed.

Lemma StronglySorted_in {A} (R R' : A -> A -> Prop) l :
  (forall a b, In a l -> In b l -> R a b -> R' a b) ->
  StronglySorted R l -> StronglySorted R' l.
Proof.
  intros H S. induction S as [|x l S IH F]; constructor.
  - apply IH. intros a b Ha Hb. apply H; now right.
  - rewrite Forall_forall in *. intros b Hb.
    apply H; [now left|now right|now apply F].
Qed.

Lemma StronglySorted_NoDup {A K} (key : A -> K) (R : A -> A -> Prop) l :
  NoDup (map key l) -> StronglySorted R l ->
  StronglySorted (fun a b => R a b /\ key a <> key b) l.
Proof.
  intros U S. induction S as [|x l S IH F]; constructor.
  - apply IH. now inversion U.
  - simpl in U. inversion U as [|? ? Hx Ul]; subst.
    rewrite Forall_forall in *. intros b Hb. split; [now apply F|].
    intro E. apply Hx. rewrite E. now apply in_map.
Qed.

(** The days of the rollup. *)
Lemma analysis_summary_dates t :
  NoDup (map Analysis.id t) ->
  forall k,
    In k (map DailySummary.analysis_date (Platform.analysis_summary t))
    <-> exists a, In a t /\ completed a = true
                  /\ k = Some (date_trunc_day (Analysis.timestamp a)).
Proof.
  intros U k.
  assert (P := Permutation_map DailySummary.analysis_date
                 (analysis_summary_perm t)).
  split.
  - intro H. apply (Permutation_in _ (Permutation_sym P)) in H.
    rewrite map_map in H. apply in_map_iff in H.
    destruct H as (g & <- & Hg).
    apply in_group_by_key in Hg. destruct Hg as [Hk _].
    rewrite (analysis_summary_rows_days t U), map_map in Hk.
    apply in_map_iff in Hk. destruct Hk as (x & Ek & Hx).
    apply in_left_join_unnest in Hx. destruct Hx as [Hx _].
    apply filter_In in Hx. destruct Hx as [Hx C].
    exists (fst x). repeat split; auto.
  - intros (a & Ha & C & ->).
    apply (Permutation_in _ P). rewrite map_map.
    unfold group_by. rewrite map_map. cbn [daily_summary_row
      DailySummary.analysis_date fst]. rewrite map_id.
    apply (In_distinct _ (option_eqb_eq Z.eqb Z.eqb_eq)).
    rewrite (analysis_summary_rows_days t U), map_map.
    assert (Hd : In a (completed_on (date_trunc_day (Analysis.timestamp a)) t)).
    { unfold completed_on. rewrite !filter_In. repeat split; auto.
      apply Z.eqb_refl. }
    destruct (day_row_exists _ t a Hd) as (o & Ho).
    apply filter_In in Ho. destruct Ho as [Ho _].
    apply in_map_iff. exists (a, o). split; [reflexivity|exact Ho].
Qed.

(** X22: With unique ids, the daily rollup has exactly one row for each day on
    which an analysis was completed, the latest day first, and no row
    without a day. *)
Theorem daily_rollup_days (t : isotope_analyses) :
  NoDup (map Analysis.id t) ->
  StronglySorted
    (fun a b => exists da db,
       DailySummary.analysis_date a = Some da
       /\ DailySummary.analysis_date b = Some db /\ (db < da)%Z)
    (Platform.analysis_summary t)
  /\ (forall k,
        In k (map DailySummary.analysis_date (Platform.analysis_summary t))
        <-> exists a, In a t /\ completed a = true
                      /\ k = Some (date_trunc_day (Analysis.timestamp a))).
Proof.
  intro U. split; [|now apply analysis_summary_dates].
  assert (N : NoDup (map DailySummary.analysis_date
                         (Platform.analysis_summary t))).
  { apply (Permutation_NoDup
             (Permutation_map DailySummary.analysis_date
                              (analysis_summary_perm t))).
    rewrite map_map. unfold group_by. rewrite map_map.
    cbn [daily_summary_row DailySummary.analysis_date fst]. rewrite map_id.
    apply NoDup_distinct, (option_eqb_eq Z.eqb Z.eqb_eq). }
  assert (S := @order_by_cmp_sorted _ _ daily_summary_order_comparator
                 (map daily_summary_row
                      (group_by row_analysis_date (option_eqb Z.eqb)
                                (analysis_summary_rows t)))).
  fold (Platform.analysis_summary t) in S.
  apply (StronglySorted_NoDup DailySummary.analysis_date _ _ N) in S.
  revert S. apply StronglySorted_in. intros a b Ha Hb [L D].
  apply (in_map DailySummary.analysis_date) in Ha, Hb.
  apply (analysis_summary_dates t U) in Ha, Hb.
  destruct Ha as (x & _ & _ & Ea), Hb as (y & _ & _ & Eb).
  rewrite Ea, Eb in *. do 2 eexists. repeat split.
  cbn [nulls_first] in L. unfold desc, no_later in L.
  destruct (Z.compare_spec (date_trunc_day (Analysis.timestamp y))
                           (date_trunc_day (Analysis.timestamp x)));
    [congruence|lia|discriminate].
Qed.

Lemma daily_rollup_days_witness :
  NoDup (map Analysis.id Examples.same_day)
  /\ map DailySummary.analysis_date (Platform.analysis_summary Examples.same_day)
     = [Some 0%Z]
  /\ In (Some (date_trunc_day 3600000000))
        (map DailySummary.analysis_date
             (Platform.analysis_summary Examples.same_day)).
Proof.
  assert (U : NoDup (map Analysis.id Examples.same_day))
    by (repeat constructor; simpl; intuition discriminate).
  split; [exact U|]. split; [reflexivity|].
  apply (proj2 (daily_rollup_days Examples.same_day U)).
  eexists. split; [left; reflexivity|]. split; reflexivity.
Defined.




(** ** The dashboard and the database *)

Import Dashboard.








Lemma count_isotope_None ks : fold_left count_isotope ks None = None.
Proof. induction ks as [|k ks IH]; [reflexivity|exact IH]. Qed.








